(** * Survey Coder: the classification pipeline of [app.py]

    A shallow embedding of the parts of [src/app.py] that decide how survey
    responses are embedded, clustered, classified, mapped back onto the rows
    of the data frame and counted, followed by the properties proved about
    them.

    Conventions.
    - A Python [str] is a [string]; each character stands for the code point
      of the same number (the Latin-1 range).
    - A pandas cell that may be missing is an [option]; [None] is NaN.
    - Python dictionaries keep insertion order, and the handler relies on it
      (the representative of a cluster is the first matching item), so a
      dictionary is an association list updated in place.
    - What the script obtains from outside (the LLM endpoint, the JSON
      validator, scikit-learn's DBSCAN, the iteration order of a Python set,
      floating-point arithmetic) is a field of the record [World]. *)

From Stdlib Require Import String Ascii List ZArith QArith Lia Bool Arith.
From Stdlib Require Import DecimalString Permutation Sorted.
Import ListNotations.
Close Scope Q_scope.
Open Scope nat_scope.
Open Scope string_scope.
Open Scope list_scope.

Set Implicit Arguments.

(* ================================================================== *)
(** ** Python strings *)

Module PyStr.

(** The characters [str.isspace] accepts below code point 256; the [re]
    class [\s] of a [str] pattern accepts the same ones. *)
Definition py_isspace (c : ascii) : bool :=
  let n := nat_of_ascii c in
  ((9 <=? n)%nat && (n <=? 13)%nat) || ((28 <=? n)%nat && (n <=? 32)%nat)
  || (n =? 133)%nat || (n =? 160)%nat.

Definition is_empty (s : string) : bool :=
  match s with EmptyString => true | String _ _ => false end.

(** Truth value of a [str]: non-empty. *)
Definition truthy (s : string) : bool := negb (is_empty s).

Fixpoint lstrip (s : string) : string :=
  match s with
  | EmptyString => EmptyString
  | String c s' => if py_isspace c then lstrip s' else s
  end.

Fixpoint rstrip (s : string) : string :=
  match s with
  | EmptyString => EmptyString
  | String c s' =>
      let r := rstrip s' in
      if py_isspace c && is_empty r then EmptyString else String c r
  end.

(** [s.strip()] *)
Definition strip (s : string) : string := rstrip (lstrip s).

(** [c in s] for a one-character [c]. *)
Fixpoint contains_char (c : ascii) (s : string) : bool :=
  match s with
  | EmptyString => false
  | String a s' => Ascii.eqb a c || contains_char c s'
  end.

(** [s.find(c)]: index of the first [c]. *)
Fixpoint find_char (c : ascii) (s : string) : option nat :=
  match s with
  | EmptyString => None
  | String a s' =>
      if Ascii.eqb a c then Some 0
      else option_map S (find_char c s')
  end.

(** [s.rfind(c)]: index of the last [c]. *)
Fixpoint rfind_char (c : ascii) (s : string) : option nat :=
  match s with
  | EmptyString => None
  | String a s' =>
      match rfind_char c s' with
      | Some i => Some (S i)
      | None => if Ascii.eqb a c then Some 0 else None
      end
  end.

(** [s[start:stop]] for non-negative bounds. *)
Definition slice (start stop : nat) (s : string) : string :=
  substring start (stop - start) s.

(** [sep.join(parts)] *)
Definition join (sep : string) (parts : list string) : string :=
  String.concat sep parts.

(** *** The two regular expressions of the script

    Both have the shape [\s*d\s*] for a delimiter [d] that is no whitespace
    (a comma in the results view, a pipe in the frequency table).  A match
    is never empty; scanning from the left, the match that contains a
    delimiter starts at the whitespace run just before it (as far as that
    run was not eaten by the match before) and ends after the whitespace run
    that follows it.  [scan] walks the characters once: [cur] is the piece
    read so far and [pend] the whitespace run that ends it, both newest
    first; [skip] says that a match has just been read, whose greedy
    trailing [\s*] takes the whitespace that follows. *)
Fixpoint scan (d : ascii) (skip : bool) (cur pend : list ascii)
  (s : list ascii) : list (list ascii) :=
  match s with
  | [] => [rev (pend ++ cur)]
  | c :: s' =>
      if Ascii.eqb c d then rev cur :: scan d true [] [] s'
      else if py_isspace c then
        if skip then scan d true cur pend s'
        else scan d false cur (c :: pend) s'
      else scan d false (c :: pend ++ cur) [] s'
  end.

(** [re.split(r'\s*d\s*', s)] *)
Definition re_split (d : ascii) (s : string) : list string :=
  map string_of_list_ascii (scan d false [] [] (list_ascii_of_string s)).

(** [re.sub(r'\s*d\s*', repl, s)]: the pieces between the matches, with
    [repl] where each match was. *)
Definition re_sub (d : ascii) (repl : string) (s : string) : string :=
  join repl (re_split d s).

Definition comma : ascii := ascii_of_nat 44.
Definition pipe : ascii := ascii_of_nat 124.
Definition lbrace : ascii := ascii_of_nat 123.
Definition rbrace : ascii := ascii_of_nat 125.
Definition dquote : string := String (ascii_of_nat 34) EmptyString.
Definition nl : string := String (ascii_of_nat 10) EmptyString.

(** [sub in s] for a string [sub]. *)
Fixpoint contains (sub s : string) : bool :=
  prefix sub s ||
  match s with
  | EmptyString => false
  | String _ s' => contains sub s'
  end.

End PyStr.
Import PyStr.

(* ================================================================== *)
(** ** Python dictionaries *)

Module PyDict.
Section Dict.
Variables (K V : Type) (eqb : K -> K -> bool).

Definition dict := list (K * V).

(** [d.get(k)] *)
Fixpoint dict_get (d : dict) (k : K) : option V :=
  match d with
  | [] => None
  | (k', v) :: d' => if eqb k' k then Some v else dict_get d' k
  end.

(** [d[k] = v]: a key already present keeps its place, a new one goes
    last. *)
Fixpoint dict_set (d : dict) (k : K) (v : V) : dict :=
  match d with
  | [] => [(k, v)]
  | (k', v') :: d' =>
      if eqb k' k then (k', v) :: d' else (k', v') :: dict_set d' k v
  end.

(** [{k: v for k, v in pairs}] *)
Definition dict_of_pairs (pairs : list (K * V)) : dict :=
  fold_left (fun d kv => dict_set d (fst kv) (snd kv)) pairs [].

Definition keys (d : dict) : list K := map fst d.

End Dict.
End PyDict.
Import PyDict.

(* ================================================================== *)
(** ** Python sets of integers

    The handler iterates [set(labels)].  The language leaves the order of
    that iteration to the interpreter; this is CPython's [setobject.c] for a
    set that only grows: a table of slots whose size is a power of two, a
    key placed at the slot [hash & mask] when that slot is unused, the
    table rebuilt once three fifths of it are in use, and iteration in the
    order of the slots.  What CPython does when the slot is taken by another
    key (linear probes, then perturbation) differs between versions and is
    the parameter [probe]. *)
Module PySet.
Local Open Scope Z_scope.

Definition PyHASH_MODULUS : Z := 2 ^ 61 - 1.

(** [hash(x)] for an [int] and for the NumPy integer equal to it. *)
Definition py_hash (x : Z) : Z :=
  let h := Z.sgn x * (Z.abs x mod PyHASH_MODULUS) in
  if h =? -1 then -2 else h.

(** [fill] counts the slots in use; nothing is ever removed, so it is
    [used] as well. *)
Record set_object : Type := {
  table : list (option Z);
  mask : Z;
  fill : Z
}.

Definition PySet_MINSIZE : Z := 8.

Definition new_table (size : Z) : list (option Z) :=
  repeat None (Z.to_nat size).

Definition empty_set : set_object :=
  {| table := new_table PySet_MINSIZE; mask := PySet_MINSIZE - 1; fill := 0 |}.

(** [(size_t)hash & mask] *)
Definition home (key mask : Z) : nat := Z.to_nat (Z.land (py_hash key) mask).

Fixpoint put (i : nat) (key : Z) (t : list (option Z)) : list (option Z) :=
  match t, i with
  | [], _ => []
  | _ :: t', O => Some key :: t'
  | e :: t', S i' => e :: put i' key t'
  end.

Section Probing.
Variable probe : list (option Z) -> Z -> Z -> nat.

(** The slot where the search for [key] ends: the slot that holds it, or
    the unused slot it is to take. *)
Definition slot_for (t : list (option Z)) (mask key : Z) : nat :=
  let i := home key mask in
  match nth i t None with
  | None => i
  | Some k => if k =? key then i else probe t mask key
  end.

(** [set_insert_clean]: the table holds no key equal to [key], so keys are
    not compared and the first unused slot of the search takes it. *)
Definition set_insert_clean (t : list (option Z)) (mask key : Z)
  : list (option Z) :=
  let i := home key mask in
  put (match nth i t None with
       | None => i
       | Some _ => probe t mask key
       end) key t.

(** [while (newsize <= minused) newsize <<= 1;] *)
Fixpoint grow (fuel : nat) (newsize minused : Z) : Z :=
  match fuel with
  | O => newsize
  | S fuel' =>
      if newsize <=? minused then grow fuel' (2 * newsize) minused
      else newsize
  end.

(** [set_table_resize]: the keys are put into the new table in the order
    of the old slots. *)
Definition set_table_resize (so : set_object) (minused : Z) : set_object :=
  let newsize := grow (Z.to_nat minused) PySet_MINSIZE minused in
  let newmask := newsize - 1 in
  {| table :=
       fold_left
         (fun t e =>
            match e with
            | Some k => set_insert_clean t newmask k
            | None => t
            end)
         (table so) (new_table newsize);
     mask := newmask;
     fill := fill so |}.

(** [set_add_entry] *)
Definition set_add_entry (so : set_object) (key : Z) : set_object :=
  let i := slot_for (table so) (mask so) key in
  match nth i (table so) None with
  | Some _ => so
  | None =>
      let so1 :=
        {| table := put i key (table so); mask := mask so;
           fill := fill so + 1 |} in
      if fill so1 * 5 <? mask so1 * 3 then so1
      else
        set_table_resize so1
          (if 50000 <? fill so1 then fill so1 * 2 else fill so1 * 4)
  end.

(** [set(items)] *)
Definition set_of (items : list Z) : set_object :=
  fold_left set_add_entry items empty_set.

(** [for key in so] *)
Definition iterate (so : set_object) : list Z :=
  flat_map (fun e => match e with Some k => [k] | None => [] end) (table so).

Definition set_iteration (items : list Z) : list Z := iterate (set_of items).

End Probing.
End PySet.

(* ================================================================== *)
(** ** The data frame column and the Response Set *)

(** A cell of the column to code.  Uploaded columns are of dtype object and
    may mix text with other values (lines 463-470 of the script convert them
    with [str]); integers stand for those here. *)
Inductive cell : Type :=
| NaN
| Str (s : string)
| Int (z : Z).

Definition cell_eqb (a b : cell) : bool :=
  match a, b with
  | NaN, NaN => true
  | Str s, Str t => String.eqb s t
  | Int x, Int y => Z.eqb x y
  | _, _ => false
  end.

Definition notna (c : cell) : bool :=
  match c with NaN => false | _ => true end.

(** [series.dropna()] *)
Definition dropna (column : list cell) : list cell := filter notna column.

(** [series.unique()]: the values in order of first appearance. *)
Fixpoint unique_from (seen column : list cell) : list cell :=
  match column with
  | [] => []
  | c :: rest =>
      if existsb (cell_eqb c) seen then unique_from seen rest
      else c :: unique_from (c :: seen) rest
  end.

Definition unique (column : list cell) : list cell := unique_from [] column.

(** [str(item)] *)
Definition py_str (c : cell) : string :=
  match c with
  | NaN => "nan"
  | Str s => s
  | Int z => NilZero.string_of_int (Z.to_int z)
  end.

(** Lines 464-470: [base_unique_responses], [string_responses] and
    [unique_responses]. *)
Definition unique_responses_of (column : list cell) : list string :=
  let base_unique_responses := unique (dropna column) in
  let string_responses := map py_str base_unique_responses in
  filter (fun text => truthy (strip text)) string_responses.

(* ================================================================== *)
(** ** Codebook and prompts *)

Record Code : Type := {
  code : string;
  description : string;
  examples : list string
}.

Record Codebook : Type := { codes : list Code }.

(** [reconstruct_codebook_text] *)
Definition reconstruct_codebook_text (codebook_obj : option Codebook) : string :=
  match codebook_obj with
  | None => ""
  | Some cb =>
      match codes cb with
      | [] => ""
      | _ =>
          strip (join nl
            (map (fun item =>
                    ("- Code: " ++ code item ++ nl ++
                     "  Description: " ++ description item)%string)
                 (codes cb)))
      end
  end.

(** [classify_response_prompt] *)
Definition classify_response_prompt (question response codebook_text : string)
  : string :=
  ("Classify the response based on the codebook. Choose the single best code label."
  ++ nl ++ "    **Question:** " ++ dquote ++ question ++ dquote
  ++ " **Codebook:**" ++ nl ++ "---" ++ nl ++ codebook_text ++ nl
  ++ "--- **Response:** " ++ dquote ++ response ++ dquote
  ++ nl ++ "    **Your output must be ONLY the code label.**")%string.

(** [classify_response_prompt_multi] *)
Definition classify_response_prompt_multi
  (question response codebook_text : string) : string :=
  ("Analyze the response and identify ALL themes from the codebook that are present."
  ++ nl ++ "    **Question:** " ++ dquote ++ question ++ dquote
  ++ " **Codebook:**" ++ nl ++ "---" ++ nl ++ codebook_text ++ nl
  ++ "--- **Response:** " ++ dquote ++ response ++ dquote
  ++ nl ++ "    **Instructions:** Return a list of all applicable code labels. If no codes apply, return an empty list.")%string.

(* ================================================================== *)
(** ** The outside world *)

(** One [client.messages.create] request ([max_tokens] and [temperature]
    are constants of the script). *)
Record Request : Type := {
  req_api_key : string;
  req_model : string;
  req_system : string;
  req_user : string
}.

(** What comes back: an exception anywhere in the call (client
    construction, network, provider, empty content), or the text
    [response.content[0].text]. *)
Inductive ApiReply : Type :=
| ApiRaises
| ApiText (text : string).

(** Everything the handler takes from outside the script, for vectors of
    type [Vec]. *)
Record World (Vec : Type) : Type := {
  (** Reply to the [n]-th request of the run (0-based).  The index lets the
      same prompt be answered differently at different times. *)
  llm : nat -> Request -> ApiReply;
  (** [json.loads] followed by [ClassificationResult.model_validate]: the
      validated [assigned_codes], or [None] when either raises. *)
  parse_assigned_codes : string -> option (list string);
  (** [ClassificationResult.model_json_schema()] as printed in the prompt. *)
  schema_text : string;
  (** The embedding provider called at line 489. *)
  embed : list string -> string -> list Vec;
  (** [DBSCAN(eps=0.3, min_samples=2, metric='cosine')
      .fit(normalize(np.array(embeddings))).labels_] *)
  dbscan_labels : list Vec -> list Z;
  (** The order in which Python iterates [set(labels)]. *)
  set_order : list Z -> list Z;
  (** [int(70 * (calls_made / total_api_calls))], in floating point. *)
  pct_calls : Z -> Z -> Z;
  (** [int(100 * (i + 1) / len(unique_responses))], in floating point,
      from [i + 1] and the length. *)
  pct_items : Z -> Z -> Z
}.

Arguments llm {Vec}.
Arguments parse_assigned_codes {Vec}.
Arguments schema_text {Vec}.
Arguments embed {Vec}.
Arguments dbscan_labels {Vec}.
Arguments set_order {Vec}.
Arguments pct_calls {Vec}.
Arguments pct_items {Vec}.

(* ================================================================== *)
(** ** The classifier *)

(** The widgets and session values the handler reads. *)
Record Config : Type := {
  api_key : string;
  question_text : string;
  classification_model : string;
  use_multilabel : bool;
  use_clustering : bool
}.

(** What a run leaves behind.  The three logs are kept newest first. *)
Record State : Type := {
  (** [results_cache] *)
  results_cache : dict string string;
  (** every statement [results_cache[k] = v] executed, as [(k, v)] *)
  cache_writes : list (string * string);
  (** every call of [call_claude_api]: its request, and what came back *)
  api_log : list (Request * ApiReply);
  (** every call [classify_item(response)], with the string it returned *)
  classified : list (string * string);
  (** every value passed to [progress_bar.progress] *)
  progress : list Z
}.

Definition initial_state : State :=
  {| results_cache := []; cache_writes := []; api_log := [];
     classified := []; progress := [0%Z] |}.

Definition report (value : Z) (st : State) : State :=
  {| results_cache := results_cache st; cache_writes := cache_writes st;
     api_log := api_log st; classified := classified st;
     progress := value :: progress st |}.

Definition cache_store (k v : string) (st : State) : State :=
  {| results_cache := dict_set String.eqb (results_cache st) k v;
     cache_writes := (k, v) :: cache_writes st;
     api_log := api_log st; classified := classified st;
     progress := progress st |}.

Definition log_call (rq : Request) (rp : ApiReply) (st : State) : State :=
  {| results_cache := results_cache st; cache_writes := cache_writes st;
     api_log := (rq, rp) :: api_log st; classified := classified st;
     progress := progress st |}.

Definition log_item (response result : string) (st : State) : State :=
  {| results_cache := results_cache st; cache_writes := cache_writes st;
     api_log := api_log st; classified := (response, result) :: classified st;
     progress := progress st |}.

Definition API_ERROR : string := "API_ERROR".
Definition NO_CODE_APPLIED : string := "No Code Applied".
Definition SEPARATOR : string := " | ".

Section Classifier.
Variable Vec : Type.
Variable w : World Vec.

(** The JSON block cut out of a structured reply (lines 107-112). *)
Definition extract_json (text : string) : string :=
  let json_content := strip text in
  if contains_char lbrace json_content then
    match find_char lbrace json_content with
    | Some start =>
        let stop :=
          match rfind_char rbrace json_content with
          | Some i => S i
          | None => 0
          end in
        slice start stop json_content
    | None => json_content
    end
  else json_content.

(** [call_claude_api(..., pydantic_model=None)] as the [n]-th request:
    the stripped text, or [None] after an exception. *)
Definition call_claude_api (n : nat) (key system_prompt user_prompt model : string)
  : Request * ApiReply * option string :=
  let rq := {| req_api_key := key; req_model := model;
               req_system := system_prompt; req_user := user_prompt |} in
  let rp := llm w n rq in
  (rq, rp,
   match rp with
   | ApiRaises => None
   | ApiText text => Some (strip text)
   end).

(** [call_claude_api(..., pydantic_model=ClassificationResult)] as the
    [n]-th request: the validated [assigned_codes], or [None] after an
    exception or a reply that does not parse. *)
Definition call_claude_api_model (n : nat)
  (key system_prompt user_prompt model : string)
  : Request * ApiReply * option (list string) :=
  let json_prompt :=
    (user_prompt ++ nl ++ nl
     ++ "Please respond with a valid JSON object that matches this schema: "
     ++ schema_text w)%string in
  let rq := {| req_api_key := key; req_model := model;
               req_system := system_prompt; req_user := json_prompt |} in
  let rp := llm w n rq in
  (rq, rp,
   match rp with
   | ApiRaises => None
   | ApiText text => parse_assigned_codes w (extract_json text)
   end).

(** The string [classify_item] makes of a structured result (lines
    480-482). *)
Definition serialize_codes (result : option (list string)) : string :=
  match result with
  | Some ((_ :: _) as assigned_codes) => join SEPARATOR assigned_codes
  | Some [] => NO_CODE_APPLIED
  | None => API_ERROR
  end.

(** [text or "API_ERROR"] (line 485). *)
Definition or_api_error (result : option string) : string :=
  match result with
  | Some text => if truthy text then text else API_ERROR
  | None => API_ERROR
  end.

Variable cfg : Config.
Variable final_codebook_text : string.

(** [classify_item(response)] when it sends the [n]-th request of the run:
    the request, its reply and the returned string. *)
Definition classify_item_at (n : nat) (response : string)
  : Request * ApiReply * string :=
  if use_multilabel cfg then
    let prompt :=
      classify_response_prompt_multi (question_text cfg) response
        final_codebook_text in
    let '(rq, rp, result) :=
      call_claude_api_model n (api_key cfg)
        "You are a multi-label survey coding assistant." prompt
        (classification_model cfg) in
    (rq, rp, serialize_codes result)
  else
    let prompt :=
      classify_response_prompt (question_text cfg) response
        final_codebook_text in
    let '(rq, rp, result) :=
      call_claude_api n (api_key cfg) "You are a survey coding assistant."
        prompt (classification_model cfg) in
    (rq, rp, or_api_error result).

(** [classify_item(response)] in state [st]. *)
Definition classify_item (st : State) (response : string) : string * State :=
  let '(rq, rp, result) := classify_item_at (length (api_log st)) response in
  (result, log_item response result (log_call rq rp st)).

End Classifier.

(* ================================================================== *)
(** ** The handler of the button Classify All Responses *)

(** How the handler ends. *)
Inductive Outcome : Type :=
| Finished (st : State)
| Stopped (message : string) (st : State)   (* [st.stop()] *)
| Raised (exn : string) (st : State).       (* an exception nobody catches *)

Definition is_outlier (label : Z) : bool := Z.eqb label (-1).

Section Handler.
Variable Vec : Type.
Variable w : World Vec.
Variable cfg : Config.
Variable final_codebook_text : string.

(** [next(response for response, label in response_to_cluster.items()
         if label == cluster_id)] *)
Definition representative (response_to_cluster : dict string Z)
  (cluster_id : Z) : option string :=
  option_map fst
    (find (fun item => Z.eqb (snd item) cluster_id) response_to_cluster).

(** Lines 497-502: the loop over [cluster_ids]. *)
Fixpoint classify_clusters (response_to_cluster : dict string Z)
  (total_api_calls : Z) (cluster_ids : list Z)
  (classified_clusters : dict Z string) (calls_made : Z) (st : State)
  : (dict Z string * Z * State) + State :=
  match cluster_ids with
  | [] => inl (classified_clusters, calls_made, st)
  | cluster_id :: rest =>
      if is_outlier cluster_id then
        classify_clusters response_to_cluster total_api_calls rest
          classified_clusters calls_made st
      else
        match representative response_to_cluster cluster_id with
        | None => inr st
        | Some rep =>
            let '(code_str, st1) :=
              classify_item w cfg final_codebook_text st rep in
            let classified_clusters1 :=
              dict_set Z.eqb classified_clusters cluster_id code_str in
            let calls_made1 := (calls_made + 1)%Z in
            let st2 :=
              report (15 + pct_calls w calls_made1 total_api_calls)%Z st1 in
            classify_clusters response_to_cluster total_api_calls rest
              classified_clusters1 calls_made1 st2
        end
  end.

(** Lines 503-505: the loop over [outliers]. *)
Fixpoint classify_outliers (total_api_calls : Z) (outliers : list string)
  (calls_made : Z) (st : State) : Z * State :=
  match outliers with
  | [] => (calls_made, st)
  | response :: rest =>
      let '(result, st1) :=
        classify_item w cfg final_codebook_text st response in
      let st2 := cache_store response result st1 in
      let calls_made1 := (calls_made + 1)%Z in
      let st3 :=
        report (15 + pct_calls w calls_made1 total_api_calls)%Z st2 in
      classify_outliers total_api_calls rest calls_made1 st3
  end.

(** Lines 506-507: every clustered response takes its cluster's string.
    [None] is the [KeyError] of [classified_clusters[label]]. *)
Fixpoint propagate (classified_clusters : dict Z string)
  (items : list (string * Z)) (st : State) : option State :=
  match items with
  | [] => Some st
  | (response, label) :: rest =>
      if is_outlier label then propagate classified_clusters rest st
      else
        match dict_get Z.eqb classified_clusters label with
        | None => None
        | Some code_str =>
            propagate classified_clusters rest
              (cache_store response code_str st)
        end
  end.

(** Lines 509-511: one call per response; [i1] is [i + 1]. *)
Fixpoint classify_each (len : Z) (i1 : Z) (responses : list string)
  (st : State) : State :=
  match responses with
  | [] => st
  | response :: rest =>
      let '(result, st1) :=
        classify_item w cfg final_codebook_text st response in
      let st2 := cache_store response result st1 in
      classify_each len (i1 + 1)%Z rest (report (pct_items w i1 len) st2)
  end.

(** [[response for response, label in zip(unique_responses, labels)
      if label == -1]] *)
Definition outliers_of (unique_responses : list string) (labels : list Z)
  : list string :=
  map fst (filter (fun item => is_outlier (snd item))
             (combine unique_responses labels)).

(** [len(cluster_ids) - (1 if -1 in labels else 0)] *)
Definition n_clusters_of (cluster_ids labels : list Z) : Z :=
  (Z.of_nat (length cluster_ids)
   - (if existsb is_outlier labels then 1 else 0))%Z.

(** Lines 489-507: the clustering branch. *)
Definition classify_clustered (unique_responses : list string) (st0 : State)
  : Outcome :=
  let st1 := report 5 st0 in
  let embeddings := embed w unique_responses (api_key cfg) in
  match embeddings with
  | [] => Stopped "Failed to generate embeddings." st1
  | _ =>
      let st2 := report 15 st1 in
      let labels := dbscan_labels w embeddings in
      let cluster_ids := set_order w labels in
      let n_clusters := n_clusters_of cluster_ids labels in
      let outliers := outliers_of unique_responses labels in
      let n_outliers := Z.of_nat (length outliers) in
      let total_api_calls := (n_clusters + n_outliers)%Z in
      if Z.eqb total_api_calls 0 then
        Stopped "No new responses to classify." st2
      else
        let response_to_cluster :=
          dict_of_pairs String.eqb (combine unique_responses labels) in
        match classify_clusters response_to_cluster total_api_calls
                cluster_ids [] 0%Z st2 with
        | inr st3 => Raised "StopIteration" st3
        | inl (classified_clusters, calls_made, st3) =>
            let '(_, st4) :=
              classify_outliers total_api_calls outliers calls_made st3 in
            match propagate classified_clusters response_to_cluster st4 with
            | None => Raised "KeyError" st4
            | Some st5 => Finished st5
            end
        end
  end.

(** Lines 487-511: fill [results_cache]. *)
Definition fill_cache (unique_responses : list string) (st0 : State)
  : Outcome :=
  if use_clustering cfg && (1 <? length unique_responses)%nat then
    classify_clustered unique_responses st0
  else
    Finished
      (classify_each (Z.of_nat (length unique_responses)) 1%Z
         unique_responses st0).

End Handler.

(** [final_df[column_to_code].map(results_cache)]: a cell is looked up as it
    is, so only a text cell can meet a key of the cache. *)
Definition map_cache (results_cache : dict string string) (c : cell)
  : option string :=
  match c with
  | Str s => dict_get String.eqb results_cache s
  | _ => None
  end.

(** The handler's result: the final state and the column Assigned Code of
    [st.session_state.classified_df]. *)
Inductive Run : Type :=
| Classified (st : State) (assigned_code : list (option string))
| NotClassified (o : Outcome)
| EmptyCodebook.

(** Lines 457-514. *)
Definition classify_all (Vec : Type) (w : World Vec) (cfg : Config)
  (structured_codebook : option Codebook) (column : list cell) : Run :=
  let final_codebook_text := reconstruct_codebook_text structured_codebook in
  if is_empty final_codebook_text then EmptyCodebook
  else
    match fill_cache w cfg final_codebook_text (unique_responses_of column)
            initial_state with
    | Finished st =>
        let st1 := report 95 st in
        let assigned_code := map (map_cache (results_cache st1)) column in
        Classified (report 100 st1) assigned_code
    | o => NotClassified o
    end.

(* ================================================================== *)
(** ** Results view and code frequencies *)

(** [series.fillna("")] on one value. *)
Definition fillna (v : option string) : string :=
  match v with Some s => s | None => "" end.

Definition is_some (A : Type) (v : option A) : bool :=
  match v with Some _ => true | None => false end.

(** The dtype of a column, as far as the script asks for it.  pandas, not
    the script, decides the dtype of the column that line 513 stores: a
    column of strings and NaN is of dtype object before pandas 3 and of the
    string dtype from pandas 3 on. *)
Inductive dtype : Type :=
| dtype_object
| dtype_string
| dtype_other.

(** [pd.api.types.is_object_dtype(series)], from the dtype of the series. *)
Definition is_object_dtype (series_dtype : dtype) : bool :=
  match series_dtype with
  | dtype_object => true
  | _ => false
  end.

(** Lines 520-528: the column Assigned Code after the separator
    normalisation of the results view, for a column of dtype
    [series_dtype]. *)
Definition normalize_separator (series_dtype : dtype)
  (series : list (option string)) : list (option string) :=
  if is_object_dtype series_dtype then
    let needs_conversion :=
      existsb (contains_char comma) (map fillna series) in
    if needs_conversion then
      map (fun v => Some (re_sub comma SEPARATOR (fillna v))) series
    else series
  else series.

(** [series.dropna()] on the assigned codes. *)
Fixpoint dropna_codes (series : list (option string)) : list string :=
  match series with
  | [] => []
  | Some s :: rest => s :: dropna_codes rest
  | None :: rest => dropna_codes rest
  end.

(** One more occurrence of [x] in a table of counts. *)
Fixpoint count_one (x : string) (table : list (string * nat))
  : list (string * nat) :=
  match table with
  | [] => [(x, 1)]
  | (y, n) :: rest =>
      if String.eqb y x then (y, S n) :: rest else (y, n) :: count_one x rest
  end.

(** Insertion into a table ordered by falling count. *)
Fixpoint insert_by_count (row : string * nat) (table : list (string * nat))
  : list (string * nat) :=
  match table with
  | [] => [row]
  | row' :: rest =>
      if (snd row' <=? snd row)%nat then row :: table
      else row' :: insert_by_count row rest
  end.

(** [series.value_counts()]: one row per distinct value, the most frequent
    first (values of equal count in order of first appearance; pandas
    promises no order among them). *)
Definition value_counts (values : list string) : list (string * nat) :=
  fold_right insert_by_count []
    (fold_left (fun table x => count_one x table) values []).

(** [series.str.split(r'\s*\|\s*').explode()] *)
Definition split_explode (values : list string) : list string :=
  flat_map (re_split pipe) values.

(** Lines 546-553: the columns Code and Frequency of [freq_counts]. *)
Definition code_frequencies (multilabel : bool)
  (assigned_code : list (option string)) : list (string * nat) :=
  let freq_df := dropna_codes assigned_code in
  let freq_df := if multilabel then split_explode freq_df else freq_df in
  value_counts freq_df.

(** [freq_counts['Frequency'].sum()] *)
Definition frequency_sum (freq_counts : list (string * nat)) : nat :=
  fold_right (fun row acc => snd row + acc) 0 freq_counts.

(* ================================================================== *)
(** ** The embedding provider *)

(** NumPy's legacy generator, which [np.random.seed] and [np.random.rand]
    drive: the Mersenne Twister MT19937 on 32-bit words. *)
Module MT19937.
Local Open Scope Z_scope.

Definition RK_STATE_LEN : nat := 624.
Definition M : nat := 397.
Definition MATRIX_A : Z := 0x9908b0df.
Definition UPPER_MASK : Z := 0x80000000.
Definition LOWER_MASK : Z := 0x7fffffff.

Definition u32 (x : Z) : Z := Z.land x 0xffffffff.

Record mt_state : Type := { key : list Z; pos : nat }.

(** [mt19937_seed]: Knuth's recurrence fills the 624 words. *)
Fixpoint seed_keys (count : nat) (p : nat) (seed : Z) : list Z :=
  match count with
  | O => []
  | S count' =>
      seed ::
      seed_keys count' (S p)
        (u32 (1812433253 * Z.lxor seed (Z.shiftr seed 30) + Z.of_nat p + 1))
  end.

Definition mt19937_seed (seed : Z) : mt_state :=
  {| key := seed_keys RK_STATE_LEN 0 (u32 seed); pos := RK_STATE_LEN |}.

Fixpoint update (i : nat) (v : Z) (l : list Z) : list Z :=
  match l, i with
  | [], _ => []
  | _ :: l', O => v :: l'
  | x :: l', S i' => x :: update i' v l'
  end.

(** One step of [mt19937_gen]: word [i] from words [i], [i + 1] and
    [i + M], indices taken modulo 624 (the three loops of the C code). *)
Definition twist_at (k : list Z) (i : nat) : list Z :=
  let y :=
    Z.lor (Z.land (nth i k 0) UPPER_MASK)
          (Z.land (nth ((i + 1) mod RK_STATE_LEN) k 0) LOWER_MASK) in
  let v :=
    Z.lxor (Z.lxor (nth ((i + M) mod RK_STATE_LEN) k 0) (Z.shiftr y 1))
           (if Z.odd y then MATRIX_A else 0) in
  update i v k.

Definition mt19937_gen (k : list Z) : list Z :=
  fold_left twist_at (seq 0 RK_STATE_LEN) k.

Definition temper (y : Z) : Z :=
  let y := Z.lxor y (Z.shiftr y 11) in
  let y := Z.lxor y (Z.land (u32 (Z.shiftl y 7)) 0x9d2c5680) in
  let y := Z.lxor y (Z.land (u32 (Z.shiftl y 15)) 0xefc60000) in
  Z.lxor y (Z.shiftr y 18).

(** [mt19937_next]: the next 32-bit word. *)
Definition mt19937_next (st : mt_state) : Z * mt_state :=
  let st :=
    if (pos st =? RK_STATE_LEN)%nat
    then {| key := mt19937_gen (key st); pos := 0 |}
    else st in
  (temper (nth (pos st) (key st) 0),
   {| key := key st; pos := S (pos st) |}).

(** [mt19937_next_double]: a double in [0, 1) with 53 random bits; the
    quotient is exact in binary64. *)
Definition mt19937_next_double (st : mt_state) : Q * mt_state :=
  let '(x, st1) := mt19937_next st in
  let '(y, st2) := mt19937_next st1 in
  let a := Z.shiftr x 5 in
  let b := Z.shiftr y 6 in
  (Qmake (a * 67108864 + b) 9007199254740992, st2).

(** [np.random.rand(n).tolist()] *)
Fixpoint rand (n : nat) (st : mt_state) : list Q * mt_state :=
  match n with
  | O => ([], st)
  | S n' =>
      let '(x, st1) := mt19937_next_double st in
      let '(xs, st2) := rand n' st1 in
      (x :: xs, st2)
  end.

End MT19937.

(** The list comprehension of [get_embeddings]: one call of
    [np.random.rand(384)] per text, whatever the text. *)
Fixpoint embeddings_from (st : MT19937.mt_state) (texts : list string)
  : list (list Q) :=
  match texts with
  | [] => []
  | _ :: rest =>
      let '(v, st1) := MT19937.rand 384 st in
      v :: embeddings_from st1 rest
  end.

(** [get_embeddings]: the generator is seeded with 42 at each call. *)
Definition get_embeddings (texts : list string) (api_key model : string)
  : list (list Q) :=
  embeddings_from (MT19937.mt19937_seed 42) texts.

(** The provider as the handler calls it (the model is left to its
    default). *)
Definition app_embed (texts : list string) (api_key : string) : list (list Q) :=
  get_embeddings texts api_key "text-embedding-3-small".


(* ================================================================== *)
(** ** Vocabulary of the statements *)

(** [w] consists of whitespace only. *)
Definition all_space (w : string) : Prop :=
  forallb py_isspace (list_ascii_of_string w) = true.

(** A label that the separator can carry: no pipe inside, no whitespace at
    either end. *)
Definition clean_label (c : string) : Prop :=
  contains_char pipe c = false /\ lstrip c = c /\ rstrip c = c.

(** *** Counts made on the column itself

    What the frequency table is measured against: counts read off the rows
    of the column, without the steps the table is computed by. *)

(** The rows of the column Assigned Code that hold a code. *)
Fixpoint rows_with_code (assigned_code : list (option string)) : nat :=
  match assigned_code with
  | [] => 0
  | Some _ :: rest => S (rows_with_code rest)
  | None :: rest => rows_with_code rest
  end.

(** The labels of one row: none where the code is missing, otherwise one
    more than the row has pipes, each pipe standing between two labels. *)
Definition labels_in_row (v : option string) : nat :=
  match v with
  | None => 0
  | Some s => S (count_occ ascii_dec (list_ascii_of_string s) pipe)
  end.

(** The column of a multi-label run whose rows carry the given labels
    ([None]: a row without code). *)
Definition joined_column (rows : list (option (list string)))
  : list (option string) :=
  map (option_map (join SEPARATOR)) rows.

(** The labels of all rows together. *)
Definition total_labels (rows : list (option (list string))) : nat :=
  list_sum
    (map (fun row => match row with
                     | Some labels => length labels
                     | None => 0
                     end) rows).

(** State of [scan] after a stretch without delimiter, read from a state
    that is not skipping. *)
Fixpoint absorb (cur pend a : list ascii) : list ascii * list ascii :=
  match a with
  | [] => (cur, pend)
  | c :: a' =>
      if py_isspace c then absorb cur (c :: pend) a'
      else absorb (c :: pend ++ cur) [] a'
  end.

(** The parts of what [classify_item_at] returns. *)
Definition reply_of (call : Request * ApiReply * string) : ApiReply :=
  snd (fst call).

Definition result_of (call : Request * ApiReply * string) : string :=
  snd call.

(** What [call_claude_api] makes of a reply when a pydantic model is
    asked for. *)
Definition model_result (Vec : Type) (w : World Vec) (rp : ApiReply)
  : option (list string) :=
  match rp with
  | ApiRaises => None
  | ApiText text => parse_assigned_codes w (extract_json text)
  end.

(** *** Sample worlds

    A world whose LLM and validator are given, whose embedding provider is
    the script's own, whose clusterer answers [labels] and whose sets are
    iterated as [ids]; percentages are computed exactly. *)
Definition sample_world (reply : nat -> Request -> ApiReply)
  (parse : string -> option (list string)) (labels ids : list Z)
  : World (list Q) :=
  {| llm := reply;
     parse_assigned_codes := parse;
     schema_text := "{}";
     embed := app_embed;
     dbscan_labels := fun _ => labels;
     set_order := fun _ => ids;
     pct_calls := fun calls total => (70 * calls / total)%Z;
     pct_items := fun i1 len => (100 * i1 / len)%Z |}.

Definition sample_config (multilabel clustering : bool) : Config :=
  {| api_key := "key"; question_text := "Why did you choose us?";
     classification_model := "claude-3-5-haiku-20241022";
     use_multilabel := multilabel; use_clustering := clustering |}.

Definition sample_codebook : option Codebook :=
  Some {| codes :=
    [ {| code := "Price"; description := "Mentions cost."; examples := [] |};
      {| code := "Delivery"; description := "Mentions shipping.";
         examples := [] |} ] |}.

(** An LLM that answers every request with the same text. *)
Definition always (text : string) : nat -> Request -> ApiReply :=
  fun _ _ => ApiText text.

(** A validator that accepts every reply as the same list. *)
Definition parsed_as (codes : list string) : string -> option (list string) :=
  fun _ => Some codes.

(** *** Runs *)

(** [store_all cache pairs]: the statements [cache[k] = v] for the pairs
    in turn. *)
Definition store_all (K V : Type) (eqb : K -> K -> bool) (d : dict K V)
  (pairs : list (K * V)) : dict K V :=
  fold_left (fun d kv => dict_set eqb d (fst kv) (snd kv)) pairs d.

(** [f from; f (from + 1); ...], [n] values. *)
Fixpoint ramp (f : Z -> Z) (from : Z) (n : nat) : list Z :=
  match n with
  | O => []
  | S n' => f from :: ramp f (from + 1)%Z n'
  end.

(** [st] after more work; every list is in the order of time. *)
Definition after (st : State) (cache : dict string string)
  (writes : list (string * string))
  (calls : list (Request * ApiReply * string))
  (items : list (string * string)) (reports : list Z) : State :=
  {| results_cache := cache;
     cache_writes := rev writes ++ cache_writes st;
     api_log := rev (map fst calls) ++ api_log st;
     classified := rev items ++ classified st;
     progress := rev reports ++ progress st |}.

(** The cluster ids among the ids of a set: all but the outlier mark. *)
Definition cluster_ids_of (ids : list Z) : list Z :=
  filter (fun c => negb (is_outlier c)) ids.

(** [ids] lists the elements of [set(labels)], each once. *)
Definition enumerates (ids labels : list Z) : Prop :=
  NoDup ids /\ forall c, In c ids <-> In c labels.

(** The first member, in the order of the Response Set, whose label is
    [c]: it stands at some index [i], and no earlier label is [c]. *)
Definition first_member (unique_responses : list string) (labels : list Z)
  (c : Z) (r : string) : Prop :=
  exists i,
    nth_error unique_responses i = Some r /\
    nth_error labels i = Some c /\
    forall j, j < i -> nth_error labels j <> Some c.

(** What binary64 arithmetic gives [int(70 * (calls_made / total))]:
    rounding is monotone, and [total / total] is exactly one. *)
Record float_pct (pct : Z -> Z -> Z) : Prop := {
  pct_mono : forall t c c', (1 <= c <= c')%Z -> (c' <= t)%Z ->
             (pct c t <= pct c' t)%Z;
  pct_low : forall t c, (1 <= c <= t)%Z -> (0 <= pct c t)%Z;
  pct_full : forall t, (1 <= t)%Z -> pct t t = 70%Z
}.

Section RunVocabulary.
Variable Vec : Type.
Variable w : World Vec.
Variable cfg : Config.
Variable txt : string.

(** The calls [classify_item] makes for [responses] one after another, the
    first of them sending the [base]-th request of the run. *)
Fixpoint calls_from (base : nat) (responses : list string)
  : list (Request * ApiReply * string) :=
  match responses with
  | [] => []
  | r :: rest => classify_item_at w cfg txt base r :: calls_from (S base) rest
  end.

(** The responses with the strings those calls return. *)
Definition items_from (base : nat) (responses : list string)
  : list (string * string) :=
  combine responses (map result_of (calls_from base responses)).

(** What the provider, the clusterer and Python's set hand to a clustered
    run over [rs]: one vector per response, one label per vector, and the
    distinct labels each once. *)
Definition external_contract (rs : list string) : Prop :=
  let embeddings := embed w rs (api_key cfg) in
  let labels := dbscan_labels w embeddings in
  length embeddings = length rs /\
  length labels = length rs /\
  enumerates (set_order w labels) labels.

(** The labels of a clustered run over [rs]. *)
Definition labels_of (rs : list string) : list Z :=
  dbscan_labels w (embed w rs (api_key cfg)).

End RunVocabulary.

(** The reply reports a failed classification: an exception, or in
    multi-label mode a text that does not validate. *)
Definition failed_reply (Vec : Type) (w : World Vec) (cfg : Config)
  (rp : ApiReply) : Prop :=
  rp = ApiRaises \/
  (use_multilabel cfg = true /\ model_result w rp = None).

(** The writes of the propagation loop (lines 506-507). *)
Definition member_pairs (classified_clusters : dict Z string)
  (items : list (string * Z)) : list (string * string) :=
  flat_map
    (fun item =>
       if is_outlier (snd item) then []
       else match dict_get Z.eqb classified_clusters (snd item) with
            | Some code_str => [(fst item, code_str)]
            | None => []
            end)
    items.

(** The representative of cluster [c], or the empty string when there is
    none. *)
Definition rep_or_empty (response_to_cluster : dict string Z) (c : Z)
  : string :=
  match representative response_to_cluster c with
  | Some r => r
  | None => ""
  end.

(** The representatives of the clusters, in the order in which the set of
    ids is iterated. *)
Definition representatives (rs : list string) (labels ids : list Z)
  : list string :=
  map (rep_or_empty (combine rs labels)) (cluster_ids_of ids).

(** The responses a clustered run classifies, in the order of the calls. *)
Definition call_order (rs : list string) (labels ids : list Z)
  : list string :=
  representatives rs labels ids ++ outliers_of rs labels.

Section ClusteredVocabulary.
Variable Vec : Type.
Variable w : World Vec.
Variable cfg : Config.
Variable txt : string.
Variable rs : list string.

(** [classified_clusters] after the loop over the cluster ids. *)
Definition cluster_codes : dict Z string :=
  let labels := labels_of w cfg rs in
  let ids := set_order w labels in
  combine (cluster_ids_of ids)
    (map result_of (calls_from w cfg txt 0 (representatives rs labels ids))).

(** [results_cache] after a clustered run: the outliers with their own
    strings, then the clustered responses with their cluster's string. *)
Definition clustered_cache : dict string string :=
  let labels := labels_of w cfg rs in
  let ids := set_order w labels in
  items_from w cfg txt (length (representatives rs labels ids))
    (outliers_of rs labels)
  ++ member_pairs cluster_codes (combine rs labels).

(** The state a clustered run ends in. *)
Definition clustered_state : State :=
  let labels := labels_of w cfg rs in
  let ids := set_order w labels in
  let order := call_order rs labels ids in
  let total := Z.of_nat (length order) in
  {| results_cache := clustered_cache;
     cache_writes := rev clustered_cache;
     api_log := rev (map fst (calls_from w cfg txt 0 order));
     classified := rev (items_from w cfg txt 0 order);
     progress :=
       rev ([0; 5; 15]%Z
            ++ ramp (fun c => (15 + pct_calls w c total)%Z) 1%Z
                 (length order)) |}.

(** The state a run without clustering ends in. *)
Definition plain_state : State :=
  {| results_cache := items_from w cfg txt 0 rs;
     cache_writes := rev (items_from w cfg txt 0 rs);
     api_log := rev (map fst (calls_from w cfg txt 0 rs));
     classified := rev (items_from w cfg txt 0 rs);
     progress :=
       rev (0%Z :: ramp (fun i => pct_items w i (Z.of_nat (length rs))) 1%Z
                     (length rs)) |}.

End ClusteredVocabulary.

(** *** Distances between embeddings *)

(** The dot product, exactly. *)
Definition qdot (u v : list Q) : Q :=
  fold_right (fun p acc => Qred (fst p * snd p + acc)%Q) 0%Q (combine u v).

(** [1 - cos(u, v) < eps] for [eps < 1], exactly: what DBSCAN with the
    cosine metric asks of two neighbours. *)
Definition cosine_closer (eps : Q) (u v : list Q) : bool :=
  let d := qdot u v in
  let c := (1 - eps)%Q in
  negb (Qle_bool d 0)
  && negb (Qle_bool (d * d) (c * c * (qdot u u * qdot v v))).

(** *** Checks that compute *)

Fixpoint nodupb (A : Type) (eqb : A -> A -> bool) (l : list A) : bool :=
  match l with
  | [] => true
  | a :: l' => negb (existsb (eqb a) l') && nodupb eqb l'
  end.

Definition enumeratesb (ids labels : list Z) : bool :=
  nodupb Z.eqb ids
  && forallb (fun c => existsb (Z.eqb c) labels) ids
  && forallb (fun c => existsb (Z.eqb c) ids) labels.

(** *** A sample run

    Scenario A of the specification with one more row for each of a
    missing, an empty and a repeated value; the first two responses form
    cluster 0 and the third is an outlier.  The LLM answers the first
    request, fails on the second and answers every later one. *)
Definition sample_column : list cell :=
  [Str "Great price"; Str "great price"; NaN; Str "Too slow"; Str "";
   Str "Great price"].

Definition sample_llm : nat -> Request -> ApiReply :=
  fun n _ =>
    match n with
    | 0 => ApiText " Price "
    | 1 => ApiRaises
    | _ => ApiText "Delivery"
    end.

Definition sample_run_world : World (list Q) :=
  sample_world sample_llm (parsed_as ["Price"]) [0; 0; -1]%Z [0; -1]%Z.

(** An LLM that changes its mind: it answers the first request of a run
    with one code and every later one with another, whatever they ask. *)
Definition changing_llm : nat -> Request -> ApiReply :=
  fun n _ =>
    match n with
    | 0 => ApiText "Price"
    | _ => ApiText "Other"
    end.

(** A column that holds the number 5 in one row and the text ["5"] in
    another. *)
Definition mixed_column : list cell := [Int 5; Str "5"; Str "good"].

(** A world whose embedding provider is down. *)
Definition no_vectors_world : World (list Q) :=
  {| llm := sample_llm;
     parse_assigned_codes := parsed_as ["Price"];
     schema_text := "{}";
     embed := fun _ _ => [];
     dbscan_labels := fun _ => [];
     set_order := fun _ => [];
     pct_calls := fun calls total => (70 * calls / total)%Z;
     pct_items := fun i1 len => (100 * i1 / len)%Z |}.

(** *** The set of cluster ids in CPython *)

(** DBSCAN numbers its clusters from 0 in the order in which it meets them
    (with neighbourhoods of two every member of a cluster is a core sample,
    so a cluster is met at its first member): [numbered m labels] when,
    [m] clusters being known, every label in turn is the outlier mark, a
    known cluster or the next new one. *)
Fixpoint numbered (m : nat) (labels : list Z) : bool :=
  match labels with
  | [] => true
  | l :: rest =>
      if is_outlier l then numbered m rest
      else if (0 <=? l)%Z && (l <? Z.of_nat m)%Z then numbered m rest
      else if (l =? Z.of_nat m)%Z then numbered (S m) rest
      else false
  end.

(** The table of a set that holds the ids [0 .. m-1], and the outlier mark
    when [neg]: each id at the slot of its number, the mark at the last
    slot but one. *)
Definition canon_entry (size m : nat) (neg : bool) (i : nat) : option Z :=
  if (i <? m)%nat then Some (Z.of_nat i)
  else if neg && (S (S i) =? size)%nat then Some (-1)%Z
  else None.

Definition canon (size m : nat) (neg : bool) : list (option Z) :=
  map (canon_entry size m neg) (seq 0 size).

(** The keys of that table in the order of its slots. *)
Definition canon_keys (m : nat) (neg : bool) : list Z :=
  map Z.of_nat (seq 0 m) ++ (if neg then [(-1)%Z] else []).

Definition canonical (so : PySet.set_object) (m : nat) (neg : bool) : Prop :=
  exists (n : Z) (size : nat),
    (3 <= n)%Z /\ Z.of_nat size = (2 ^ n)%Z /\
    PySet.mask so = (2 ^ n - 1)%Z /\
    PySet.table so = canon size m neg /\
    PySet.fill so = (Z.of_nat m + (if neg then 1 else 0))%Z /\
    (PySet.fill so * 5 < PySet.mask so * 3)%Z.

(* ================================================================== *)
(** * The rest of the script

    The session state, the choice of the column, the codebook files, the
    codebook editor, the merging and refining of codebooks, and the frame
    and view of the results. *)

(** ** Helpers of the codebook merge *)

(** [_extract_json_block] (lines 228-236); [find] and [rfind] answer -1
    where [None] stands here. *)
Definition _extract_json_block (text : string) : string :=
  match find_char lbrace text, rfind_char rbrace text with
  | Some start, Some stop =>
      if (start <? stop)%nat then slice start (S stop) text else text
  | _, _ => text
  end.

(** [text] with the braces put around it. *)
Definition braced (text : string) : string :=
  String lbrace (text ++ String rbrace "").

(* ================================================================== *)
(** ** Further vocabulary *)

(** What the codebook text shows of a code before its description. *)
Definition code_header (item : Code) : string :=
  ("- Code: " ++ code item ++ nl ++ "  Description:")%string.

(** The configuration with the clustering box set to [b]. *)
Definition with_clustering (b : bool) (cfg : Config) : Config :=
  {| api_key := api_key cfg; question_text := question_text cfg;
     classification_model := classification_model cfg;
     use_multilabel := use_multilabel cfg; use_clustering := b |}.

(* ================================================================== *)
(** ** The choice of the column to code (lines 300-313) *)

(** [series.nunique()] of a series of strings. *)
Definition nunique (series : list string) : nat :=
  length (nodup string_dec series).

(** Lines 304-305: how many distinct values the column has once the missing
    ones are dropped, the others converted to text and trimmed, and the
    empty ones left out. *)
Definition unique_count (column : list cell) : nat :=
  let series := map (fun c => strip (py_str c)) (dropna column) in
  nunique (filter (fun s => negb (String.eqb s "")) series).

Section ColumnChoice.

(** [is_object_dtype(df[col]) or is_string_dtype(df[col])], which pandas
    decides. *)
Variable is_text_dtype : list cell -> bool.

(** [valid_columns]: the names of the columns the selector offers, for a
    frame given as its named columns in order. *)
Definition valid_columns (df : list (string * list cell)) : list string :=
  map fst
    (filter
       (fun col =>
          is_text_dtype (snd col) && (50 <? unique_count (snd col))%nat)
       df).

End ColumnChoice.

(** The text of a number. *)
Definition nat_text (n : nat) : string :=
  NilZero.string_of_uint (Nat.to_uint n).

(** A frame of sixty rows: a column of numbers and a column of answers that
    all differ. *)
Definition sample_frame : list (string * list cell) :=
  [ ("id", map (fun n => Int (Z.of_nat n)) (seq 0 60));
    ("Why did you choose us?",
     map (fun n => Str ("Reason " ++ nat_text n)) (seq 0 60)) ].

(** A column is of text when its first value is. *)
Definition starts_with_text (column : list cell) : bool :=
  match column with Str _ :: _ => true | _ => false end.

(* ================================================================== *)
(** ** The session state (lines 28-35) *)

(** What the script keeps in [st.session_state]. *)
Inductive session_value : Type :=
| SNone
| SText (s : string)
| SNumber (n : Z)
| SFrame (df : list (string * list cell))
| SCodebook (cb : Codebook).

(** The dictionary literal of [initialize_state]. *)
Definition session_defaults : list (string * session_value) :=
  [ ("api_key", SNone); ("df", SNone); ("structured_codebook", SNone);
    ("classified_df", SNone); ("question_text", SText "");
    ("initial_sample_size", SNumber 0) ].

(** [key in d] *)
Definition dict_has (K V : Type) (eqb : K -> K -> bool) (d : dict K V)
  (k : K) : bool :=
  existsb (eqb k) (keys d).

(** [initialize_state]: a key that is absent takes its default. *)
Definition initialize_state (session_state : dict string session_value)
  : dict string session_value :=
  fold_left
    (fun ss kv =>
       if dict_has String.eqb ss (fst kv) then ss
       else dict_set String.eqb ss (fst kv) (snd kv))
    session_defaults session_state.

(** ** Vocabulary of the frequency table *)

(** The row of code [x] in a table of counts: its frequency, or nothing. *)
Definition frequency_of (table : list (string * nat)) (x : string)
  : option nat :=
  dict_get String.eqb table x.

(** How many of the assigned codes are missing. *)
Definition missing (series : list (option string)) : nat :=
  length (filter (fun v => negb (is_some v)) series).

(** The labels under which a structured result is counted: its own, or the
    sentinel that stands for it. *)
Definition labels_shown (result : option (list string)) : list string :=
  match result with
  | Some ((_ :: _) as assigned_codes) => assigned_codes
  | Some [] => [NO_CODE_APPLIED]
  | None => [API_ERROR]
  end.

(** The labels a result carries. *)
Definition labels_in (result : option (list string)) : list string :=
  match result with Some assigned_codes => assigned_codes | None => [] end.

(** What one row of a multi-label run brings to the column Assigned Code:
    nothing for a row without code (its response is missing or blank),
    otherwise the structured result of its response. *)
Definition row_code (row : option (option (list string))) : option string :=
  option_map serialize_codes row.

(** The labels under which that row is counted. *)
Definition row_labels (row : option (option (list string))) : list string :=
  match row with
  | Some result => labels_shown result
  | None => []
  end.
(* ================================================================== *)
(** ** The codebook editor (lines 352-382) *)

(** [l.index(x)]; [None] where Python raises [ValueError]. *)
Fixpoint list_index (x : string) (l : list string) : option nat :=
  match l with
  | [] => None
  | y :: l' =>
      if String.eqb y x then Some 0 else option_map S (list_index x l')
  end.

(** Line 355: [code_labels.index(selected_code_label) if selected_code_label
    in code_labels else -1], with [None] for -1. *)
Definition selected_index (code_labels : list string)
  (selected_code_label : string) : option nat :=
  if existsb (String.eqb selected_code_label) code_labels
  then list_index selected_code_label code_labels
  else None.

(** [l.pop(i)] for an index within the list: the list that is left. *)
Fixpoint pop (A : Type) (i : nat) (l : list A) : list A :=
  match l, i with
  | [], _ => []
  | _ :: l', O => l'
  | a :: l', S i' => a :: pop i' l'
  end.

(** [l[i] = f(l[i])] *)
Fixpoint update_at (A : Type) (i : nat) (f : A -> A) (l : list A) : list A :=
  match l, i with
  | [], _ => []
  | a :: l', O => f a :: l'
  | a :: l', S i' => a :: update_at i' f l'
  end.

(** The code the editor works on when the selectbox stands at position
    [chosen] of its options, the labels: the selectbox hands back the
    label, and the script looks the label up again. *)
Definition editor_index (codes : list Code) (chosen : nat) : option nat :=
  let code_labels := map code codes in
  match nth_error code_labels chosen with
  | Some selected_code_label => selected_index code_labels selected_code_label
  | None => None
  end.

(** The button Delete This Code (lines 365-366). *)
Definition delete_code (codes : list Code) (chosen : nat) : list Code :=
  match editor_index codes chosen with
  | Some selected_index => pop selected_index codes
  | None => codes
  end.

(** The line boundaries of [str.splitlines] below code point 256. *)
Definition is_linebreak (c : ascii) : bool :=
  let n := nat_of_ascii c in
  ((10 <=? n)%nat && (n <=? 13)%nat) || ((28 <=? n)%nat && (n <=? 30)%nat)
  || (n =? 133)%nat.

Definition CR : ascii := ascii_of_nat 13.
Definition LF : ascii := ascii_of_nat 10.

(** [s.splitlines()], read in one pass: [cur] is the line being read, newest
    character first, and [after_cr] says that the character just read was a
    carriage return, whose boundary takes in a line feed that follows.  A
    last line is given only when it has a character. *)
Fixpoint splitlines_from (after_cr : bool) (cur s : list ascii)
  : list string :=
  match s with
  | [] =>
      match cur with
      | [] => []
      | _ => [string_of_list_ascii (rev cur)]
      end
  | c :: s' =>
      if after_cr && Ascii.eqb c LF then splitlines_from false cur s'
      else if is_linebreak c then
        string_of_list_ascii (rev cur)
        :: splitlines_from (Ascii.eqb c CR) [] s'
      else splitlines_from false (c :: cur) s'
  end.

Definition splitlines (s : string) : list string :=
  splitlines_from false [] (list_ascii_of_string s).

(** Line 369: the text shown in the examples box. *)
Definition examples_text (current_examples : list string) : string :=
  match current_examples with
  | [] => ""
  | _ => join nl current_examples
  end.

(** Line 378: [new_list]. *)
Definition new_list (edited_examples_text : string) : list string :=
  map strip
    (filter (fun line => truthy (strip line))
       (splitlines edited_examples_text)).

(** The button Save Codebook (lines 376-379). *)
Definition save_codebook (codes : list Code) (chosen : nat)
  (edited_examples_text : string) : list Code :=
  match editor_index codes chosen with
  | Some selected_index =>
      update_at selected_index
        (fun current_item =>
           {| code := code current_item;
              description := description current_item;
              examples := new_list edited_examples_text |})
        codes
  | None => codes
  end.

(** The form Add a New Code (lines 384-390): [None] is the warning. *)
Definition add_code (codes : list Code) (new_code_label new_code_desc : string)
  : option (list Code) :=
  if truthy new_code_label then
    Some (codes ++ [{| code := new_code_label; description := new_code_desc;
                       examples := [] |}])
  else None.

(** An example as the editor keeps it: one line, trimmed, not empty. *)
Definition tidy_example (x : string) : Prop :=
  x <> "" /\ strip x = x /\
  forall c, In c (list_ascii_of_string x) -> is_linebreak c = false.

(* ================================================================== *)
(** ** Codebook files (lines 131-209) *)

(** [c.lower()] below code point 256: the letters A-Z and the capital
    letters of Latin-1. *)
Definition lower_char (c : ascii) : ascii :=
  let n := nat_of_ascii c in
  if ((65 <=? n)%nat && (n <=? 90)%nat)
     || ((192 <=? n)%nat && (n <=? 222)%nat && negb (n =? 215)%nat)
  then ascii_of_nat (n + 32) else c.

Fixpoint lower (s : string) : string :=
  match s with
  | EmptyString => EmptyString
  | String c s' => String (lower_char c) (lower s')
  end.

(** [s.endswith(suffix)] *)
Definition endswith (s suffix : string) : bool :=
  (String.length suffix <=? String.length s)%nat
  && String.eqb
       (substring (String.length s - String.length suffix)
          (String.length suffix) s)
       suffix.

(** [s.split(sep)] for a one-character separator. *)
Fixpoint split_from (sep : ascii) (cur : list ascii) (s : list ascii)
  : list string :=
  match s with
  | [] => [string_of_list_ascii (rev cur)]
  | c :: s' =>
      if Ascii.eqb c sep
      then string_of_list_ascii (rev cur) :: split_from sep [] s'
      else split_from sep (c :: cur) s'
  end.

Definition split_char (sep : ascii) (s : string) : list string :=
  split_from sep [] (list_ascii_of_string s).

(** [a or b] for two values that are a string or [None]. *)
Definition py_or (a b : option string) : option string :=
  match a with
  | Some s => if truthy s then a else b
  | None => b
  end.

(** A frame as pandas holds it: the labels of the columns, which
    [read_csv] makes differ from each other, and the rows, each row with
    one cell per column. *)
Record Frame : Type := {
  columns : list string;
  rows : list (list cell)
}.

(** [df.empty]: no row, or no column. *)
Definition frame_empty (df : Frame) : bool :=
  match columns df, rows df with
  | [], _ | _, [] => true
  | _, _ => false
  end.

(** [row.get(col)] *)
Definition row_get (df : Frame) (row : list cell) (col : string)
  : option cell :=
  dict_get String.eqb (combine (columns df) row) col.

(** [pd.isna(value)] for what [row.get] returns. *)
Definition isna (value : option cell) : bool :=
  match value with
  | None | Some NaN => true
  | Some _ => false
  end.

(** [str(value).strip()] for a value that is there. *)
Definition cell_text (value : option cell) : string :=
  match value with
  | Some c => strip (py_str c)
  | None => strip "None"
  end.

Section CodebookFiles.

(** What [json.loads] returns, with [isinstance(parsed, list)] and [str]
    on it; [None] is [json.JSONDecodeError]. *)
Variable Json : Type.
Variable json_loads : string -> option Json.
Variable json_list : Json -> option (list Json).
Variable json_str : Json -> string.
(** [json.dumps(item.examples, ensure_ascii=False)] *)
Variable json_dumps : list string -> string.
(** [pd.read_csv(file, encoding=...)]; [None] when it raises. *)
Variable read_csv : string -> string -> option Frame.
(** [df.to_csv(index=False).encode('utf-8')] *)
Variable to_csv : Frame -> string.
(** [Codebook.model_validate(json.load(file))]; [None] when either
    raises. *)
Variable load_json_codebook : string -> option Codebook.

(** Lines 197-200: the examples of a cell that is no JSON, cut at the first
    of the separators that occurs in it. *)
Fixpoint examples_by_separator (seps : list ascii) (cell : string)
  : list string :=
  match seps with
  | [] => []
  | sep :: seps' =>
      if contains_char sep cell then
        map strip
          (filter (fun s => truthy (strip s)) (split_char sep cell))
      else examples_by_separator seps' cell
  end.

(** Lines 189-202, for a cell that is a string. *)
Definition examples_of_text (cell : string) : list string :=
  match json_loads cell with
  | Some parsed =>
      match json_list parsed with
      | Some items => map json_str items
      | None => [json_str parsed]
      end
  | None =>
      let examples_list :=
        examples_by_separator [pipe; ascii_of_nat 59; ascii_of_nat 10] cell
      in
      match examples_list with
      | [] => if truthy (strip cell) then [strip cell] else []
      | _ => examples_list
      end
  end.

(** Lines 185-204; a cell that is a number is neither a string nor a
    list. *)
Definition examples_of_cell (value : option cell) : list string :=
  match value with
  | Some (Str cell) => examples_of_text cell
  | _ => []
  end.

(** Lines 173-205: the code of one row, if the row has one. *)
Definition code_of_row (df : Frame) (code_col : string)
  (desc_col examples_col : option string) (row : list cell) : option Code :=
  let code_val := row_get df row code_col in
  if isna code_val then None
  else
    let code_text := cell_text code_val in
    if is_empty code_text then None
    else
      let desc_text :=
        match desc_col with
        | Some col =>
            if truthy col && existsb (String.eqb col) (columns df) then
              let desc_val := row_get df row col in
              if isna desc_val then "" else cell_text desc_val
            else ""
        | None => ""
        end in
      let examples_list :=
        match examples_col with
        | Some col =>
            if truthy col && existsb (String.eqb col) (columns df) then
              examples_of_cell (row_get df row col)
            else []
        | None => []
        end in
      Some {| code := code_text; description := desc_text;
              examples := examples_list |}.

(** Lines 168-171: the columns the codes, descriptions and examples are
    read from.  [None] for the first is the [IndexError] of
    [list(df.columns)[0]]. *)
Definition normalized_map (df : Frame) : dict string string :=
  dict_of_pairs String.eqb
    (map (fun col => (lower (strip col), col)) (columns df)).

Definition code_column (df : Frame) : option string :=
  py_or (dict_get String.eqb (normalized_map df) "code")
    (py_or (dict_get String.eqb (normalized_map df) "label")
       (hd_error (columns df))).

Definition desc_column (df : Frame) : option string :=
  py_or (dict_get String.eqb (normalized_map df) "description")
    (if (1 <? length (columns df))%nat then nth_error (columns df) 1
     else None).

Definition examples_column (df : Frame) : option string :=
  dict_get String.eqb (normalized_map df) "examples".

(** Lines 168-206: the codebook of a frame that is not empty. *)
Definition codebook_of_frame (df : Frame) : option Codebook :=
  match code_column df with
  | None => None
  | Some code_col =>
      let desc_col := desc_column df in
      let examples_col := examples_column df in
      Some {| codes :=
        flat_map
          (fun row =>
             match code_of_row df code_col desc_col examples_col row with
             | Some c => [c]
             | None => []
             end)
          (rows df) |}
  end.

(** [parse_uploaded_codebook], for the name and the content of the file. *)
Definition parse_uploaded_codebook (file_name content : string)
  : option Codebook :=
  let name := lower file_name in
  if endswith name ".json" then load_json_codebook content
  else if endswith name ".csv" then
    let df :=
      match read_csv "utf-8" content with
      | Some df => Some df
      | None => read_csv "latin1" content
      end in
    match df with
    | None => None
    | Some df => if frame_empty df then None else codebook_of_frame df
    end
  else None.

(** Lines 141-148: the frame [codebook_to_csv_bytes] writes. *)
Definition codebook_rows (codebook_obj : Codebook) : Frame :=
  {| columns := ["code"; "description"; "examples"];
     rows :=
       map (fun item =>
              [Str (code item); Str (description item);
               Str (json_dumps (examples item))])
         (codes codebook_obj) |}.

Definition codebook_to_csv_bytes (codebook_obj : Codebook) : string :=
  to_csv (codebook_rows codebook_obj).

(** [json.loads] gives back the list that [json.dumps] wrote, and what
    [json.dumps] writes is not empty. *)
Definition reads_back (l : list string) : Prop :=
  json_dumps l <> "" /\
  exists parsed items,
    json_loads (json_dumps l) = Some parsed /\
    json_list parsed = Some items /\ map json_str items = l.

End CodebookFiles.

(** What reading a CSV file does to a cell of text that was written empty:
    it comes back missing. *)
Definition blank_to_nan (df : Frame) : Frame :=
  {| columns := columns df;
     rows :=
       map (map (fun c => match c with Str "" => NaN | _ => c end))
         (rows df) |}.

(** The codebook as an import keeps it: labels and descriptions trimmed,
    codes without label left out. *)
Definition trimmed_codebook (cb : Codebook) : Codebook :=
  {| codes :=
       flat_map
         (fun item =>
            if is_empty (strip (code item)) then []
            else [{| code := strip (code item);
                     description := strip (description item);
                     examples := examples item |}])
         (codes cb) |}.

(** *** A sample reader of JSON

    It writes a list of strings between brackets and reads back the lists
    it is given to know. *)
Inductive sample_json : Type :=
| JText (s : string)
| JItems (l : list string).

Definition sample_dumps (l : list string) : string :=
  ("[" ++ join ", " (map (fun s => dquote ++ s ++ dquote) l) ++ "]")%string.

Definition sample_loads (known : list (list string)) (s : string)
  : option sample_json :=
  option_map JItems
    (find (fun l => String.eqb (sample_dumps l) s) known).

Definition sample_list (j : sample_json) : option (list sample_json) :=
  match j with
  | JItems l => Some (map JText l)
  | JText _ => None
  end.

Definition sample_str (j : sample_json) : string :=
  match j with
  | JText s => s
  | JItems l => sample_dumps l
  end.

(** A codebook with examples, and the lists its examples are. *)
Definition sample_codebook_with_examples : Codebook :=
  {| codes :=
    [ {| code := "Price"; description := "Mentions cost.";
         examples := ["too expensive"; "good value"] |};
      {| code := " Delivery "; description := "";
         examples := [] |} ] |}.

Definition sample_known : list (list string) :=
  [["too expensive"; "good value"]; []].

(** A frame of two columns, codes and examples, with a row without code. *)
Definition sample_two_columns : Frame :=
  {| columns := ["Code"; "Examples"];
     rows := [ [Str "Price"; Str "too expensive | good value"];
               [NaN; Str "left over"];
               [Str " Delivery "; NaN] ] |}.

(* ================================================================== *)
(** ** Generating, merging and refining a codebook (lines 56-71, 212-278,
    417-444) *)

(** [generate_structured_codebook_prompt]; the examples are values of the
    column, formatted as [str] does. *)
Definition generate_structured_codebook_prompt (question : string)
  (examples : list cell) : string :=
  let example_str :=
    join nl (map (fun ex => dquote ++ py_str ex ++ dquote)%string examples) in
  ("Analyze the survey question and responses to create a thematic codebook."
   ++ nl ++ "    **Question:** " ++ dquote ++ question ++ dquote
   ++ " **Responses:**" ++ nl ++ "[" ++ example_str ++ "]" ++ nl ++ nl
   ++ "    Identify themes, define a code and description for each, and select 3-5 verbatim examples. Include an "
   ++ dquote ++ "Other" ++ dquote ++ " code.")%string.

(** [create_merge_prompt] *)
Definition create_merge_prompt (codebook1_json codebook2_json
  user_instructions : string) : string :=
  let prompt :=
    ("You are a master survey analyst consolidating two codebooks. Your goal is to create the most accurate final codebook."
     ++ nl ++ "    **Codebook A:**" ++ nl ++ codebook1_json ++ nl
     ++ "**Codebook B:**" ++ nl ++ codebook2_json ++ nl ++ nl
     ++ "    **Analytical Process:**" ++ nl
     ++ "    1.  Identify codes with similar themes." ++ nl
     ++ "    2.  For similar codes, examine their `examples` and evaluate if it possible to separate the example into two more distinct code. If they are truly redundant, consolidate them."
     ++ nl
     ++ "    3.  Retain unique codes. Each code have to refer to an unique concept.")%string
  in
  if truthy user_instructions then
    (prompt ++ nl ++ nl ++ "**CRITICAL USER INSTRUCTIONS:**" ++ nl
     ++ "You MUST follow these instructions. They override general guidance."
     ++ nl ++ "---" ++ nl ++ user_instructions ++ nl ++ "---")%string
  else prompt.

(** The schema both functions spell out at the end of their prompt. *)
Definition schema_sentence : string :=
  ("Return ONLY a JSON object with this exact schema: { "
   ++ dquote ++ "codes" ++ dquote ++ ": [ { "
   ++ dquote ++ "code" ++ dquote ++ ": string, "
   ++ dquote ++ "description" ++ dquote ++ ": string, "
   ++ dquote ++ "examples" ++ dquote ++ ": string[] } ] }")%string.

(** What the merge takes from outside. *)
Record Service : Type := {
  (** Reply to the [n]-th request sent. *)
  service_llm : nat -> Request -> ApiReply;
  (** [Codebook.model_validate(json.loads(text))]; [None] when either
      raises. *)
  parse_codebook : string -> option Codebook;
  (** [Codebook.model_json_schema()] as printed in the prompt. *)
  codebook_schema_text : string;
  (** [json.dumps(payload, indent=2)] for the payload of
      [serialize_codebook_for_prompt], given as the list of its codes. *)
  dumps_payload : list (string * string * list string) -> string;
  (** [pd.Series(values).sample(n=n, replace=False).tolist()] *)
  sample : list cell -> nat -> list cell
}.

Section Merging.
Variable sv : Service.

(** [serialize_codebook_for_prompt] *)
Definition serialize_codebook_for_prompt (codebook_obj : Codebook) : string :=
  dumps_payload sv
    (map (fun c => (code c, description c, examples c)) (codes codebook_obj)).

(** [call_claude_api(..., pydantic_model=Codebook)] as the [n]-th request. *)
Definition call_claude_api_codebook (n : nat)
  (key system_prompt user_prompt model : string)
  : Request * ApiReply * option Codebook :=
  let json_prompt :=
    (user_prompt ++ nl ++ nl
     ++ "Please respond with a valid JSON object that matches this schema: "
     ++ codebook_schema_text sv)%string in
  let rq := {| req_api_key := key; req_model := model;
               req_system := system_prompt; req_user := json_prompt |} in
  let rp := service_llm sv n rq in
  (rq, rp,
   match rp with
   | ApiRaises => None
   | ApiText text => parse_codebook sv (extract_json text)
   end).

(** [call_claude_api(..., pydantic_model=None)] as the [n]-th request. *)
Definition call_claude_api_text (n : nat)
  (key system_prompt user_prompt model : string)
  : Request * ApiReply * option string :=
  let rq := {| req_api_key := key; req_model := model;
               req_system := system_prompt; req_user := user_prompt |} in
  let rp := service_llm sv n rq in
  (rq, rp,
   match rp with
   | ApiRaises => None
   | ApiText text => Some (strip text)
   end).

(** What [merge_codebooks_via_llm] and [refine_codebook_via_instructions]
    both do with their prompt (lines 246-259 and 266-278): a structured
    request, and when it gives nothing a plain one whose reply is cut and
    parsed by hand.  The result comes with the requests sent, in order. *)
Definition structured_then_raw (n : nat) (api_key system_msg prompt
  model : string) : list (Request * ApiReply) * option Codebook :=
  let '(rq1, rp1, merged) :=
    call_claude_api_codebook n api_key system_msg prompt model in
  match merged with
  | Some cb => ([(rq1, rp1)], Some cb)
  | None =>
      let '(rq2, rp2, raw) :=
        call_claude_api_text (S n) api_key system_msg prompt model in
      ([(rq1, rp1); (rq2, rp2)],
       match raw with
       | None => None
       | Some raw =>
           if truthy raw then parse_codebook sv (_extract_json_block raw)
           else None
       end)
  end.

(** [merge_codebooks_via_llm], its first request being the [n]-th. *)
Definition merge_codebooks_via_llm (n : nat) (api_key : string)
  (base_cb new_cb : Codebook) (model user_instructions : string)
  : list (Request * ApiReply) * option Codebook :=
  let system_msg := "You are a master survey analyst." in
  let prompt :=
    (create_merge_prompt (serialize_codebook_for_prompt base_cb)
       (serialize_codebook_for_prompt new_cb) user_instructions
     ++ nl ++ nl ++ schema_sentence)%string in
  structured_then_raw n api_key system_msg prompt model.

(** [refine_codebook_via_instructions], its first request being the
    [n]-th. *)
Definition refine_codebook_via_instructions (n : nat) (api_key : string)
  (current_cb : Codebook) (instructions model : string)
  : list (Request * ApiReply) * option Codebook :=
  let system_msg := "You are a master survey analyst." in
  let base_json := serialize_codebook_for_prompt current_cb in
  let prompt :=
    ("You are refining an existing survey codebook strictly following the user's instructions."
     ++ nl ++ "Current codebook JSON:" ++ nl ++ base_json ++ nl ++ nl
     ++ "Instructions:" ++ nl ++ instructions ++ nl ++ nl
     ++ schema_sentence ++ ". Do not add unrelated fields.")%string in
  structured_then_raw n api_key system_msg prompt model.

(** The button Refine & Merge Codebook (lines 417-444): the requests sent
    and the codebook the session holds afterwards. *)
Definition refine_and_merge (api_key question_text generation_model : string)
  (column : list cell) (refine_sample_size : nat)
  (user_merge_instructions : string) (structured_codebook : Codebook)
  : list (Request * ApiReply) * Codebook :=
  let initial_codebook := structured_codebook in
  let all_unique_responses := unique (dropna column) in
  match all_unique_responses with
  | [] => ([], structured_codebook)
  | _ =>
      let actual_sample_size :=
        Nat.min (length all_unique_responses) refine_sample_size in
      let new_examples := sample sv all_unique_responses actual_sample_size in
      let new_prompt :=
        generate_structured_codebook_prompt question_text new_examples in
      let '(rq, rp, new_codebook) :=
        call_claude_api_codebook 0 api_key
          "You are an expert survey analyst." new_prompt generation_model in
      match new_codebook with
      | None => ([(rq, rp)], structured_codebook)
      | Some new_codebook =>
          let '(log, merged_codebook) :=
            merge_codebooks_via_llm 1 api_key initial_codebook new_codebook
              generation_model user_merge_instructions in
          ((rq, rp) :: log,
           match merged_codebook with
           | None => structured_codebook
           | Some merged => merged
           end)
      end
  end.

End Merging.

(** What the validator makes of a reply, cut as [call_claude_api] cuts
    it. *)
Definition structured_result (sv : Service) (rp : ApiReply)
  : option Codebook :=
  match rp with
  | ApiRaises => None
  | ApiText text => parse_codebook sv (extract_json text)
  end.

(** What the validator makes of a reply, cut as the fallback cuts it. *)
Definition raw_result (sv : Service) (rp : ApiReply) : option Codebook :=
  match rp with
  | ApiRaises => None
  | ApiText text =>
      if truthy (strip text)
      then parse_codebook sv (_extract_json_block (strip text))
      else None
  end.

(** A validator of codebooks accepts only the text of a JSON object, which
    begins and ends with a brace. *)
Definition accepts_objects (parse : string -> option Codebook) : Prop :=
  forall s cb, parse s = Some cb -> exists body, strip s = braced body.

(** *** A sample service

    It answers the first request with a text that does not validate and
    every later one with the text of an empty codebook, and takes the first
    values as its sample. *)
Definition sample_service : Service :=
  {| service_llm :=
       fun n _ =>
         match n with
         | 0 => ApiText "I could not find any theme."
         | _ => ApiText "Here it is: {} (no code)"
         end;
     parse_codebook :=
       fun s => if String.eqb s "{}" then Some {| codes := [] |} else None;
     codebook_schema_text := "{}";
     dumps_payload := fun _ => "[]";
     sample := fun values n => firstn n values |}.

(* ================================================================== *)
(** ** The classified frame and its view (lines 513, 530-541) *)

(** The frame of the session: its named columns, in order. *)
Definition DataFrame : Type := dict string (list cell).

(** A value of the column Assigned Code as a cell of the frame. *)
Definition assigned_cell (v : option string) : cell :=
  match v with
  | Some s => Str s
  | None => NaN
  end.

(** Line 513: [final_df = df.copy(); final_df['Assigned Code'] = ...], for
    the run of the handler over the column [column_to_code].  [None] when
    no frame is stored. *)
Definition classify_frame (Vec : Type) (w : World Vec) (cfg : Config)
  (structured_codebook : option Codebook) (df : DataFrame)
  (column_to_code : string) : option DataFrame :=
  match dict_get String.eqb df column_to_code with
  | None => None
  | Some column =>
      match classify_all w cfg structured_codebook column with
      | Classified _ assigned_code =>
          Some (dict_set String.eqb df "Assigned Code"
                  (map assigned_cell assigned_code))
      | _ => None
      end
  end.

(** Lines 530-541: the labels of the columns of [display_df]. *)
Definition display_columns (classified_df : DataFrame)
  (col_to_show : option string) : list string :=
  let cols :=
    (match col_to_show with
     | Some c =>
         if truthy c && dict_has String.eqb classified_df c then [c] else []
     | None => []
     end)
    ++ (if dict_has String.eqb classified_df "Assigned Code"
        then ["Assigned Code"] else []) in
  match cols with
  | [] => keys classified_df
  | _ => cols
  end.

(** An example as a cell of a hand-written CSV file can list it between
    separators: not empty, trimmed, and free of the three separators. *)
Definition plain_example (x : string) : Prop :=
  x <> "" /\ strip x = x /\
  contains_char pipe x = false /\
  contains_char (ascii_of_nat 59) x = false /\
  contains_char (ascii_of_nat 10) x = false.


(* ================================================================== *)
(** * Properties *)

Unset Implicit Arguments.

(** ** Strings *)

Lemma las_app (a b : string) :
  list_ascii_of_string (a ++ b) =
  list_ascii_of_string a ++ list_ascii_of_string b.
Proof. induction a as [|c a IH]; simpl; [reflexivity | now rewrite IH]. Qed.

Lemma sola_app (a b : list ascii) :
  string_of_list_ascii (a ++ b) =
  (string_of_list_ascii a ++ string_of_list_ascii b)%string.
Proof. induction a as [|c a IH]; simpl; [reflexivity | now rewrite IH]. Qed.

Lemma string_app_assoc (a b c : string) :
  ((a ++ b) ++ c = a ++ (b ++ c))%string.
Proof. induction a as [|x a IH]; simpl; [reflexivity | now rewrite IH]. Qed.

Lemma string_app_nil_r (a : string) : (a ++ "")%string = a.
Proof. induction a as [|x a IH]; simpl; [reflexivity | now rewrite IH]. Qed.

Lemma contains_char_In (c : ascii) (s : string) :
  contains_char c s = false -> ~ In c (list_ascii_of_string s).
Proof.
  induction s as [|a s IH]; simpl; intros H; [tauto |].
  apply orb_false_iff in H as [Ha Hs].
  intros [E | E]; [subst; now rewrite Ascii.eqb_refl in Ha | now apply IH].
Qed.

Lemma lstrip_length (s : string) : String.length (lstrip s) <= String.length s.
Proof.
  induction s as [|c s IH]; simpl; [lia |].
  destruct (py_isspace c); simpl; lia.
Qed.

Lemma lstrip_fixed (c : ascii) (s : string) :
  lstrip (String c s) = String c s -> py_isspace c = false.
Proof.
  simpl. destruct (py_isspace c); [| reflexivity].
  intros E. pose proof (lstrip_length s) as L. rewrite E in L. simpl in L. lia.
Qed.

Lemma rstrip_fixed (c : ascii) (s : string) :
  rstrip (String c s) = String c s ->
  rstrip s = s /\ (s = "" -> py_isspace c = false).
Proof.
  simpl. destruct (py_isspace c && is_empty (rstrip s)) eqn:E;
    [discriminate |].
  intros H. injection H as H. split; [exact H |].
  intros ->. simpl in E. now rewrite andb_true_r in E.
Qed.

(** *** The scanner *)

Lemma scan_absorb d (a rest : list ascii) : forall cur pend,
  ~ In d a ->
  scan d false cur pend (a ++ rest) =
  scan d false (fst (absorb cur pend a)) (snd (absorb cur pend a)) rest.
Proof.
  induction a as [|c a IH]; intros cur pend Hd; simpl; [reflexivity |].
  destruct (Ascii.eqb_spec c d) as [-> | _]; [exfalso; apply Hd; now left |].
  assert (Hd' : ~ In d a) by (intros H; apply Hd; now right).
  destruct (py_isspace c); now rewrite IH.
Qed.

Lemma absorb_space (w : list ascii) : forall cur pend,
  forallb py_isspace w = true ->
  absorb cur pend w = (cur, rev w ++ pend).
Proof.
  induction w as [|c w IH]; intros cur pend H; simpl in *; [reflexivity |].
  apply andb_true_iff in H as [Hc Hw]. rewrite Hc, IH by exact Hw.
  now rewrite <- app_assoc.
Qed.

Lemma absorb_clean (a : string) : forall cur pend,
  rstrip a = a -> a <> "" ->
  absorb cur pend (list_ascii_of_string a) =
  (rev (list_ascii_of_string a) ++ pend ++ cur, []).
Proof.
  induction a as [|c a IH]; intros cur pend Hr Hne; [congruence |].
  apply rstrip_fixed in Hr as [Hr Hc]. simpl.
  destruct a as [|c' a'].
  - rewrite (Hc eq_refl). reflexivity.
  - destruct (py_isspace c).
    + rewrite IH by (auto; discriminate).
      cbn [list_ascii_of_string]. now rewrite <- !app_assoc.
    + rewrite IH by (auto; discriminate).
      cbn [list_ascii_of_string]. now rewrite <- !app_assoc.
Qed.

Lemma scan_skip_space d (w rest : list ascii) :
  py_isspace d = false ->
  forallb py_isspace w = true ->
  scan d true [] [] (w ++ rest) = scan d true [] [] rest.
Proof.
  intros Hd. induction w as [|c w IH]; intros H; simpl in *; [reflexivity |].
  apply andb_true_iff in H as [Hc Hw].
  destruct (Ascii.eqb_spec c d) as [-> | _]; [congruence |].
  rewrite Hc. now apply IH.
Qed.

Lemma scan_skip_irrelevant d (b : string) :
  lstrip b = b ->
  scan d true [] [] (list_ascii_of_string b) =
  scan d false [] [] (list_ascii_of_string b).
Proof.
  destruct b as [|c b]; [reflexivity |].
  intros H. apply lstrip_fixed in H. simpl.
  destruct (Ascii.eqb c d); [reflexivity |]. now rewrite H.
Qed.

Lemma space_not_delim d (w : list ascii) :
  py_isspace d = false -> forallb py_isspace w = true -> ~ In d w.
Proof.
  intros Hd Hw Hin. rewrite forallb_forall in Hw.
  specialize (Hw d Hin). congruence.
Qed.

(** A piece [a] without delimiter and without trailing whitespace, then a
    match [w1 d w2]: the scanner, skipping or not, gives out [a] and goes on
    behind the match.  (Read from a skipping state, [a] must not start with
    whitespace.) *)
Lemma scan_piece d (skip : bool) (a : string) (w1 w2 rest : list ascii) :
  py_isspace d = false ->
  contains_char d a = false -> rstrip a = a ->
  (skip = true -> lstrip a = a) ->
  forallb py_isspace w1 = true -> forallb py_isspace w2 = true ->
  scan d skip [] [] (list_ascii_of_string a ++ w1 ++ d :: w2 ++ rest) =
  list_ascii_of_string a :: scan d true [] [] rest.
Proof.
  intros Hd Ha Hr Hl Hw1 Hw2.
  assert (Hstep : forall cur,
    scan d false cur [] (w1 ++ d :: w2 ++ rest) =
    rev cur :: scan d true [] [] rest).
  { intros cur. rewrite scan_absorb by now apply space_not_delim.
    rewrite absorb_space by exact Hw1. simpl.
    rewrite Ascii.eqb_refl. f_equal. now apply scan_skip_space. }
  destruct a as [|c a].
  - simpl. destruct skip.
    + rewrite scan_skip_space by assumption. simpl. rewrite Ascii.eqb_refl.
      f_equal. now apply scan_skip_space.
    + apply (Hstep []).
  - assert (Hsk : scan d skip [] []
               (list_ascii_of_string (String c a) ++ w1 ++ d :: w2 ++ rest) =
             scan d false [] []
               (list_ascii_of_string (String c a) ++ w1 ++ d :: w2 ++ rest)).
    { destruct skip; [| reflexivity].
      specialize (Hl eq_refl). apply lstrip_fixed in Hl. simpl.
      destruct (Ascii.eqb c d); [reflexivity |]. now rewrite Hl. }
    rewrite Hsk.
    rewrite scan_absorb by now apply contains_char_In.
    rewrite absorb_clean by (auto; discriminate). cbn [fst snd].
    rewrite Hstep. now rewrite !app_nil_r, rev_involutive.
Qed.

Lemma scan_no_delim d (s : list ascii) : forall cur pend,
  ~ In d s -> scan d false cur pend s = [rev (pend ++ cur) ++ s].
Proof.
  induction s as [|c s IH]; intros cur pend Hd; simpl.
  - now rewrite app_nil_r.
  - destruct (Ascii.eqb_spec c d) as [-> | _]; [exfalso; apply Hd; now left |].
    assert (Hd' : ~ In d s) by (intros H; apply Hd; now right).
    destruct (py_isspace c); rewrite IH by exact Hd'; simpl;
      now rewrite <- !app_assoc.
Qed.

Lemma scan_length d (s : list ascii) : forall skip cur pend,
  length (scan d skip cur pend s) = S (count_occ ascii_dec s d).
Proof.
  induction s as [|c s IH]; intros skip cur pend; simpl; [reflexivity |].
  destruct (Ascii.eqb_spec c d) as [-> | Hne].
  - simpl. rewrite IH. destruct (ascii_dec d d); congruence.
  - destruct (ascii_dec c d); [congruence |].
    destruct (py_isspace c); [destruct skip |]; apply IH.
Qed.

Lemma scan_not_nil d (s : list ascii) skip cur pend :
  scan d skip cur pend s <> [].
Proof.
  intros E. pose proof (scan_length d s skip cur pend) as L.
  rewrite E in L. discriminate.
Qed.

Lemma join_cons (sep a : string) (l : list string) :
  l <> [] -> join sep (a :: l) = (a ++ sep ++ join sep l)%string.
Proof. destruct l; [congruence | reflexivity]. Qed.

Lemma scan_pieces_no_delim d (s : list ascii) : forall skip cur pend,
  ~ In d cur -> ~ In d pend ->
  Forall (fun piece => ~ In d piece) (scan d skip cur pend s).
Proof.
  induction s as [|c s IH]; intros skip cur pend Hc Hp; simpl.
  - constructor; [| constructor].
    rewrite <- in_rev, in_app_iff. tauto.
  - destruct (Ascii.eqb_spec c d) as [-> | Hne].
    + constructor; [now rewrite <- in_rev | apply IH; simpl; tauto].
    + destruct (py_isspace c); [destruct skip |]; apply IH; simpl;
        try rewrite in_app_iff; intuition congruence.
Qed.

Lemma contains_char_app (c : ascii) (a b : string) :
  contains_char c (a ++ b) = contains_char c a || contains_char c b.
Proof.
  induction a as [|x a IH]; simpl; [reflexivity |].
  now rewrite IH, orb_assoc.
Qed.

Lemma contains_char_sola (c : ascii) (l : list ascii) :
  ~ In c l -> contains_char c (string_of_list_ascii l) = false.
Proof.
  induction l as [|x l IH]; simpl; intros H; [reflexivity |].
  rewrite IH by tauto. rewrite orb_false_r.
  destruct (Ascii.eqb_spec x c); [subst; tauto | reflexivity].
Qed.

Lemma contains_char_join (c : ascii) (sep : string) (l : list string) :
  contains_char c sep = false ->
  Forall (fun p => contains_char c p = false) l ->
  contains_char c (join sep l) = false.
Proof.
  intros Hsep. induction 1 as [|p l Hp Hl IH]; [reflexivity |].
  destruct l as [|q l]; [exact Hp |].
  rewrite join_cons by discriminate.
  now rewrite !contains_char_app, Hp, Hsep, IH.
Qed.

(** A string without the delimiter is one piece. *)
Lemma re_split_no_delim d (s : string) :
  contains_char d s = false -> re_split d s = [s].
Proof.
  intros H. unfold re_split.
  rewrite scan_no_delim by now apply contains_char_In.
  simpl. now rewrite string_of_list_ascii_of_string.
Qed.

(** The first piece ends where the first match starts, and the rest is read
    behind the match. *)
Lemma re_split_piece d (a w1 w2 b : string) :
  py_isspace d = false ->
  contains_char d a = false -> rstrip a = a ->
  all_space w1 -> all_space w2 -> lstrip b = b ->
  re_split d (a ++ w1 ++ String d (w2 ++ b)) = a :: re_split d b.
Proof.
  intros Hd Ha Hr Hw1 Hw2 Hb. unfold re_split.
  rewrite !las_app. cbn [list_ascii_of_string]. rewrite las_app.
  rewrite scan_piece; try assumption; try discriminate.
  cbn [map]. rewrite string_of_list_ascii_of_string.
  now rewrite scan_skip_irrelevant.
Qed.

Lemma re_split_not_nil d (s : string) : re_split d s <> [].
Proof.
  unfold re_split. intros E. apply map_eq_nil in E.
  now apply scan_not_nil in E.
Qed.

Lemma re_split_length d (s : string) :
  length (re_split d s) = S (count_occ ascii_dec (list_ascii_of_string s) d).
Proof. unfold re_split. now rewrite length_map, scan_length. Qed.

(** Substitution: no delimiter, nothing changes. *)
Lemma re_sub_no_delim d (repl s : string) :
  contains_char d s = false -> re_sub d repl s = s.
Proof. intros H. unfold re_sub. now rewrite re_split_no_delim. Qed.

(** Substitution: the first delimiter goes with the whitespace around it. *)
Lemma re_sub_piece d (repl a w1 w2 b : string) :
  py_isspace d = false ->
  contains_char d a = false -> rstrip a = a ->
  all_space w1 -> all_space w2 -> lstrip b = b ->
  re_sub d repl (a ++ w1 ++ String d (w2 ++ b)) =
  (a ++ repl ++ re_sub d repl b)%string.
Proof.
  intros. unfold re_sub. rewrite re_split_piece by assumption.
  apply join_cons, re_split_not_nil.
Qed.

(** Substitution leaves no delimiter behind. *)
Lemma re_sub_removes d (repl s : string) :
  contains_char d repl = false ->
  contains_char d (re_sub d repl s) = false.
Proof.
  intros Hrepl. unfold re_sub, re_split.
  apply contains_char_join; [exact Hrepl |].
  rewrite Forall_map.
  eapply Forall_impl; [| apply scan_pieces_no_delim; simpl; tauto].
  intros piece. apply contains_char_sola.
Qed.

(** Splitting a joined list of clean labels gives the list back. *)
Lemma scan_join (codes : list string) :
  codes <> [] -> Forall clean_label codes ->
  forall skip,
    scan pipe skip [] [] (list_ascii_of_string (join SEPARATOR codes)) =
    map list_ascii_of_string codes.
Proof.
  induction codes as [|a l IH]; intros Hne Hall skip; [congruence |].
  inversion Hall as [|? ? [Hp [Hl Hr]] Hall']; subst.
  destruct l as [|b l].
  - simpl. destruct skip.
    + rewrite scan_skip_irrelevant by exact Hl.
      rewrite scan_no_delim by now apply contains_char_In. reflexivity.
    + rewrite scan_no_delim by now apply contains_char_In. reflexivity.
  - rewrite join_cons by discriminate.
    rewrite las_app.
    change (list_ascii_of_string (SEPARATOR ++ join SEPARATOR (b :: l)))
      with ([ascii_of_nat 32] ++ pipe :: [ascii_of_nat 32]
            ++ list_ascii_of_string (join SEPARATOR (b :: l))).
    rewrite scan_piece; try assumption; try reflexivity; [| now intros _].
    cbn [map]. f_equal. apply IH; [discriminate | assumption].
Qed.

Lemma re_split_join (codes : list string) :
  codes <> [] -> Forall clean_label codes ->
  re_split pipe (join SEPARATOR codes) = codes.
Proof.
  intros Hne Hall. unfold re_split. rewrite scan_join by assumption.
  rewrite map_map. rewrite <- (map_id codes) at 2.
  apply map_ext. apply string_of_list_ascii_of_string.
Qed.

Lemma count_occ_las_app (d : ascii) (a b : string) :
  count_occ ascii_dec (list_ascii_of_string (a ++ b)) d =
  count_occ ascii_dec (list_ascii_of_string a) d +
  count_occ ascii_dec (list_ascii_of_string b) d.
Proof. now rewrite las_app, count_occ_app. Qed.

(** As many pieces as labels, when no label holds a pipe. *)
Lemma re_split_join_length (codes : list string) :
  codes <> [] ->
  Forall (fun c => contains_char pipe c = false) codes ->
  length (re_split pipe (join SEPARATOR codes)) = length codes.
Proof.
  intros Hne Hall. rewrite re_split_length.
  induction Hall as [|a l Ha Hl IH]; [congruence |].
  assert (Hz : count_occ ascii_dec (list_ascii_of_string a) pipe = 0)
    by (apply count_occ_not_In, contains_char_In, Ha).
  destruct l as [|b l].
  - simpl. now rewrite Hz.
  - rewrite join_cons by discriminate.
    rewrite !count_occ_las_app, Hz.
    change (count_occ ascii_dec (list_ascii_of_string SEPARATOR) pipe) with 1.
    assert (IH' := IH ltac:(discriminate)). simpl length in *. lia.
Qed.

(** *** Sentinels and the separator *)

Lemma prefix_app (a b : string) : prefix a (a ++ b) = true.
Proof.
  induction a as [|c a IH]; simpl; [now destruct b |].
  destruct (ascii_dec c c); [exact IH | congruence].
Qed.

Lemma contains_app_r (sub a b : string) :
  contains sub b = true -> contains sub (a ++ b) = true.
Proof.
  intros H. induction a as [|c a IH]; simpl; [exact H |].
  rewrite IH. apply orb_true_r.
Qed.

Lemma contains_unfold (sub s : string) :
  contains sub s =
  prefix sub s ||
  match s with EmptyString => false | String _ s' => contains sub s' end.
Proof. destruct s; reflexivity. Qed.

Lemma contains_here (sub a b : string) : contains sub (a ++ sub ++ b) = true.
Proof.
  apply contains_app_r. rewrite contains_unfold.
  now rewrite prefix_app.
Qed.

Lemma join_two_contains (sep a b : string) (l : list string) :
  contains sep (join sep (a :: b :: l)) = true.
Proof. rewrite join_cons by discriminate. apply contains_here. Qed.

(* ================================================================== *)
(** ** The classifier *)

Section ClassifierFacts.
Variable Vec : Type.
Variable w : World Vec.
Variable cfg : Config.
Variable txt : string.

Lemma classify_item_at_multi (n : nat) (response : string) :
  use_multilabel cfg = true ->
  result_of (classify_item_at w cfg txt n response) =
  serialize_codes
    (model_result w (reply_of (classify_item_at w cfg txt n response))).
Proof.
  intros H. unfold classify_item_at, call_claude_api_model. rewrite H.
  cbn [result_of reply_of fst snd model_result]. reflexivity.
Qed.

Lemma classify_item_at_single (n : nat) (response : string) :
  use_multilabel cfg = false ->
  result_of (classify_item_at w cfg txt n response) =
  or_api_error
    match reply_of (classify_item_at w cfg txt n response) with
    | ApiRaises => None
    | ApiText text => Some (strip text)
    end.
Proof.
  intros H. unfold classify_item_at, call_claude_api. rewrite H.
  cbn [result_of reply_of fst snd]. reflexivity.
Qed.

End ClassifierFacts.

Lemma serialize_sentinel_iff (codes : list string) (sentinel : string) :
  codes <> [] -> contains SEPARATOR sentinel = false ->
  (serialize_codes (Some codes) = sentinel <-> codes = [sentinel]).
Proof.
  intros Hne Hs. destruct codes as [|a [|b l]]; [congruence | |].
  - change (serialize_codes (Some [a])) with a. split; congruence.
  - split; [| discriminate].
    intros E. exfalso.
    pose proof (join_two_contains SEPARATOR a b l) as C.
    change (serialize_codes (Some (a :: b :: l)))
      with (join SEPARATOR (a :: b :: l)) in E.
    rewrite E in C. congruence.
Qed.

(** C5 (as amended).  In multi-label mode a non-empty list of returned
    labels is serialised as their join with [" | "], in order (splitting the
    string on the separator gives back a list of clean labels); an empty
    list gives ["No Code Applied"] and a failed call ["API_ERROR"]; the two
    sentinels differ; and the string of a non-empty list equals a sentinel
    exactly when the list is the single label that is itself that sentinel
    string. *)
Theorem multilabel_serialization (Vec : Type) (w : World Vec) (cfg : Config)
  (txt : string) (n : nat) (response : string) :
  use_multilabel cfg = true ->
  let call := classify_item_at w cfg txt n response in
  let returned := model_result w (reply_of call) in
  (returned = None -> result_of call = "API_ERROR") /\
  (returned = Some [] -> result_of call = "No Code Applied") /\
  (forall codes, returned = Some codes -> codes <> [] ->
     result_of call = join " | " codes /\
     (Forall clean_label codes -> re_split pipe (result_of call) = codes) /\
     (forall sentinel,
        sentinel = "API_ERROR" \/ sentinel = "No Code Applied" ->
        (result_of call = sentinel <-> codes = [sentinel]))) /\
  "No Code Applied" <> "API_ERROR".
Proof.
  intros Hm call returned.
  assert (E : result_of call = serialize_codes returned)
    by (apply classify_item_at_multi; exact Hm).
  split; [intros R; now rewrite E, R |].
  split; [intros R; now rewrite E, R |].
  split; [| discriminate].
  intros codes R Hne. rewrite E, R.
  assert (J : serialize_codes (Some codes) = join SEPARATOR codes)
    by (destruct codes; [congruence | reflexivity]).
  split; [exact J |]. split.
  - intros Hc. rewrite J. now apply re_split_join.
  - intros sentinel Hs. apply serialize_sentinel_iff; [assumption |].
    destruct Hs as [-> | ->]; reflexivity.
Qed.

Lemma multilabel_serialization_witness :
  result_of
    (classify_item_at
       (sample_world (always "{}") (parsed_as ["Price"; "Delivery"]) [] [])
       (sample_config true false) "codebook" 0 "cheap and fast")
  = "Price | Delivery".
Proof.
  destruct (multilabel_serialization _
              (sample_world (always "{}") (parsed_as ["Price"; "Delivery"])
                 [] [])
              (sample_config true false) "codebook" 0 "cheap and fast"
              eq_refl) as (_ & _ & H & _).
  refine (proj1 (H ["Price"; "Delivery"] eq_refl _)). discriminate.
Defined.

(** C5, the claim as stated fails: a list of one label without the
    separator inside is serialised to the very string that reports a failed
    call. *)
Lemma sentinel_collision :
  let codes := ["API_ERROR"] in
  codes <> [] /\
  Forall (fun c => contains " | " c = false) codes /\
  serialize_codes (Some codes) = serialize_codes None.
Proof.
  split; [discriminate |]. split; [| reflexivity].
  constructor; [reflexivity | constructor].
Qed.

(** C8 (as amended).  In single-label mode a call that succeeds gives the
    returned text, stripped, when that stripped text is not empty; when it
    is empty the result is ["API_ERROR"], as for a call that failed. *)
Theorem single_label_result (Vec : Type) (w : World Vec) (cfg : Config)
  (txt : string) (n : nat) (response : string) :
  use_multilabel cfg = false ->
  let call := classify_item_at w cfg txt n response in
  (forall text, reply_of call = ApiText text ->
     result_of call =
     if truthy (strip text) then strip text else "API_ERROR") /\
  (reply_of call = ApiRaises -> result_of call = "API_ERROR").
Proof.
  intros Hs call.
  assert (E := classify_item_at_single _ w cfg txt n response Hs).
  fold call in E. split.
  - intros text R. rewrite E, R. reflexivity.
  - intros R. rewrite E, R. reflexivity.
Qed.

Lemma single_label_result_witness :
  result_of
    (classify_item_at (sample_world (always "  Price ") (parsed_as []) [] [])
       (sample_config false false) "codebook" 0 "too expensive")
  = "Price".
Proof.
  exact (proj1 (single_label_result _
                  (sample_world (always "  Price ") (parsed_as []) [] [])
                  (sample_config false false) "codebook" 0 "too expensive"
                  eq_refl) "  Price " eq_refl).
Defined.

(** C8, the claim as stated fails: the call succeeds with blank text, and
    the result is not that text stripped. *)
Lemma blank_reply_becomes_error :
  let call :=
    classify_item_at (sample_world (always "   ") (parsed_as []) [] [])
      (sample_config false false) "codebook" 0 "too expensive" in
  reply_of call = ApiText "   " /\
  strip "   " = "" /\
  result_of call = "API_ERROR" /\
  result_of call <> strip "   ".
Proof. repeat split. discriminate. Qed.

(* ================================================================== *)
(** ** Results view and code frequencies *)

Lemma existsb_comma_iff (series : list (option string)) :
  existsb (contains_char comma) (map fillna series) = true <->
  exists v, In (Some v) series /\ contains_char comma v = true.
Proof.
  rewrite existsb_exists. split.
  - intros (s & Hin & Hc). apply in_map_iff in Hin as (v & <- & Hin).
    destruct v as [v |]; [now exists v | discriminate].
  - intros (v & Hin & Hc). exists v. split; [| exact Hc].
    apply in_map_iff. now exists (Some v).
Qed.

(** The view rewrites a column of dtype object that holds a comma. *)
Lemma normalize_rewrites (dt : dtype) (series : list (option string)) :
  is_object_dtype dt = true ->
  (exists v, In (Some v) series /\ contains_char comma v = true) ->
  normalize_separator dt series =
  map (fun v => Some (re_sub comma " | " (fillna v))) series.
Proof.
  intros Hobj Hex. unfold normalize_separator. rewrite Hobj.
  apply existsb_comma_iff in Hex. now rewrite Hex.
Qed.

(** It leaves every other column as it is. *)
Lemma normalize_keeps (dt : dtype) (series : list (option string)) :
  is_object_dtype dt = false \/
  (forall v, In (Some v) series -> contains_char comma v = false) ->
  normalize_separator dt series = series.
Proof.
  intros H. unfold normalize_separator.
  destruct (is_object_dtype dt); [| reflexivity].
  destruct H as [H | Hno]; [discriminate |].
  destruct (existsb (contains_char comma) (map fillna series)) eqn:E;
    [| reflexivity].
  apply existsb_comma_iff in E as (v & Hin & Hc).
  rewrite (Hno v Hin) in Hc. discriminate.
Qed.

(** C10 (as amended).  In the results view, when pandas reports the column
    Assigned Code as of dtype object and some value of it holds a comma,
    every value is replaced by its text (empty for a missing value) with
    every comma and the whitespace around it rewritten to [" | "], whatever
    produced the comma, so that no comma is left.  A column without comma
    stays as it is, and so does a column of any other dtype, commas or not.
    The last two parts say what the rewriting does to one string: up to its
    first comma, and without comma. *)
Theorem separator_normalization (dt : dtype)
  (series : list (option string)) :
  (is_object_dtype dt = true ->
   (exists v, In (Some v) series /\ contains_char comma v = true) ->
     normalize_separator dt series =
       map (fun v => Some (re_sub comma " | " (fillna v))) series /\
     forall v, In v (normalize_separator dt series) ->
       exists s, v = Some s /\ contains_char comma s = false) /\
  ((forall v, In (Some v) series -> contains_char comma v = false) ->
     normalize_separator dt series = series) /\
  (is_object_dtype dt = false -> normalize_separator dt series = series) /\
  (forall a w1 w2 b : string,
     contains_char comma a = false -> rstrip a = a ->
     all_space w1 -> all_space w2 -> lstrip b = b ->
     re_sub comma " | " (a ++ w1 ++ String comma (w2 ++ b)) =
     (a ++ " | " ++ re_sub comma " | " b)%string) /\
  (forall s, contains_char comma s = false -> re_sub comma " | " s = s).
Proof.
  split; [| split; [| split; [| split]]].
  - intros Hobj Hex.
    pose proof (normalize_rewrites dt series Hobj Hex) as E.
    split; [exact E |].
    intros v Hin. rewrite E in Hin. apply in_map_iff in Hin as (x & <- & _).
    eexists. split; [reflexivity |]. now apply re_sub_removes.
  - intros Hno. apply normalize_keeps. now right.
  - intros Hobj. apply normalize_keeps. now left.
  - intros. now apply re_sub_piece.
  - intros. now apply re_sub_no_delim.
Qed.

(** C10, the claim as stated fails: a value of the column holds a comma,
    the column is of the string dtype that pandas 3 gives a column of
    strings, the test of line 523 is false and the view rewrites
    nothing. *)
Lemma comma_kept_in_string_column :
  let series := [Some "Price, too high"; None; Some "Other"] in
  (exists v, In (Some v) series /\ contains_char comma v = true) /\
  normalize_separator dtype_string series = series /\
  normalize_separator dtype_string series <>
    map (fun v => Some (re_sub comma " | " (fillna v))) series.
Proof.
  split; [| split].
  - exists "Price, too high". split; [now left | reflexivity].
  - reflexivity.
  - discriminate.
Qed.

(** In a column of dtype object a single-label result with a comma of its
    own is rewritten too, and the missing value of the same column becomes
    an empty string. *)
Example separator_normalization_ex :
  normalize_separator dtype_object
    [Some "Price, too high"; None; Some "Other"] =
  [Some "Price | too high"; Some ""; Some "Other"].
Proof. reflexivity. Qed.

(** *** Frequencies *)

Lemma frequency_sum_count_one (x : string) (table : list (string * nat)) :
  frequency_sum (count_one x table) = S (frequency_sum table).
Proof.
  induction table as [|[y n] table IH]; simpl; [reflexivity |].
  destruct (String.eqb y x); simpl; [reflexivity | rewrite IH; lia].
Qed.

Lemma frequency_sum_insert (row : string * nat) (table : list (string * nat)) :
  frequency_sum (insert_by_count row table) = snd row + frequency_sum table.
Proof.
  induction table as [|row' table IH]; simpl; [reflexivity |].
  destruct (snd row' <=? snd row)%nat; simpl; [reflexivity | rewrite IH; lia].
Qed.

Lemma frequency_sum_sorted (table : list (string * nat)) :
  frequency_sum (fold_right insert_by_count [] table) = frequency_sum table.
Proof.
  induction table as [|row table IH]; simpl; [reflexivity |].
  now rewrite frequency_sum_insert, IH.
Qed.

Lemma frequency_sum_counts (values : list string) :
  forall table,
    frequency_sum (fold_left (fun t x => count_one x t) values table) =
    length values + frequency_sum table.
Proof.
  induction values as [|x values IH]; intros table; simpl; [reflexivity |].
  rewrite IH, frequency_sum_count_one. lia.
Qed.

Lemma frequency_sum_value_counts (values : list string) :
  frequency_sum (value_counts values) = length values.
Proof.
  unfold value_counts.
  rewrite frequency_sum_sorted, frequency_sum_counts. simpl. lia.
Qed.

Lemma split_explode_length (values : list string) :
  length (split_explode values) =
  list_sum (map (fun s => length (re_split pipe s)) values).
Proof.
  induction values as [|s values IH]; simpl; [reflexivity |].
  unfold split_explode in *. simpl. now rewrite length_app, IH.
Qed.

Lemma dropna_codes_length (assigned_code : list (option string)) :
  length (dropna_codes assigned_code) = rows_with_code assigned_code.
Proof.
  induction assigned_code as [|[s|] rest IH]; cbn; [reflexivity | | exact IH].
  now rewrite IH.
Qed.

Lemma list_sum_cons (n : nat) (l : list nat) :
  list_sum (n :: l) = n + list_sum l.
Proof. reflexivity. Qed.

Lemma pieces_of_column (assigned_code : list (option string)) :
  list_sum (map (fun s => length (re_split pipe s))
              (dropna_codes assigned_code)) =
  list_sum (map labels_in_row assigned_code).
Proof.
  induction assigned_code as [|[s|] rest IH]; cbn [dropna_codes map];
    [reflexivity | |].
  - rewrite !list_sum_cons, IH, re_split_length. reflexivity.
  - rewrite list_sum_cons, IH. reflexivity.
Qed.

Lemma labels_of_joined_column (rows : list (option (list string))) :
  (forall labels, In (Some labels) rows ->
     labels <> [] /\ Forall (fun c => contains_char pipe c = false) labels) ->
  list_sum (map labels_in_row (joined_column rows)) = total_labels rows.
Proof.
  unfold joined_column, total_labels.
  induction rows as [|[labels|] rows IH]; intros H; cbn [map];
    [reflexivity | |].
  - rewrite !list_sum_cons, IH by (intros l Hl; apply H; now right).
    destruct (H labels (or_introl eq_refl)) as [Hne Hall].
    cbn [option_map labels_in_row].
    rewrite <- (re_split_join_length labels Hne Hall), re_split_length.
    reflexivity.
  - rewrite !list_sum_cons, IH by (intros l Hl; apply H; now right).
    reflexivity.
Qed.

(** C7.  The frequencies add up: in single-label mode to the number of rows
    of the column whose Assigned Code is not missing; in multi-label mode to
    the number of labels of those rows, where a row holds one label more
    than it has pipes.  For a column whose rows are the labels of a
    non-empty list each, joined with [" | "], none holding a pipe, that is
    the number of labels of all the lists together. *)
Theorem frequency_conservation (assigned_code : list (option string)) :
  frequency_sum (code_frequencies false assigned_code) =
    rows_with_code assigned_code /\
  frequency_sum (code_frequencies true assigned_code) =
    list_sum (map labels_in_row assigned_code) /\
  (forall rows : list (option (list string)),
     (forall labels, In (Some labels) rows ->
        labels <> [] /\
        Forall (fun c => contains_char pipe c = false) labels) ->
     frequency_sum (code_frequencies true (joined_column rows)) =
       total_labels rows).
Proof.
  assert (Hmulti : forall column,
            frequency_sum (code_frequencies true column) =
            list_sum (map labels_in_row column)).
  { intros column. unfold code_frequencies.
    rewrite frequency_sum_value_counts, split_explode_length.
    apply pieces_of_column. }
  split; [| split].
  - unfold code_frequencies. rewrite frequency_sum_value_counts.
    apply dropna_codes_length.
  - apply Hmulti.
  - intros rows Hrows. rewrite Hmulti.
    now apply labels_of_joined_column.
Qed.

(** Three rows with a code out of four, and four labels in them. *)
Example frequency_conservation_ex :
  let rows := [Some ["Price"; "Delivery"]; None; Some ["Price"];
               Some ["No Code Applied"]] in
  joined_column rows =
    [Some "Price | Delivery"; None; Some "Price"; Some "No Code Applied"] /\
  frequency_sum (code_frequencies false (joined_column rows)) = 3 /\
  frequency_sum (code_frequencies true (joined_column rows)) = 4 /\
  total_labels rows = 4.
Proof. repeat split. Qed.

(** Scenario C of the specification: the row ["Price | Delivery"] adds one
    to each of the two codes. *)
Example frequency_scenario_c :
  code_frequencies true [Some "Price | Delivery"; None; Some "Price"] =
  [("Price", 2); ("Delivery", 1)].
Proof. reflexivity. Qed.

(* ================================================================== *)
(** ** The embedding provider *)

(** The generator is NumPy's: seeded with 42, [np.random.rand] starts
    0.3745401188473625, 0.9507143064099162, 0.7319939418114051 (here as
    fractions of 2^53). *)
Example numpy_seed_42 :
  fst (MT19937.rand 3 (MT19937.mt19937_seed 42)) =
  [ Qmake 3373557479352566 9007199254740992;
    Qmake 8563273192166996 9007199254740992;
    Qmake 6593215287158609 9007199254740992 ].
Proof. vm_compute. reflexivity. Qed.

Lemma rand_length (n : nat) : forall st,
  length (fst (MT19937.rand n st)) = n.
Proof.
  induction n as [|n IH]; intros st; [reflexivity |].
  cbn [MT19937.rand].
  destruct (MT19937.mt19937_next_double st) as [x st1].
  specialize (IH st1). destruct (MT19937.rand n st1) as [xs st2].
  cbn [fst length] in *. congruence.
Qed.

Lemma embeddings_from_length (texts : list string) : forall st,
  length (embeddings_from st texts) = length texts.
Proof.
  induction texts as [|t texts IH]; intros st; [reflexivity |].
  cbn [embeddings_from].
  destruct (MT19937.rand 384 st) as [v st1]. cbn [length]. now rewrite IH.
Qed.

Lemma embeddings_from_width (texts : list string) : forall st,
  Forall (fun v => length v = 384) (embeddings_from st texts).
Proof.
  induction texts as [|t texts IH]; intros st; [constructor |].
  cbn [embeddings_from].
  pose proof (rand_length 384 st) as L.
  destruct (MT19937.rand 384 st) as [v st1]. constructor; [exact L | apply IH].
Qed.

Lemma embeddings_from_position (texts : list string) :
  forall (texts' : list string) st i,
    i < length texts -> i < length texts' ->
    nth_error (embeddings_from st texts) i =
    nth_error (embeddings_from st texts') i.
Proof.
  induction texts as [|t texts IH]; intros [|t' texts'] st i H H';
    cbn [length] in *; try lia.
  cbn [embeddings_from].
  destruct (MT19937.rand 384 st) as [v st1].
  destruct i as [|i]; [reflexivity |]. cbn [nth_error]. apply IH; lia.
Qed.

(** C3 (as amended).  [get_embeddings] returns one vector of 384 numbers
    per text, in order, and the same vectors at every call; but the vector
    at a position depends on the position alone: neither the text there,
    nor the other texts, nor the key or the model has a part in it. *)
Theorem embeddings_by_position (texts texts' : list string)
  (key key' model model' : string) :
  length (get_embeddings texts key model) = length texts /\
  Forall (fun v => length v = 384) (get_embeddings texts key model) /\
  (forall i, i < length texts -> i < length texts' ->
     nth_error (get_embeddings texts key model) i =
     nth_error (get_embeddings texts' key' model') i).
Proof.
  unfold get_embeddings. split; [apply embeddings_from_length |].
  split; [apply embeddings_from_width |].
  intros i H H'. now apply embeddings_from_position.
Qed.

(** C3, the claim as stated fails: the text ["a"] gets one vector when it
    stands first and another when it stands second. *)
Lemma same_text_other_vector :
  nth_error ["a"; "b"] 0 = Some "a" /\
  nth_error ["b"; "a"] 1 = Some "a" /\
  nth_error (get_embeddings ["a"; "b"] "key" "text-embedding-3-small") 0 <>
  nth_error (get_embeddings ["b"; "a"] "key" "text-embedding-3-small") 1.
Proof.
  split; [reflexivity |]. split; [reflexivity |].
  intros E. apply (f_equal (option_map (hd 0%Q))) in E.
  vm_compute in E. discriminate.
Qed.

(** X5.  Whatever up to three responses say, the vectors the provider gives
    them are pairwise closer than the radius 0.3 of the clusterer, in cosine
    distance: with neighbourhoods of two, such responses are neighbours of
    each other. *)
Theorem placeholder_vectors_close (texts : list string) (key model : string) :
  length texts <= 3 ->
  let vs := get_embeddings texts key model in
  forallb (fun u => forallb (cosine_closer (3 # 10) u) vs) vs = true.
Proof.
  intros Hlen.
  destruct texts as [|a [|b [|c [|d texts]]]];
    [reflexivity | | | | simpl in Hlen; lia];
    vm_compute; reflexivity.
Qed.

Lemma placeholder_vectors_close_witness :
  let vs :=
    get_embeddings ["Great price"; "great price"; "Too slow"] "key"
      "text-embedding-3-small" in
  forallb (fun u => forallb (cosine_closer (3 # 10) u) vs) vs = true.
Proof.
  apply (placeholder_vectors_close
           ["Great price"; "great price"; "Too slow"] "key"
           "text-embedding-3-small").
  simpl. lia.
Defined.

(* ================================================================== *)
(** ** Dictionaries *)

Section DictFacts.
Variables (K V : Type) (eqb : K -> K -> bool).
Hypothesis eqb_spec : forall a b : K, reflect (a = b) (eqb a b).

Lemma dict_set_fresh (d : dict K V) (k : K) (v : V) :
  ~ In k (keys d) -> dict_set eqb d k v = d ++ [(k, v)].
Proof.
  induction d as [|[k' v'] d IH]; simpl; intros H; [reflexivity |].
  destruct (eqb_spec k' k) as [-> | _]; [tauto |].
  rewrite IH by tauto. reflexivity.
Qed.

Lemma store_all_fresh (pairs : list (K * V)) : forall d : dict K V,
  NoDup (map fst pairs) ->
  (forall k, In k (map fst pairs) -> ~ In k (keys d)) ->
  store_all eqb d pairs = d ++ pairs.
Proof.
  induction pairs as [|[k v] pairs IH]; intros d Hnd Hfresh; simpl.
  - now rewrite app_nil_r.
  - inversion Hnd as [|? ? Hk Hnd']; subst.
    unfold store_all in *. simpl.
    rewrite dict_set_fresh by (apply Hfresh; now left).
    rewrite IH; [now rewrite <- app_assoc | exact Hnd' |].
    intros k' Hin. unfold keys. rewrite map_app, in_app_iff. simpl.
    intros [H | [<- | []]]; [| tauto].
    apply (Hfresh k'); [now right | exact H].
Qed.

Lemma dict_get_in (d : dict K V) (k : K) (v : V) :
  NoDup (keys d) -> In (k, v) d -> dict_get eqb d k = Some v.
Proof.
  induction d as [|[k' v'] d IH]; simpl; intros Hnd Hin; [tauto |].
  inversion Hnd as [|? ? Hk Hnd']; subst.
  destruct (eqb_spec k' k) as [-> | Hne].
  - destruct Hin as [E | Hin]; [congruence |].
    exfalso. apply Hk. unfold keys. apply in_map_iff. now exists (k, v).
  - destruct Hin as [E | Hin]; [congruence | now apply IH].
Qed.

Lemma dict_get_some (d : dict K V) (k : K) (v : V) :
  dict_get eqb d k = Some v -> In (k, v) d.
Proof.
  induction d as [|[k' v'] d IH]; simpl; [discriminate |].
  destruct (eqb_spec k' k) as [-> | _].
  - intros E. injection E as ->. now left.
  - intros E. right. now apply IH.
Qed.

Lemma dict_get_none (d : dict K V) (k : K) :
  ~ In k (keys d) -> dict_get eqb d k = None.
Proof.
  induction d as [|[k' v'] d IH]; simpl; intros H; [reflexivity |].
  destruct (eqb_spec k' k) as [-> | _]; [tauto | apply IH; tauto].
Qed.

Lemma dict_of_pairs_nodup (pairs : list (K * V)) :
  NoDup (map fst pairs) -> dict_of_pairs eqb pairs = pairs.
Proof.
  intros H. unfold dict_of_pairs.
  change (store_all eqb [] pairs = pairs).
  rewrite store_all_fresh; [reflexivity | exact H | intros k _ []].
Qed.

End DictFacts.

(** ** Lists *)

Lemma map_fst_combine (A B : Type) (l : list A) (l' : list B) :
  length l = length l' -> map fst (combine l l') = l.
Proof.
  revert l'. induction l as [|a l IH]; intros [|b l'] H; simpl in *;
    try discriminate; [reflexivity |].
  now rewrite IH by lia.
Qed.

Lemma map_snd_combine (A B : Type) (l : list A) (l' : list B) :
  length l = length l' -> map snd (combine l l') = l'.
Proof.
  revert l'. induction l as [|a l IH]; intros [|b l'] H; simpl in *;
    try discriminate; [reflexivity |].
  now rewrite IH by lia.
Qed.

Lemma in_combine_map_l (A B C : Type) (f : A -> C) (l : list A)
  (l' : list B) (a : A) (b : B) :
  In (a, b) (combine l l') -> In (f a, b) (combine (map f l) l').
Proof.
  revert l'. induction l as [|x l IH]; intros [|y l'] H; simpl in *;
    try tauto.
  destruct H as [E | H]; [left; congruence | right; now apply IH].
Qed.

Lemma in_combine_nth (A B : Type) (l : list A) (l' : list B) (a : A) (b : B) :
  In (a, b) (combine l l') <->
  exists i, nth_error l i = Some a /\ nth_error l' i = Some b.
Proof.
  revert l'. induction l as [|x l IH]; intros [|y l']; simpl.
  - split; [tauto | intros ([|i] & H & _); discriminate].
  - split; [tauto | intros ([|i] & H & _); discriminate].
  - split; [tauto | intros ([|i] & _ & H); discriminate].
  - rewrite IH. split.
    + intros [E | (i & Hi)]; [exists 0; simpl; split; congruence |].
      now exists (S i).
    + intros ([|i] & H1 & H2); simpl in *; [left; congruence |].
      right. now exists i.
Qed.

Lemma ramp_length (f : Z -> Z) (n : nat) : forall from,
  length (ramp f from n) = n.
Proof. induction n as [|n IH]; intros from; simpl; [| rewrite IH]; auto. Qed.

Lemma ramp_app (f : Z -> Z) (n m : nat) : forall from,
  ramp f from (n + m) = ramp f from n ++ ramp f (from + Z.of_nat n)%Z m.
Proof.
  induction n as [|n IH]; intros from; simpl.
  - f_equal. lia.
  - rewrite IH. do 3 f_equal. lia.
Qed.

Lemma ramp_In (f : Z -> Z) (n : nat) : forall from x,
  In x (ramp f from n) ->
  exists k, (from <= k < from + Z.of_nat n)%Z /\ x = f k.
Proof.
  induction n as [|n IH]; intros from x; simpl; [tauto |].
  intros [<- | H].
  - exists from. split; [lia | reflexivity].
  - apply IH in H as (k & Hk & ->). exists k. split; [lia | reflexivity].
Qed.

Lemma ramp_sorted (f : Z -> Z) (n : nat) : forall from,
  (forall a b, (from <= a <= b)%Z -> (b < from + Z.of_nat n)%Z ->
               (f a <= f b)%Z) ->
  StronglySorted Z.le (ramp f from n).
Proof.
  induction n as [|n IH]; intros from Hf; simpl; constructor.
  - apply IH. intros a b Ha Hb. apply Hf; lia.
  - apply Forall_forall. intros x Hx.
    apply ramp_In in Hx as (k & Hk & ->). apply Hf; lia.
Qed.

Lemma combine_app_eq (A B : Type) (l1 l2 : list A) (l1' l2' : list B) :
  length l1 = length l1' ->
  combine (l1 ++ l2) (l1' ++ l2') = combine l1 l1' ++ combine l2 l2'.
Proof.
  revert l1'. induction l1 as [|a l1 IH]; intros [|b l1'] H; simpl in *;
    try discriminate; [reflexivity |].
  now rewrite IH by lia.
Qed.

Lemma NoDup_app_disjoint (A : Type) (l1 l2 : list A) (k : A) :
  NoDup (l1 ++ l2) -> In k l1 -> In k l2 -> False.
Proof.
  induction l1 as [|a l1 IH]; simpl; intros Hnd H1 H2; [tauto |].
  inversion Hnd as [|? ? Ha Hl]; subst.
  destruct H1 as [-> | H1]; [| now apply IH].
  apply Ha. apply in_or_app. now right.
Qed.

(* ================================================================== *)
(** ** The loops of the handler *)

Section RunFacts.
Variable Vec : Type.
Variable w : World Vec.
Variable cfg : Config.
Variable txt : string.

Lemma classify_item_eq (st : State) (r : string) :
  classify_item w cfg txt st r =
  let call := classify_item_at w cfg txt (length (api_log st)) r in
  (result_of call,
   after st (results_cache st) [] [call] [(r, result_of call)] []).
Proof.
  unfold classify_item.
  destruct (classify_item_at w cfg txt (length (api_log st)) r)
    as [[rq rp] res].
  reflexivity.
Qed.

Lemma calls_from_length (rs : list string) : forall base,
  length (calls_from w cfg txt base rs) = length rs.
Proof. induction rs as [|r rs IH]; intros base; simpl; auto. Qed.

Lemma calls_from_app (rs rs' : list string) : forall base,
  calls_from w cfg txt base (rs ++ rs') =
  calls_from w cfg txt base rs ++
  calls_from w cfg txt (base + length rs) rs'.
Proof.
  induction rs as [|r rs IH]; intros base; simpl.
  - now rewrite Nat.add_0_r.
  - rewrite IH. do 3 f_equal. lia.
Qed.

Lemma items_from_app (rs rs' : list string) (base : nat) :
  items_from w cfg txt base (rs ++ rs') =
  items_from w cfg txt base rs ++
  items_from w cfg txt (base + length rs) rs'.
Proof.
  unfold items_from. rewrite calls_from_app, map_app.
  rewrite combine_app_eq; [reflexivity |].
  now rewrite length_map, calls_from_length.
Qed.

Lemma items_from_keys (rs : list string) (base : nat) :
  map fst (items_from w cfg txt base rs) = rs.
Proof.
  unfold items_from. apply map_fst_combine.
  now rewrite length_map, calls_from_length.
Qed.

Lemma items_from_length (rs : list string) (base : nat) :
  length (items_from w cfg txt base rs) = length rs.
Proof. now rewrite <- (items_from_keys rs base) at 2; rewrite length_map. Qed.

(** Lines 509-511. *)
Lemma classify_each_spec (len : Z) (rs : list string) : forall st i1,
  classify_each w cfg txt len i1 rs st =
  let base := length (api_log st) in
  after st
    (store_all String.eqb (results_cache st) (items_from w cfg txt base rs))
    (items_from w cfg txt base rs)
    (calls_from w cfg txt base rs)
    (items_from w cfg txt base rs)
    (ramp (fun i => pct_items w i len) i1 (length rs)).
Proof.
  induction rs as [|r rs IH]; intros st i1.
  - destruct st; reflexivity.
  - cbn [classify_each]. rewrite classify_item_eq. cbv beta iota zeta.
    rewrite IH. cbv zeta.
    unfold after, report, cache_store, items_from, store_all.
    cbn [results_cache cache_writes api_log classified progress
         calls_from length map combine fold_left fst snd rev ramp].
    rewrite !length_app. cbn [length rev app].
    replace (length (api_log st) + 1) with (S (length (api_log st))) by lia.
    f_equal; rewrite <- ?app_assoc; reflexivity.
Qed.

(** Lines 503-505. *)
Lemma classify_outliers_spec (total : Z) (rs : list string) :
  forall st calls_made,
  classify_outliers w cfg txt total rs calls_made st =
  let base := length (api_log st) in
  ((calls_made + Z.of_nat (length rs))%Z,
   after st
     (store_all String.eqb (results_cache st) (items_from w cfg txt base rs))
     (items_from w cfg txt base rs)
     (calls_from w cfg txt base rs)
     (items_from w cfg txt base rs)
     (ramp (fun c => (15 + pct_calls w c total)%Z) (calls_made + 1)%Z
        (length rs))).
Proof.
  induction rs as [|r rs IH]; intros st calls_made.
  - destruct st; cbn. f_equal. lia.
  - cbn [classify_outliers]. rewrite classify_item_eq. cbv beta iota zeta.
    rewrite IH. cbv zeta.
    unfold after, report, cache_store, items_from, store_all.
    cbn [results_cache cache_writes api_log classified progress
         calls_from length map combine fold_left fst snd rev ramp].
    rewrite !length_app. cbn [length rev app].
    replace (length (api_log st) + 1) with (S (length (api_log st))) by lia.
    f_equal; [lia |].
    f_equal; rewrite <- ?app_assoc; reflexivity.
Qed.

(** Lines 497-502, when every cluster id has a first member. *)
Lemma classify_clusters_spec (rtc : dict string Z) (total : Z)
  (ids : list Z) : forall reps cc calls_made st,
  Forall2 (fun c r => representative rtc c = Some r)
    (cluster_ids_of ids) reps ->
  classify_clusters w cfg txt rtc total ids cc calls_made st =
  let base := length (api_log st) in
  inl (store_all Z.eqb cc
         (combine (cluster_ids_of ids)
            (map result_of (calls_from w cfg txt base reps))),
       (calls_made + Z.of_nat (length reps))%Z,
       after st (results_cache st) []
         (calls_from w cfg txt base reps)
         (items_from w cfg txt base reps)
         (ramp (fun c => (15 + pct_calls w c total)%Z) (calls_made + 1)%Z
            (length reps))).
Proof.
  induction ids as [|c ids IH]; intros reps cc calls_made st H.
  - inversion H; subst. destruct st; cbn. now rewrite Z.add_0_r.
  - cbn [classify_clusters]. unfold cluster_ids_of in *. cbn [filter] in *.
    destruct (is_outlier c); cbn [negb] in *.
    + now apply IH.
    + inversion H as [|? r ? reps' Hr Hrest]; subst.
      rewrite Hr. rewrite classify_item_eq. cbv beta iota zeta.
      rewrite (IH reps') by exact Hrest. cbv zeta.
      unfold after, report, items_from, store_all.
      cbn [results_cache cache_writes api_log classified progress
           calls_from length map combine fold_left fst snd rev ramp].
      rewrite !length_app. cbn [length rev app].
      replace (length (api_log st) + 1) with (S (length (api_log st)))
        by lia.
      f_equal. f_equal; [f_equal; lia |].
      f_equal; rewrite <- ?app_assoc; reflexivity.
Qed.

End RunFacts.

Section AfterFacts.

Lemma after_after (st : State) c1 w1 k1 i1 p1 c2 w2 k2 i2 p2 :
  after (after st c1 w1 k1 i1 p1) c2 w2 k2 i2 p2 =
  after st c2 (w1 ++ w2) (k1 ++ k2) (i1 ++ i2) (p1 ++ p2).
Proof.
  unfold after. cbn [results_cache cache_writes api_log classified progress].
  rewrite map_app, !rev_app_distr, <- !app_assoc. reflexivity.
Qed.

Lemma report_after (v : Z) (st : State) :
  report v st = after st (results_cache st) [] [] [] [v].
Proof. reflexivity. Qed.

Lemma propagate_spec (cc : dict Z string) (items : list (string * Z)) :
  forall st,
  (forall r l, In (r, l) items -> is_outlier l = false ->
               dict_get Z.eqb cc l <> None) ->
  propagate cc items st =
  Some (after st
          (store_all String.eqb (results_cache st) (member_pairs cc items))
          (member_pairs cc items) [] [] []).
Proof.
  induction items as [|[r l] items IH]; intros st H.
  - destruct st; reflexivity.
  - cbn [propagate member_pairs flat_map fst snd].
    destruct (is_outlier l) eqn:Ho.
    + apply IH. intros r' l' Hin. apply (H r'). now right.
    + destruct (dict_get Z.eqb cc l) as [v |] eqn:Hg.
      * rewrite IH by (intros r' l' Hin; apply (H r'); now right).
        unfold after, cache_store, store_all, member_pairs.
        cbn [results_cache cache_writes api_log classified progress
             app fold_left fst snd rev map].
        f_equal. f_equal. now rewrite <- app_assoc.
      * exfalso. apply (H r l); [now left | exact Ho | exact Hg].
Qed.

End AfterFacts.

(* ================================================================== *)
(** ** The clustering branch *)

Lemma NoDup_map_filter (A B : Type) (key : A -> B) (keep : A -> bool)
  (items : list A) (Hnd : NoDup (map key items)) :
  NoDup (map key (filter keep items)).
Proof.
  induction items as [|a items IH]; simpl in *; [constructor |].
  inversion Hnd as [|? ? Ha Hl]; subst.
  destruct (keep a); simpl; [constructor |]; auto.
  intros Hin. apply Ha. apply in_map_iff in Hin as (x & E & Hx).
  apply filter_In in Hx as [Hx _]. apply in_map_iff. now exists x.
Qed.

Lemma NoDup_keys_functional (A B : Type) (l : list (A * B)) (k : A)
  (v1 v2 : B) :
  NoDup (map fst l) -> In (k, v1) l -> In (k, v2) l -> v1 = v2.
Proof.
  induction l as [|[a b] l IH]; simpl; intros Hnd H1 H2; [tauto |].
  inversion Hnd as [|? ? Ha Hl]; subst.
  assert (Hk : forall v, In (k, v) l -> In k (map fst l))
    by (intros v Hv; apply in_map_iff; now exists (k, v)).
  destruct H1 as [E1 | H1], H2 as [E2 | H2].
  - congruence.
  - injection E1 as -> ->. exfalso. eauto.
  - injection E2 as -> ->. exfalso. eauto.
  - eauto.
Qed.

Lemma filter_partition_perm (A : Type) (p : A -> bool) (l : list A) :
  Permutation (filter p l ++ filter (fun x => negb (p x)) l) l.
Proof.
  induction l as [|a l IH]; simpl; [constructor |].
  destruct (p a); simpl.
  - now constructor.
  - symmetry. apply Permutation_cons_app. now symmetry.
Qed.

Lemma outlier_ids_length (ids : list Z) :
  NoDup ids ->
  length (filter is_outlier ids) = if existsb is_outlier ids then 1 else 0.
Proof.
  induction 1 as [|c ids Hc Hnd IH]; [reflexivity |].
  cbn [filter existsb].
  destruct (is_outlier c) eqn:Ec; cbn [orb length]; [| exact IH].
  rewrite IH. apply Z.eqb_eq in Ec. subst c.
  destruct (existsb is_outlier ids) eqn:E; [| reflexivity].
  apply existsb_exists in E as (x & Hx & Ex).
  apply Z.eqb_eq in Ex. subst. tauto.
Qed.

Lemma existsb_outlier_In (l : list Z) :
  existsb is_outlier l = true <-> In (-1)%Z l.
Proof.
  rewrite existsb_exists. unfold is_outlier. split.
  - intros (x & Hx & E). apply Z.eqb_eq in E. now subst.
  - intros H. exists (-1)%Z. split; [exact H | reflexivity].
Qed.

Lemma n_clusters_of_length (ids labels : list Z) :
  enumerates ids labels ->
  n_clusters_of ids labels = Z.of_nat (length (cluster_ids_of ids)).
Proof.
  intros [Hnd Hin]. unfold n_clusters_of, cluster_ids_of.
  pose proof (filter_length is_outlier ids) as L.
  rewrite (outlier_ids_length _ Hnd) in L.
  assert (E : existsb is_outlier labels = existsb is_outlier ids).
  { apply eq_true_iff_eq. rewrite !existsb_outlier_In. symmetry. apply Hin. }
  rewrite E. destruct (existsb is_outlier ids); lia.
Qed.

Lemma representative_exists (pairs : list (string * Z)) (r : string) (c : Z) :
  In (r, c) pairs -> exists r', representative pairs c = Some r'.
Proof.
  intros Hin. unfold representative.
  destruct (find (fun item => (snd item =? c)%Z) pairs) as [[r' c'] |] eqn:F.
  - now exists r'.
  - apply (find_none _ _ F) in Hin. simpl in Hin.
    rewrite Z.eqb_refl in Hin. discriminate.
Qed.

Lemma label_has_member (rs : list string) (labels : list Z) (c : Z) :
  length labels = length rs -> In c labels ->
  exists r, In (r, c) (combine rs labels).
Proof.
  intros Hlen Hin. apply In_nth_error in Hin as (i & Hi).
  assert (Hlt : i < length rs).
  { rewrite <- Hlen. apply nth_error_Some. congruence. }
  destruct (nth_error rs i) as [r |] eqn:Hr.
  - exists r. apply in_combine_nth. now exists i.
  - apply nth_error_None in Hr. lia.
Qed.

Lemma member_pairs_keys (cc : dict Z string) (items : list (string * Z)) :
  (forall r l, In (r, l) items -> is_outlier l = false ->
               dict_get Z.eqb cc l <> None) ->
  map fst (member_pairs cc items) =
  map fst (filter (fun item => negb (is_outlier (snd item))) items).
Proof.
  induction items as [|[r l] items IH]; intros H; [reflexivity |].
  cbn [member_pairs flat_map filter fst snd].
  fold (member_pairs cc items).
  assert (IH' := IH (fun r' l' Hin => H r' l' (or_intror Hin))).
  destruct (is_outlier l) eqn:Ho; cbn [negb]; [exact IH' |].
  destruct (dict_get Z.eqb cc l) eqn:Hg.
  - cbn. now rewrite IH'.
  - exfalso. apply (H r l); [now left | exact Ho | exact Hg].
Qed.

Lemma member_pairs_In (cc : dict Z string) (items : list (string * Z))
  (r : string) (v : string) :
  In (r, v) (member_pairs cc items) <->
  exists l, In (r, l) items /\ is_outlier l = false /\
            dict_get Z.eqb cc l = Some v.
Proof.
  unfold member_pairs. rewrite in_flat_map. split.
  - intros ([r' l] & Hin & Hx). cbn [fst snd] in Hx.
    destruct (is_outlier l) eqn:Ho; [destruct Hx |].
    destruct (dict_get Z.eqb cc l) eqn:Hg; [| destruct Hx].
    destruct Hx as [E | []]. injection E as -> ->. now exists l.
  - intros (l & Hin & Ho & Hg). exists (r, l). split; [exact Hin |].
    cbn [fst snd]. rewrite Ho, Hg. now left.
Qed.

Lemma dict_get_key (cc : dict Z string) (l : Z) :
  In l (keys cc) -> dict_get Z.eqb cc l <> None.
Proof.
  induction cc as [|[k v] cc IH]; simpl; [tauto |].
  intros [-> | H]; [now rewrite Z.eqb_refl |].
  destruct (k =? l)%Z; [discriminate | now apply IH].
Qed.

Lemma first_label_counts (rs : list string) (labels : list Z) :
  length labels = length rs -> rs <> [] ->
  (exists l, In l labels /\ is_outlier l = false) \/
  outliers_of rs labels <> [].
Proof.
  destruct rs as [|r rs], labels as [|l labels]; try discriminate;
    intros _ H; [congruence |].
  destruct (is_outlier l) eqn:Ho.
  - right. unfold outliers_of. cbn [combine filter snd]. rewrite Ho.
    discriminate.
  - left. exists l. split; [now left | exact Ho].
Qed.

Section ClusteredRun.
Variable Vec : Type.
Variable w : World Vec.
Variable cfg : Config.
Variable txt : string.
Variable rs : list string.
Hypothesis Hnd : NoDup rs.
Hypothesis Hne : rs <> [].
Hypothesis Hc : external_contract w cfg rs.

Lemma labels_length : length (labels_of w cfg rs) = length rs.
Proof. apply Hc. Qed.

Lemma ids_enumerate :
  enumerates (set_order w (labels_of w cfg rs)) (labels_of w cfg rs).
Proof. apply Hc. Qed.

Lemma pairs_keys : map fst (combine rs (labels_of w cfg rs)) = rs.
Proof. apply map_fst_combine. symmetry. apply labels_length. Qed.

Lemma pairs_nodup : NoDup (map fst (combine rs (labels_of w cfg rs))).
Proof. rewrite pairs_keys. exact Hnd. Qed.

Lemma cluster_ids_nodup :
  NoDup (cluster_ids_of (set_order w (labels_of w cfg rs))).
Proof. apply NoDup_filter, ids_enumerate. Qed.

Lemma cluster_id_spec (c : Z) :
  In c (cluster_ids_of (set_order w (labels_of w cfg rs))) <->
  In c (labels_of w cfg rs) /\ is_outlier c = false.
Proof.
  unfold cluster_ids_of. rewrite filter_In, negb_true_iff.
  now rewrite (proj2 ids_enumerate c).
Qed.

Lemma representatives_ok :
  Forall2
    (fun c r => representative (combine rs (labels_of w cfg rs)) c = Some r)
    (cluster_ids_of (set_order w (labels_of w cfg rs)))
    (representatives rs (labels_of w cfg rs)
       (set_order w (labels_of w cfg rs))).
Proof.
  unfold representatives.
  assert (H : forall c,
    In c (cluster_ids_of (set_order w (labels_of w cfg rs))) ->
    exists r, representative (combine rs (labels_of w cfg rs)) c = Some r).
  { intros c Hin. apply cluster_id_spec in Hin as [Hin _].
    destruct (label_has_member rs _ c labels_length Hin) as (r & Hr).
    now apply representative_exists with r. }
  induction (cluster_ids_of (set_order w (labels_of w cfg rs)))
    as [|c l IH]; [constructor |].
  cbn [map]. constructor.
  - unfold rep_or_empty. destruct (H c (or_introl eq_refl)) as (r & ->).
    reflexivity.
  - apply IH. intros c' Hc'. apply H. now right.
Qed.

Lemma representatives_length :
  length (representatives rs (labels_of w cfg rs)
            (set_order w (labels_of w cfg rs))) =
  length (cluster_ids_of (set_order w (labels_of w cfg rs))).
Proof. unfold representatives. apply length_map. Qed.

Lemma cluster_codes_keys :
  keys (cluster_codes w cfg txt rs) =
  cluster_ids_of (set_order w (labels_of w cfg rs)).
Proof.
  unfold cluster_codes, keys. apply map_fst_combine.
  now rewrite length_map, calls_from_length, representatives_length.
Qed.

Lemma cluster_codes_defined (r : string) (l : Z) :
  In (r, l) (combine rs (labels_of w cfg rs)) -> is_outlier l = false ->
  dict_get Z.eqb (cluster_codes w cfg txt rs) l <> None.
Proof.
  intros Hin Ho. apply dict_get_key. rewrite cluster_codes_keys.
  apply cluster_id_spec. split; [| exact Ho].
  apply in_combine_r in Hin. exact Hin.
Qed.

Lemma clustered_cache_keys :
  keys (clustered_cache w cfg txt rs) =
  map fst (filter (fun item => is_outlier (snd item))
             (combine rs (labels_of w cfg rs)))
  ++ map fst (filter (fun item => negb (is_outlier (snd item)))
                (combine rs (labels_of w cfg rs))).
Proof.
  unfold clustered_cache, keys. rewrite map_app, items_from_keys.
  rewrite member_pairs_keys by apply cluster_codes_defined.
  reflexivity.
Qed.

Lemma clustered_cache_perm :
  Permutation (keys (clustered_cache w cfg txt rs)) rs.
Proof.
  rewrite clustered_cache_keys, <- map_app.
  pose proof (Permutation_map fst
    (filter_partition_perm _ (fun item : string * Z => is_outlier (snd item))
       (combine rs (labels_of w cfg rs)))) as P.
  now rewrite pairs_keys in P.
Qed.

Lemma clustered_cache_nodup : NoDup (keys (clustered_cache w cfg txt rs)).
Proof.
  apply (Permutation_NoDup (l := rs)); [| exact Hnd].
  symmetry. apply clustered_cache_perm.
Qed.

Lemma some_call_needed :
  0 < length (call_order rs (labels_of w cfg rs)
                (set_order w (labels_of w cfg rs))).
Proof.
  unfold call_order. rewrite length_app, representatives_length.
  destruct (first_label_counts rs (labels_of w cfg rs) labels_length Hne)
    as [(l & Hin & Ho) | Hout].
  - assert (Hl : In l (cluster_ids_of (set_order w (labels_of w cfg rs))))
      by now apply cluster_id_spec.
    destruct (cluster_ids_of (set_order w (labels_of w cfg rs)));
      [destruct Hl | cbn [length]; lia].
  - destruct (outliers_of rs (labels_of w cfg rs));
      [congruence | cbn [length]; lia].
Qed.

(** The clustering branch ends, and in the state [clustered_state]. *)
Lemma classify_clustered_spec :
  classify_clustered w cfg txt rs initial_state =
  Finished (clustered_state w cfg txt rs).
Proof.
  pose proof labels_length as Hlen.
  pose proof representatives_length as Hreps.
  pose proof some_call_needed as Hpos.
  unfold classify_clustered.
  fold (labels_of w cfg rs).
  destruct (embed w rs (api_key cfg)) as [|v E] eqn:HE.
  { destruct Hc as (L & _). rewrite HE in L. destruct rs; [congruence |].
    discriminate. }
  rewrite (n_clusters_of_length _ _ ids_enumerate).
  set (labels := labels_of w cfg rs) in *.
  set (ids := set_order w labels) in *.
  set (reps := representatives rs labels ids) in *.
  assert (Htotal :
    (Z.of_nat (length (cluster_ids_of ids))
     + Z.of_nat (length (outliers_of rs labels)))%Z
    = Z.of_nat (length (call_order rs labels ids))).
  { unfold call_order. fold reps. rewrite length_app. lia. }
  rewrite Htotal.
  destruct (Z.eqb_spec (Z.of_nat (length (call_order rs labels ids))) 0)
    as [Hz | _]; [lia |].
  rewrite (dict_of_pairs_nodup _ _ _ String.eqb_spec) by apply pairs_nodup.
  rewrite (classify_clusters_spec _ w cfg txt _ _ _ _ _ _ _ representatives_ok).
  cbv beta iota zeta.
  rewrite classify_outliers_spec. cbv beta iota zeta.
  fold labels ids reps.
  assert (Hbase0 :
    length (api_log (report 15 (report 5 initial_state))) = 0)
    by reflexivity.
  rewrite Hbase0.
  assert (Hcc :
    store_all Z.eqb []
      (combine (cluster_ids_of ids)
         (map result_of (calls_from w cfg txt 0 reps)))
    = cluster_codes w cfg txt rs).
  { rewrite (store_all_fresh _ _ _ Z.eqb_spec); [reflexivity | | intros k _ []].
    rewrite map_fst_combine; [apply cluster_ids_nodup |].
    now rewrite length_map, calls_from_length. }
  rewrite Hcc.
  rewrite propagate_spec by apply cluster_codes_defined.
  f_equal.
  rewrite !report_after, !after_after.
  unfold after, clustered_state. fold labels ids.
  cbn [results_cache cache_writes api_log classified progress initial_state
       app rev map].
  rewrite !app_nil_r.
  assert (Hbase1 :
    length (rev (map fst (calls_from w cfg txt 0 reps))) = length reps)
    by now rewrite length_rev, length_map, calls_from_length.
  rewrite Hbase1.
  assert (Hcache :
    store_all String.eqb
      (store_all String.eqb []
         (items_from w cfg txt (length reps) (outliers_of rs labels)))
      (member_pairs (cluster_codes w cfg txt rs) (combine rs labels))
    = clustered_cache w cfg txt rs).
  { pose proof clustered_cache_nodup as Hk.
    unfold clustered_cache, keys in Hk. fold labels ids reps in Hk.
    rewrite map_app in Hk.
    rewrite (store_all_fresh _ _ _ String.eqb_spec) with (d := []);
      [| eapply NoDup_app_remove_r; exact Hk | intros k _ []].
    cbn [app].
    rewrite (store_all_fresh _ _ _ String.eqb_spec);
      [reflexivity | eapply NoDup_app_remove_l; exact Hk |].
    intros k Hk2 Hk1.
    exact (NoDup_app_disjoint _ _ _ k Hk Hk1 Hk2). }
  rewrite Hcache.
  unfold call_order. fold reps.
  rewrite calls_from_app, items_from_app, map_app, length_app, ramp_app.
  cbn [Nat.add].
  replace (0 + 1)%Z with 1%Z by lia.
  replace (0 + Z.of_nat (length reps) + 1)%Z
    with (1 + Z.of_nat (length reps))%Z by lia.
  unfold clustered_cache. fold labels ids reps.
  now rewrite <- map_app.
Qed.

End ClusteredRun.

Lemma in_combine_map_l_inv (A B C : Type) (f : A -> C) (l : list A)
  (l' : list B) (c : C) (b : B) :
  In (c, b) (combine (map f l) l') ->
  exists a, c = f a /\ In (a, b) (combine l l').
Proof.
  revert l'. induction l as [|x l IH]; intros [|y l'] H; simpl in *;
    try tauto.
  destruct H as [E | H].
  - injection E as <- <-. exists x. split; [reflexivity | now left].
  - apply IH in H as (a & -> & H). exists a. split; [reflexivity | now right].
Qed.

Lemma find_first (A : Type) (f : A -> bool) (l : list A) (x : A) :
  find f l = Some x ->
  exists i, nth_error l i = Some x /\ f x = true /\
            forall j y, j < i -> nth_error l j = Some y -> f y = false.
Proof.
  induction l as [|a l IH]; simpl; [discriminate |].
  destruct (f a) eqn:Fa.
  - intros E. injection E as ->. exists 0. repeat split; [exact Fa |].
    intros j y Hj. lia.
  - intros E. apply IH in E as (i & Hi & Hx & Hbefore).
    exists (S i). repeat split; [exact Hi | exact Hx |].
    intros [|j] y Hj Hy; simpl in Hy; [congruence |].
    apply (Hbefore j); [lia | exact Hy].
Qed.

Lemma nth_error_combine (A B : Type) (l : list A) (l' : list B) (i : nat)
  (a : A) (b : B) :
  nth_error (combine l l') i = Some (a, b) <->
  nth_error l i = Some a /\ nth_error l' i = Some b.
Proof.
  revert l' i. induction l as [|x l IH]; intros [|y l'] [|i]; simpl;
    try (split; [discriminate | intros [? ?]; discriminate]).
  - split; [intros E; injection E as -> ->; auto |].
    intros [E1 E2]. congruence.
  - apply IH.
Qed.

(** The representative chosen by the handler is the first member with the
    cluster's label. *)
Lemma representative_first (rs : list string) (labels : list Z) (c : Z)
  (rep : string) :
  length labels = length rs ->
  representative (combine rs labels) c = Some rep ->
  first_member rs labels c rep.
Proof.
  intros Hlen H. unfold representative in H.
  destruct (find (fun item => (snd item =? c)%Z) (combine rs labels))
    as [[r l] |] eqn:F; [| discriminate].
  injection H as ->.
  apply find_first in F as (i & Hi & Hx & Hbefore).
  cbn [snd] in Hx. apply Z.eqb_eq in Hx. subst l.
  apply nth_error_combine in Hi as [Hr Hl].
  exists i. repeat split; [exact Hr | exact Hl |].
  intros j Hj Hc.
  assert (Hlt : j < length rs).
  { assert (i < length rs) by (apply nth_error_Some; congruence). lia. }
  destruct (nth_error rs j) as [rj |] eqn:Hrj;
    [| apply nth_error_None in Hrj; lia].
  assert (Hf := Hbefore j (rj, c) Hj).
  rewrite nth_error_combine in Hf. specialize (Hf (conj Hrj Hc)).
  cbn [snd] in Hf. rewrite Z.eqb_refl in Hf. discriminate.
Qed.

Lemma representative_member (pairs : list (string * Z)) (c : Z)
  (rep : string) :
  representative pairs c = Some rep -> In (rep, c) pairs.
Proof.
  unfold representative.
  destruct (find (fun item => (snd item =? c)%Z) pairs) as [[r l] |] eqn:F;
    [| discriminate].
  intros E. injection E as ->. apply find_some in F as [Hin Hl].
  cbn [snd] in Hl. apply Z.eqb_eq in Hl. now subst.
Qed.

Lemma filter_none (A : Type) (f : A -> bool) (l : list A) :
  (forall x, In x l -> f x = false) -> filter f l = [].
Proof.
  induction l as [|a l IH]; simpl; intros H; [reflexivity |].
  rewrite (H a (or_introl eq_refl)). apply IH. intros x Hx. apply H.
  now right.
Qed.

Lemma filter_key_unique (l : list (string * string)) (k v : string) :
  NoDup (map fst l) -> In (k, v) l ->
  filter (fun kv => String.eqb (fst kv) k) l = [(k, v)].
Proof.
  induction l as [|[a b] l IH]; simpl; intros Hnd Hin; [tauto |].
  inversion Hnd as [|? ? Ha Hl]; subst.
  destruct (String.eqb_spec a k) as [-> | Hne].
  - destruct Hin as [E | Hin].
    + injection E as ->. f_equal.
      apply filter_none. intros [a' b'] Hx. cbn [fst].
      destruct (String.eqb_spec a' k) as [-> | _]; [| reflexivity].
      exfalso. apply Ha. apply in_map_iff. now exists (k, b').
    + exfalso. apply Ha. apply in_map_iff. now exists (k, v).
  - destruct Hin as [E | Hin]; [congruence | now apply IH].
Qed.

Section ClusteredFacts.
Variable Vec : Type.
Variable w : World Vec.
Variable cfg : Config.
Variable txt : string.
Variable rs : list string.
Hypothesis Hnd : NoDup rs.
Hypothesis Hne : rs <> [].
Hypothesis Hc : external_contract w cfg rs.

(** A clustered response holds the string its cluster's representative was
    classified with. *)
Lemma member_code (r : string) (c : Z) :
  In (r, c) (combine rs (labels_of w cfg rs)) -> is_outlier c = false ->
  exists rep code,
    representative (combine rs (labels_of w cfg rs)) c = Some rep /\
    In (rep, code)
       (items_from w cfg txt 0
          (call_order rs (labels_of w cfg rs)
             (set_order w (labels_of w cfg rs)))) /\
    dict_get Z.eqb (cluster_codes w cfg txt rs) c = Some code /\
    dict_get String.eqb (clustered_cache w cfg txt rs) r = Some code.
Proof.
  intros Hin Ho.
  destruct (representative_exists _ _ _ Hin) as (rep & Hrep).
  assert (Hk : In c (keys (cluster_codes w cfg txt rs))).
  { rewrite (cluster_codes_keys _ w cfg txt rs).
    apply (cluster_id_spec _ w cfg rs Hc). split; [| exact Ho].
    now apply in_combine_r in Hin. }
  unfold keys in Hk. apply in_map_iff in Hk as ([c' code] & E & Hcode).
  cbn [fst] in E. subst c'.
  assert (Hget : dict_get Z.eqb (cluster_codes w cfg txt rs) c = Some code).
  { apply (dict_get_in _ _ _ Z.eqb_spec); [| exact Hcode].
    rewrite (cluster_codes_keys _ w cfg txt rs).
    apply (cluster_ids_nodup _ w cfg rs Hc). }
  exists rep, code. split; [exact Hrep |]. split; [| split; [exact Hget |]].
  - unfold call_order. rewrite items_from_app. apply in_or_app. left.
    unfold items_from, representatives.
    unfold cluster_codes, representatives in Hcode.
    apply (in_combine_map_l _ _ _
             (rep_or_empty (combine rs (labels_of w cfg rs)))) in Hcode.
    unfold rep_or_empty in Hcode at 1. now rewrite Hrep in Hcode.
  - apply (dict_get_in _ _ _ String.eqb_spec);
      [apply (clustered_cache_nodup _ w cfg txt rs Hnd Hc) |].
    unfold clustered_cache. apply in_or_app. right.
    apply member_pairs_In. now exists c.
Qed.

(** What [classify_item] returned for a response is what the cache holds
    for it. *)
Lemma clustered_items_cached (r v : string) :
  In (r, v)
     (items_from w cfg txt 0
        (call_order rs (labels_of w cfg rs)
           (set_order w (labels_of w cfg rs)))) ->
  dict_get String.eqb (clustered_cache w cfg txt rs) r = Some v.
Proof.
  unfold call_order. rewrite items_from_app. intros Hin.
  apply in_app_or in Hin as [Hin | Hin].
  - unfold items_from, representatives in Hin.
    apply in_combine_map_l_inv in Hin as (c & -> & Hcv).
    assert (Hcid : In c (cluster_ids_of (set_order w (labels_of w cfg rs))))
      by now apply in_combine_l in Hcv.
    apply (cluster_id_spec _ w cfg rs Hc) in Hcid as [Hlab Ho].
    destruct (label_has_member rs _ c (labels_length _ w cfg rs Hc) Hlab)
      as (r & Hr).
    destruct (representative_exists _ _ _ Hr) as (rep & Hrep).
    unfold rep_or_empty. rewrite Hrep.
    apply representative_member in Hrep as Hmem.
    apply (dict_get_in _ _ _ String.eqb_spec);
      [apply (clustered_cache_nodup _ w cfg txt rs Hnd Hc) |].
    unfold clustered_cache. apply in_or_app. right.
    apply member_pairs_In. exists c. split; [exact Hmem |].
    split; [exact Ho |].
    apply (dict_get_in _ _ _ Z.eqb_spec); [| exact Hcv].
    rewrite (cluster_codes_keys _ w cfg txt rs).
    apply (cluster_ids_nodup _ w cfg rs Hc).
  - apply (dict_get_in _ _ _ String.eqb_spec);
      [apply (clustered_cache_nodup _ w cfg txt rs Hnd Hc) |].
    unfold clustered_cache. apply in_or_app. left.
    rewrite representatives_length in Hin.
    unfold representatives. rewrite length_map. exact Hin.
Qed.

Lemma representatives_first :
  Forall2 (first_member rs (labels_of w cfg rs))
    (cluster_ids_of (set_order w (labels_of w cfg rs)))
    (representatives rs (labels_of w cfg rs)
       (set_order w (labels_of w cfg rs))).
Proof.
  eapply Forall2_impl; [| apply (representatives_ok _ w cfg rs Hc)].
  intros c r. apply representative_first. apply (labels_length _ w cfg rs Hc).
Qed.

(** No response is classified twice. *)
Lemma call_order_nodup :
  NoDup (call_order rs (labels_of w cfg rs)
           (set_order w (labels_of w cfg rs))).
Proof.
  pose proof (pairs_nodup _ w cfg rs Hnd Hc) as Hk.
  assert (Hrep : forall c,
    In c (cluster_ids_of (set_order w (labels_of w cfg rs))) ->
    In (rep_or_empty (combine rs (labels_of w cfg rs)) c, c)
       (combine rs (labels_of w cfg rs))).
  { intros c Hin. apply (cluster_id_spec _ w cfg rs Hc) in Hin as [Hlab _].
    destruct (label_has_member rs _ c (labels_length _ w cfg rs Hc) Hlab)
      as (r & Hr).
    destruct (representative_exists _ _ _ Hr) as (rep & Hrep).
    unfold rep_or_empty. rewrite Hrep. now apply representative_member. }
  unfold call_order. apply NoDup_app.
  - unfold representatives. apply NoDup_map_NoDup_ForallPairs;
      [| apply (cluster_ids_nodup _ w cfg rs Hc)].
    intros c1 c2 H1 H2 E. apply Hrep in H1, H2. rewrite E in H1.
    exact (NoDup_keys_functional _ _ _ _ _ _ Hk H1 H2).
  - unfold outliers_of. now apply NoDup_map_filter.
  - intros r Hr Ho. unfold representatives in Hr.
    apply in_map_iff in Hr as (c & <- & Hcid).
    pose proof (Hrep c Hcid) as Hmem.
    apply (cluster_id_spec _ w cfg rs Hc) in Hcid as [_ Hnot].
    unfold outliers_of in Ho. apply in_map_iff in Ho as ([r' l] & E & Hf).
    cbn [fst] in E. subst r'. apply filter_In in Hf as [Hin Hl].
    cbn [snd] in Hl.
    rewrite (NoDup_keys_functional _ _ _ _ _ _ Hk Hin Hmem) in Hl. congruence.
Qed.

End ClusteredFacts.

(** ** The branch without clustering *)

Section PlainRun.
Variable Vec : Type.
Variable w : World Vec.
Variable cfg : Config.
Variable txt : string.
Variable rs : list string.
Hypothesis Hnd : NoDup rs.

Lemma classify_each_plain :
  classify_each w cfg txt (Z.of_nat (length rs)) 1 rs initial_state =
  plain_state w cfg txt rs.
Proof.
  rewrite classify_each_spec. cbv zeta. unfold after, plain_state.
  cbn [results_cache cache_writes api_log classified progress initial_state
       length].
  rewrite (store_all_fresh _ _ _ String.eqb_spec);
    [| now rewrite items_from_keys | intros k _ []].
  rewrite !app_nil_r. cbn [app rev]. reflexivity.
Qed.

Lemma plain_items_cached (r v : string) :
  In (r, v) (items_from w cfg txt 0 rs) ->
  dict_get String.eqb (items_from w cfg txt 0 rs) r = Some v.
Proof.
  apply (dict_get_in _ _ _ String.eqb_spec). unfold keys.
  now rewrite items_from_keys.
Qed.

End PlainRun.

(* ================================================================== *)
(** ** The whole handler *)

Lemma nodupb_sound (A : Type) (eqb : A -> A -> bool) (l : list A) :
  (forall a b, reflect (a = b) (eqb a b)) ->
  nodupb eqb l = true -> NoDup l.
Proof.
  intros Hspec. induction l as [|a l IH]; simpl; intros H; constructor.
  - apply andb_true_iff in H as [H _]. apply negb_true_iff in H.
    intros Hin. enough (existsb (eqb a) l = true) by congruence.
    apply existsb_exists. exists a. split; [exact Hin |].
    now destruct (Hspec a a).
  - apply andb_true_iff in H as [_ H]. now apply IH.
Qed.

Lemma enumeratesb_sound (ids labels : list Z) :
  enumeratesb ids labels = true -> enumerates ids labels.
Proof.
  unfold enumeratesb. intros H.
  apply andb_true_iff in H as [H H3]. apply andb_true_iff in H as [H1 H2].
  split; [apply (nodupb_sound _ Z.eqb); [apply Z.eqb_spec | exact H1] |].
  assert (Hmem : forall (l l' : list Z),
    forallb (fun c => existsb (Z.eqb c) l') l = true ->
    forall c, In c l -> In c l').
  { intros l l' Hall c Hin. rewrite forallb_forall in Hall.
    apply Hall in Hin. apply existsb_exists in Hin as (x & Hx & E).
    apply Z.eqb_eq in E. now subst. }
  intros c. split; eauto.
Qed.

(** Exact integer arithmetic satisfies what is assumed of the floating
    point percentage. *)
Lemma exact_pct_ok : float_pct (fun calls total => (70 * calls / total)%Z).
Proof.
  constructor.
  - intros t c c' Hc Ht. apply Z.div_le_mono; lia.
  - intros t c Hc. apply Z.div_pos; lia.
  - intros t Ht. apply Z.div_mul. lia.
Qed.

Lemma is_outlier_false (c : Z) : is_outlier c = false <-> c <> (-1)%Z.
Proof. unfold is_outlier. apply Z.eqb_neq. Qed.

Section WholeRun.
Variable Vec : Type.
Variable w : World Vec.
Variable cfg : Config.

Lemma fill_cache_clustered (txt : string) (rs : list string) :
  use_clustering cfg = true -> 1 < length rs -> NoDup rs ->
  external_contract w cfg rs ->
  fill_cache w cfg txt rs initial_state =
  Finished (clustered_state w cfg txt rs).
Proof.
  intros Hu Hlen Hnd Hc. unfold fill_cache. rewrite Hu.
  destruct (Nat.ltb_spec 1 (length rs)) as [_ | H]; [| lia].
  cbn [andb]. apply classify_clustered_spec; [exact Hnd | | exact Hc].
  intros ->. simpl in Hlen. lia.
Qed.

Lemma fill_cache_plain (txt : string) (rs : list string) :
  use_clustering cfg && (1 <? length rs)%nat = false -> NoDup rs ->
  fill_cache w cfg txt rs initial_state = Finished (plain_state w cfg txt rs).
Proof.
  intros Hb Hnd. unfold fill_cache. rewrite Hb.
  now rewrite classify_each_plain.
Qed.

Lemma classify_all_finished (cb : option Codebook) (column : list cell)
  (st : State) :
  reconstruct_codebook_text cb <> "" ->
  fill_cache w cfg (reconstruct_codebook_text cb)
    (unique_responses_of column) initial_state = Finished st ->
  classify_all w cfg cb column =
  Classified (report 100 (report 95 st))
    (map (map_cache (results_cache st)) column).
Proof.
  intros Hcb Hrun. unfold classify_all.
  destruct (reconstruct_codebook_text cb) eqn:E; [congruence |].
  cbn [is_empty]. now rewrite Hrun.
Qed.

Lemma branch_cases (rs : list string) :
  (use_clustering cfg = true /\ 1 < length rs) \/
  use_clustering cfg && (1 <? length rs)%nat = false.
Proof.
  destruct (use_clustering cfg); [| now right].
  destruct (Nat.ltb_spec 1 (length rs)); [left; auto | now right].
Qed.

Lemma calls_from_nth (txt : string) (rs : list string) :
  forall base i call,
    nth_error (calls_from w cfg txt base rs) i = Some call ->
    exists r, nth_error rs i = Some r /\
              call = classify_item_at w cfg txt (base + i) r /\
              nth_error (items_from w cfg txt base rs) i =
              Some (r, result_of call).
Proof.
  induction rs as [|r rs IH]; intros base [|i] call H; simpl in H;
    try discriminate.
  - injection H as <-. exists r. rewrite Nat.add_0_r. auto.
  - apply IH in H as (r' & Hr & -> & Hi). exists r'.
    replace (base + S i) with (S base + i) by lia. auto.
Qed.

Lemma failed_reply_result (txt : string) (n : nat) (r : string) :
  failed_reply w cfg (reply_of (classify_item_at w cfg txt n r)) ->
  result_of (classify_item_at w cfg txt n r) = API_ERROR.
Proof.
  intros H. destruct (use_multilabel cfg) eqn:Hm.
  - rewrite classify_item_at_multi by exact Hm.
    destruct H as [-> | [_ ->]]; reflexivity.
  - rewrite classify_item_at_single by exact Hm.
    destruct H as [-> | [H _]]; [reflexivity | congruence].
Qed.

(** The [i]-th request failed: the [i]-th item is recorded with the
    sentinel. *)
Lemma failed_call_recorded (txt : string) (order : list string) (i : nat)
  (rq : Request) (rp : ApiReply) :
  nth_error (map fst (calls_from w cfg txt 0 order)) i = Some (rq, rp) ->
  failed_reply w cfg rp ->
  exists r, nth_error (items_from w cfg txt 0 order) i = Some (r, API_ERROR).
Proof.
  intros Hi Hf. rewrite nth_error_map in Hi.
  destruct (nth_error (calls_from w cfg txt 0 order) i) as [call |] eqn:E;
    [| discriminate].
  injection Hi as Hi.
  apply calls_from_nth in E as (r & Hr & -> & Hitem).
  exists r. rewrite Hitem. f_equal. f_equal.
  apply failed_reply_result. unfold reply_of. rewrite Hi. exact Hf.
Qed.

Lemma written_once (cache : dict string string) (r : string) :
  NoDup (keys cache) -> In r (keys cache) ->
  exists v, dict_get String.eqb cache r = Some v /\
            filter (fun kv => String.eqb (fst kv) r) (rev cache) = [(r, v)].
Proof.
  intros Hnd Hin. unfold keys in *.
  apply in_map_iff in Hin as ([r' v] & E & Hin). cbn [fst] in E. subst r'.
  exists v. split; [now apply (dict_get_in _ _ _ String.eqb_spec) |].
  apply filter_key_unique; [| now apply -> in_rev].
  rewrite map_rev. now apply NoDup_rev.
Qed.

End WholeRun.

(* ================================================================== *)
(** ** The claims about a run *)

(** C1.  A clustered run over more than one response makes exactly
    [n_clusters + |outliers|] classification calls, one request each and no
    response twice, where [n_clusters] counts the distinct labels other than
    the outlier mark; the response classified for a cluster is its first
    member in the order of the Response Set; and every member of the
    cluster holds, in the cache, the very string that call returned. *)
Theorem clustered_calls_and_propagation (Vec : Type) (w : World Vec)
  (cfg : Config) (cb : option Codebook) (column : list cell) :
  let rs := unique_responses_of column in
  let labels := labels_of w cfg rs in
  let ids := set_order w labels in
  reconstruct_codebook_text cb <> "" ->
  use_clustering cfg = true -> 1 < length rs -> NoDup rs ->
  external_contract w cfg rs ->
  exists st assigned,
    classify_all w cfg cb column = Classified st assigned /\
    Z.of_nat (length (classified st)) =
      (n_clusters_of ids labels
       + Z.of_nat (length (outliers_of rs labels)))%Z /\
    length (api_log st) = length (classified st) /\
    NoDup (map fst (classified st)) /\
    (NoDup (cluster_ids_of ids) /\
     (forall c, In c (cluster_ids_of ids) <->
                In c labels /\ c <> (-1)%Z) /\
     n_clusters_of ids labels = Z.of_nat (length (cluster_ids_of ids))) /\
    (forall r c, In (r, c) (combine rs labels) -> c <> (-1)%Z ->
       exists rep code,
         first_member rs labels c rep /\
         In (rep, code) (classified st) /\
         dict_get String.eqb (results_cache st) rep = Some code /\
         dict_get String.eqb (results_cache st) r = Some code).
Proof.
  intros rs labels ids Hcb Hu Hlen Hnd Hc.
  assert (Hne : rs <> []) by (intros E; rewrite E in Hlen; simpl in Hlen; lia).
  set (txt := reconstruct_codebook_text cb).
  exists (report 100 (report 95 (clustered_state w cfg txt rs))).
  eexists. split.
  { apply classify_all_finished; [exact Hcb |].
    now apply fill_cache_clustered. }
  cbn [report clustered_state results_cache api_log classified].
  fold labels ids.
  pose proof (n_clusters_of_length _ _ (ids_enumerate _ w cfg rs Hc)) as Hn.
  fold labels ids in Hn.
  pose proof (representatives_length _ w cfg rs) as Hreps.
  fold labels ids in Hreps.
  split.
  { rewrite length_rev, items_from_length. unfold call_order.
    rewrite length_app, Hreps, Hn. lia. }
  split.
  { now rewrite !length_rev, length_map, calls_from_length,
      items_from_length. }
  split.
  { rewrite map_rev, items_from_keys. apply NoDup_rev.
    now apply call_order_nodup. }
  split.
  { split; [apply (cluster_ids_nodup _ w cfg rs Hc) |]. split; [| exact Hn].
    intros c. rewrite <- is_outlier_false.
    apply (cluster_id_spec _ w cfg rs Hc). }
  intros r c Hin Hout. apply is_outlier_false in Hout.
  destruct (member_code _ w cfg txt rs Hnd Hc r c Hin Hout)
    as (rep & code & Hrep & Hitem & _ & Hget).
  exists rep, code. split.
  { apply representative_first; [apply (labels_length _ w cfg rs Hc) |].
    exact Hrep. }
  split; [now apply -> in_rev |]. split; [| exact Hget].
  now apply clustered_items_cached.
Qed.

Lemma sample_contract :
  external_contract sample_run_world (sample_config false true)
    (unique_responses_of sample_column).
Proof.
  split; [vm_compute; reflexivity |]. split; [reflexivity |].
  apply enumeratesb_sound. reflexivity.
Qed.

Lemma sample_nodup : NoDup (unique_responses_of sample_column).
Proof.
  apply (nodupb_sound _ String.eqb); [apply String.eqb_spec | reflexivity].
Qed.

Lemma sample_codebook_text : reconstruct_codebook_text sample_codebook <> "".
Proof. discriminate. Qed.

Lemma sample_size : 1 < length (unique_responses_of sample_column).
Proof. vm_compute. lia. Qed.

Lemma clustered_calls_and_propagation_witness :
  exists st assigned,
    classify_all sample_run_world (sample_config false true) sample_codebook
      sample_column = Classified st assigned /\
    length (classified st) = 2 /\
    dict_get String.eqb (results_cache st) "great price" = Some "Price".
Proof.
  destruct (clustered_calls_and_propagation _ sample_run_world
              (sample_config false true) sample_codebook sample_column
              sample_codebook_text eq_refl sample_size sample_nodup
              sample_contract)
    as (st & assigned & Hrun & _).
  exists st, assigned. split; [exact Hrun |].
  vm_compute in Hrun. injection Hrun as <- _. split; reflexivity.
Defined.


(** Both branches at once: the handler finishes, in a state whose cache has
    the members of the Response Set as its keys, each written once, and
    holds for every classified item the string [classify_item] returned. *)
Lemma run_summary (Vec : Type) (w : World Vec) (cfg : Config)
  (cb : option Codebook) (column : list cell) :
  let rs := unique_responses_of column in
  let txt := reconstruct_codebook_text cb in
  txt <> "" -> NoDup rs ->
  (use_clustering cfg = true -> 1 < length rs ->
   external_contract w cfg rs) ->
  exists st order,
    classify_all w cfg cb column =
      Classified (report 100 (report 95 st))
        (map (map_cache (results_cache st)) column) /\
    Permutation (keys (results_cache st)) rs /\
    NoDup (keys (results_cache st)) /\
    cache_writes st = rev (results_cache st) /\
    api_log st = rev (map fst (calls_from w cfg txt 0 order)) /\
    classified st = rev (items_from w cfg txt 0 order) /\
    (forall r v, In (r, v) (items_from w cfg txt 0 order) ->
       dict_get String.eqb (results_cache st) r = Some v).
Proof.
  intros rs txt Hcb Hnd Hc.
  destruct (branch_cases cfg rs) as [[Hu Hlen] | Hb].
  - specialize (Hc Hu Hlen).
    exists (clustered_state w cfg txt rs).
    exists (call_order rs (labels_of w cfg rs)
              (set_order w (labels_of w cfg rs))).
    split.
    { apply classify_all_finished; [exact Hcb |].
      now apply fill_cache_clustered. }
    cbn [clustered_state results_cache cache_writes api_log classified].
    split; [now apply clustered_cache_perm |].
    split; [now apply clustered_cache_nodup |].
    repeat split. intros r v. now apply clustered_items_cached.
  - exists (plain_state w cfg txt rs), rs. split.
    { apply classify_all_finished; [exact Hcb |].
      now apply fill_cache_plain. }
    cbn [plain_state results_cache cache_writes api_log classified].
    assert (Hkeys : keys (items_from w cfg txt 0 rs) = rs)
      by apply items_from_keys.
    rewrite Hkeys. split; [apply Permutation_refl |]. split; [exact Hnd |].
    repeat split. intros r v. now apply plain_items_cached.
Qed.

(** C2, where the code departs from the claim: the handler removes the
    repeated values before it converts them to text (lines 464-467), so the
    number 5 and the text ["5"] are both members of the Response Set, as the
    same string.  That string is classified twice, by two requests, the
    cache is written twice under the one key, with differing results when
    the LLM answers the second request otherwise, and it keeps the later
    one. *)
Lemma member_classified_twice :
  unique_responses_of mixed_column = ["5"; "5"; "good"] /\
  exists st assigned,
    classify_all (sample_world changing_llm (parsed_as []) [] [])
      (sample_config false false) sample_codebook mixed_column =
      Classified st assigned /\
    length (api_log st) = 3 /\
    rev (classified st) =
      [("5", "Price"); ("5", "Other"); ("good", "Other")] /\
    rev (cache_writes st) =
      [("5", "Price"); ("5", "Other"); ("good", "Other")] /\
    results_cache st = [("5", "Other"); ("good", "Other")].
Proof.
  split; [reflexivity |]. do 2 eexists.
  split; [vm_compute; reflexivity |]. repeat split.
Qed.

(** C4.  A classification that fails (an exception in the call, or in
    multi-label mode a reply that does not validate) gives ["API_ERROR"],
    and the run goes on to the end whatever the replies: every member gets
    a value, and the item of every failed request is recorded, and cached,
    as ["API_ERROR"].  When clustering is asked for and the provider
    returns no vector, the run stops with the error before any request is
    sent, with nothing classified and nothing cached. *)
Theorem failure_handling (Vec : Type) (w : World Vec) (cfg : Config)
  (cb : option Codebook) (column : list cell) :
  let rs := unique_responses_of column in
  let txt := reconstruct_codebook_text cb in
  txt <> "" -> NoDup rs ->
  (forall n r,
     failed_reply w cfg (reply_of (classify_item_at w cfg txt n r)) ->
     result_of (classify_item_at w cfg txt n r) = "API_ERROR") /\
  ((use_clustering cfg = true -> 1 < length rs ->
    external_contract w cfg rs) ->
   exists st assigned,
     classify_all w cfg cb column = Classified st assigned /\
     (forall r, In r rs ->
        exists v, dict_get String.eqb (results_cache st) r = Some v) /\
     (forall i rq rp,
        nth_error (rev (api_log st)) i = Some (rq, rp) ->
        failed_reply w cfg rp ->
        exists r,
          nth_error (rev (classified st)) i = Some (r, "API_ERROR") /\
          dict_get String.eqb (results_cache st) r = Some "API_ERROR")) /\
  (use_clustering cfg = true -> 1 < length rs ->
   embed w rs (api_key cfg) = [] ->
   exists st,
     classify_all w cfg cb column =
       NotClassified (Stopped "Failed to generate embeddings." st) /\
     api_log st = [] /\ classified st = [] /\ results_cache st = []).
Proof.
  intros rs txt Hcb Hnd. split; [| split].
  - intros n r. apply failed_reply_result.
  - intros Hc.
    destruct (run_summary _ w cfg cb column Hcb Hnd Hc)
      as (st & order & Hrun & Hperm & Hk & _ & Hlog & Hitems & Hcached).
    do 2 eexists. split; [exact Hrun |].
    cbn [report results_cache api_log classified]. split.
    + intros r Hr. apply (Permutation_in _ (Permutation_sym Hperm)) in Hr.
      destruct (written_once _ r Hk Hr) as (v & Hv & _). now exists v.
    + intros i rq rp Hi Hf. rewrite Hlog, Hitems, rev_involutive in *.
      destruct (failed_call_recorded _ w cfg txt _ i rq rp Hi Hf)
        as (r & Hr).
      exists r. split; [exact Hr |].
      apply Hcached. eapply nth_error_In, Hr.
  - intros Hu Hlen He. eexists. split.
    + unfold classify_all. fold txt rs.
      destruct txt eqn:E; [congruence |]. cbn [is_empty].
      unfold fill_cache. rewrite Hu.
      destruct (Nat.ltb_spec 1 (length rs)) as [_ | H]; [| lia].
      cbn [andb]. unfold classify_clustered. rewrite He. reflexivity.
    + repeat split.
Qed.

Lemma failure_handling_witness :
  (exists st assigned,
     classify_all sample_run_world (sample_config false true) sample_codebook
       sample_column = Classified st assigned /\
     results_cache st =
       [("Too slow", "API_ERROR"); ("Great price", "Price");
        ("great price", "Price")]) /\
  (exists st,
     classify_all no_vectors_world (sample_config false true) sample_codebook
       sample_column =
       NotClassified (Stopped "Failed to generate embeddings." st) /\
     api_log st = []).
Proof.
  split.
  - destruct (failure_handling _ sample_run_world (sample_config false true)
                sample_codebook sample_column sample_codebook_text
                sample_nodup)
      as (_ & Hbatch & _).
    destruct (Hbatch (fun _ _ => sample_contract))
      as (st & assigned & Hrun & _).
    exists st, assigned. split; [exact Hrun |].
    vm_compute in Hrun. injection Hrun as <- _. reflexivity.
  - destruct (failure_handling _ no_vectors_world (sample_config false true)
                sample_codebook sample_column sample_codebook_text
                sample_nodup)
      as (_ & _ & Hstop).
    destruct (Hstop eq_refl sample_size eq_refl) as (st & Hrun & Hlog & _).
    exists st. split; [exact Hrun | exact Hlog].
Defined.

(** Scenario D of the specification: no vectors, so no request. *)
Example no_vectors_stops :
  exists st,
    classify_all no_vectors_world (sample_config false true) sample_codebook
      sample_column =
      NotClassified (Stopped "Failed to generate embeddings." st) /\
    api_log st = [].
Proof. eexists. split; reflexivity. Qed.

Lemma StronglySorted_app (l1 l2 : list Z) :
  StronglySorted Z.le l1 -> StronglySorted Z.le l2 ->
  (forall x y, In x l1 -> In y l2 -> (x <= y)%Z) ->
  StronglySorted Z.le (l1 ++ l2).
Proof.
  induction 1 as [|a l1 Hs IH Ha]; intros H2 Hle; simpl; [exact H2 |].
  constructor.
  - apply IH; [exact H2 |]. intros x y Hx Hy. apply Hle; [now right | exact Hy].
  - apply Forall_app. split; [exact Ha |].
    apply Forall_forall. intros y Hy. apply Hle; [now left | exact Hy].
Qed.

(** The values reported while classifying lie between 15 and 85 and do not
    fall. *)
Lemma call_reports_sorted (pct : Z -> Z -> Z) (n : nat) :
  float_pct pct ->
  StronglySorted Z.le
    (ramp (fun k => (15 + pct k (Z.of_nat n))%Z) 1%Z n) /\
  forall x,
    In x (ramp (fun k => (15 + pct k (Z.of_nat n))%Z) 1%Z n) ->
    (15 <= x <= 85)%Z.
Proof.
  intros [Hmono Hlow Hfull]. split.
  - apply ramp_sorted. intros a b Ha Hb.
    apply Z.add_le_mono_l. apply Hmono; lia.
  - intros x Hx. apply ramp_In in Hx as (k & Hk & ->).
    assert (H0 : (0 <= pct k (Z.of_nat n))%Z) by (apply Hlow; lia).
    assert (H1 : (pct k (Z.of_nat n) <= pct (Z.of_nat n) (Z.of_nat n))%Z)
      by (apply Hmono; lia).
    rewrite Hfull in H1 by lia. lia.
Qed.

(** C9.  In a clustered run the reported progress is 0 at the start, 5 and
    15 for the embedding and clustering steps, then one value per
    classification call, [15 + int(70 * (k / total))] after the [k]-th of
    the [total] calls, then 95 and 100; the sequence never falls (given that
    the floating-point percentage is monotone and exact at [total / total]).
    The calls are made for the clusters first, each for the first member of
    its cluster, in the order in which the set of ids is iterated, which is
    the order of the ids when that iteration is ascending, and then for the
    outliers in the order of the Response Set. *)
Theorem clustered_progress (Vec : Type) (w : World Vec) (cfg : Config)
  (cb : option Codebook) (column : list cell) :
  let rs := unique_responses_of column in
  let labels := labels_of w cfg rs in
  let ids := set_order w labels in
  reconstruct_codebook_text cb <> "" ->
  use_clustering cfg = true -> 1 < length rs -> NoDup rs ->
  external_contract w cfg rs ->
  float_pct (pct_calls w) ->
  StronglySorted Z.lt (cluster_ids_of ids) ->
  exists st assigned,
    classify_all w cfg cb column = Classified st assigned /\
    rev (progress st) =
      [0; 5; 15]%Z
      ++ ramp (fun k =>
                 (15 + pct_calls w k (Z.of_nat (length (classified st))))%Z)
           1%Z (length (classified st))
      ++ [95; 100]%Z /\
    StronglySorted Z.le (rev (progress st)) /\
    exists cids reps,
      StronglySorted Z.lt cids /\
      (forall c, In c cids <-> In c labels /\ c <> (-1)%Z) /\
      Forall2 (first_member rs labels) cids reps /\
      map fst (rev (classified st)) = reps ++ outliers_of rs labels /\
      outliers_of rs labels =
        map fst (filter (fun item => (snd item =? -1)%Z) (combine rs labels)).
Proof.
  intros rs labels ids Hcb Hu Hlen Hnd Hc Hpct Hsorted.
  assert (Hne : rs <> []) by (intros E; rewrite E in Hlen; simpl in Hlen; lia).
  set (txt := reconstruct_codebook_text cb).
  exists (report 100 (report 95 (clustered_state w cfg txt rs))).
  eexists. split.
  { apply classify_all_finished; [exact Hcb |].
    now apply fill_cache_clustered. }
  cbn [report clustered_state progress classified].
  fold labels ids.
  set (order := call_order rs labels ids).
  assert (Hn : length (rev (items_from w cfg txt 0 order)) = length order)
    by now rewrite length_rev, items_from_length.
  rewrite Hn.
  assert (Htrace :
    rev (100 :: 95 :: rev ([0; 5; 15]
           ++ ramp (fun c => 15 + pct_calls w c (Z.of_nat (length order)))
                1 (length order)))%Z
    = ([0; 5; 15]
       ++ ramp (fun k => 15 + pct_calls w k (Z.of_nat (length order)))
            1 (length order)
       ++ [95; 100])%Z).
  { cbn [rev]. rewrite rev_involutive, <- !app_assoc. reflexivity. }
  rewrite Htrace. split; [reflexivity |].
  destruct (call_reports_sorted (pct_calls w) (length order) Hpct)
    as [Hs Hrange].
  split.
  { change ([0; 5; 15]%Z ++ ?l) with (0 :: 5 :: 15 :: l)%Z.
    assert (Hall : forall x,
      In x (ramp (fun k => 15 + pct_calls w k (Z.of_nat (length order)))
              1 (length order) ++ [95; 100])%Z -> (15 <= x)%Z).
    { intros x Hx. apply in_app_or in Hx as [Hx | Hx].
      - apply Hrange in Hx. lia.
      - simpl in Hx. lia. }
    assert (Htail : StronglySorted Z.le
      (ramp (fun k => 15 + pct_calls w k (Z.of_nat (length order)))
         1 (length order) ++ [95; 100])%Z).
    { apply StronglySorted_app; [exact Hs | |].
      - repeat constructor. lia.
      - intros x y Hx Hy. apply Hrange in Hx. simpl in Hy. lia. }
    repeat constructor; try exact Htail; try lia;
      apply Forall_forall; intros x Hx; apply Hall in Hx; lia. }
  exists (cluster_ids_of ids), (representatives rs labels ids).
  split; [exact Hsorted |]. split.
  { intros c. rewrite <- is_outlier_false.
    apply (cluster_id_spec _ w cfg rs Hc). }
  split; [now apply representatives_first |]. split; [| reflexivity].
  now rewrite rev_involutive, items_from_keys.
Qed.

Lemma clustered_progress_witness :
  exists st assigned,
    classify_all sample_run_world (sample_config false true) sample_codebook
      sample_column = Classified st assigned /\
    rev (progress st) = [0; 5; 15; 50; 85; 95; 100]%Z /\
    map fst (rev (classified st)) = ["Great price"; "Too slow"].
Proof.
  destruct (clustered_progress _ sample_run_world
              (sample_config false true) sample_codebook sample_column
              sample_codebook_text eq_refl sample_size sample_nodup
              sample_contract exact_pct_ok)
    as (st & assigned & Hrun & _).
  - repeat constructor.
  - exists st, assigned. split; [exact Hrun |].
    vm_compute in Hrun. injection Hrun as <- _. split; reflexivity.
Defined.


(* ================================================================== *)
(** ** The Response Set, and the way back to the rows *)

Lemma cell_eqb_spec (a b : cell) : reflect (a = b) (cell_eqb a b).
Proof.
  destruct a as [| s | x], b as [| t | y]; simpl;
    try (constructor; congruence).
  - destruct (String.eqb_spec s t); constructor; congruence.
  - destruct (Z.eqb_spec x y); constructor; congruence.
Qed.

Lemma existsb_cell_In (c : cell) (seen : list cell) :
  existsb (cell_eqb c) seen = true <-> In c seen.
Proof.
  rewrite existsb_exists. split.
  - intros (x & Hx & E). destruct (cell_eqb_spec c x); [now subst | discriminate].
  - intros H. exists c. split; [exact H |].
    destruct (cell_eqb_spec c c); congruence.
Qed.

Lemma unique_from_In (column : list cell) : forall seen c,
  In c (unique_from seen column) <-> In c column /\ ~ In c seen.
Proof.
  induction column as [|a column IH]; intros seen c; simpl; [tauto |].
  destruct (existsb (cell_eqb a) seen) eqn:E.
  - apply existsb_cell_In in E. rewrite IH.
    split; [tauto |]. intros [[-> | H] Hn]; tauto.
  - assert (Ha : ~ In a seen).
    { intros H. apply existsb_cell_In in H. congruence. }
    simpl. rewrite IH. simpl.
    destruct (cell_eqb_spec a c) as [-> | Hne]; [tauto |].
    split; [tauto |]. intros [[E' | H] Hn]; [congruence | right; tauto].
Qed.

Lemma unique_from_NoDup (column : list cell) : forall seen,
  NoDup (unique_from seen column).
Proof.
  induction column as [|a column IH]; intros seen; simpl; [constructor |].
  destruct (existsb (cell_eqb a) seen); [apply IH |].
  constructor; [| apply IH].
  rewrite unique_from_In. simpl. tauto.
Qed.

(** Distinct text cells have distinct spellings. *)
Lemma text_spellings_distinct (column : list cell) :
  Forall (fun c => c = NaN \/ exists s, c = Str s) column ->
  NoDup (map py_str (unique (dropna column))).
Proof.
  intros Htext.
  apply NoDup_map_NoDup_ForallPairs; [| apply unique_from_NoDup].
  intros a b Ha Hb E. unfold unique in Ha, Hb.
  apply unique_from_In in Ha as [Ha _], Hb as [Hb _].
  unfold dropna in Ha, Hb. apply filter_In in Ha as [Ha Hna], Hb as [Hb Hnb].
  rewrite Forall_forall in Htext.
  destruct (Htext a Ha) as [-> | [s ->]]; [discriminate |].
  destruct (Htext b Hb) as [-> | [t ->]]; [discriminate |].
  simpl in E. congruence.
Qed.

(** X2.  A column of text and missing values gives a Response Set without
    repetition. *)
Lemma text_column_nodup (column : list cell) :
  Forall (fun c => c = NaN \/ exists s, c = Str s) column ->
  NoDup (unique_responses_of column).
Proof.
  intros Htext. unfold unique_responses_of. apply NoDup_filter.
  now apply text_spellings_distinct.
Qed.

Lemma text_column_nodup_witness : NoDup (unique_responses_of sample_column).
Proof.
  apply text_column_nodup. unfold sample_column.
  repeat (constructor; [first [now left | right; eexists; reflexivity] |]).
  constructor.
Defined.

(** A text cell that is not blank is a member of the Response Set. *)
Lemma text_cell_member (column : list cell) (s : string) :
  In (Str s) column -> truthy (strip s) = true ->
  In s (unique_responses_of column).
Proof.
  intros Hin Ht. unfold unique_responses_of. apply filter_In.
  split; [| exact Ht]. apply in_map_iff. exists (Str s).
  split; [reflexivity |]. unfold unique. apply unique_from_In.
  split; [| tauto]. unfold dropna. apply filter_In. now split.
Qed.

(** X1.  Rows of text: after a run every row whose text is not blank holds
    the string the cache has for that text, and every row whose value is
    missing or blank holds nothing. *)
Lemma text_rows_assigned (Vec : Type) (w : World Vec) (cfg : Config)
  (cb : option Codebook) (column : list cell) :
  let rs := unique_responses_of column in
  reconstruct_codebook_text cb <> "" -> NoDup rs ->
  (use_clustering cfg = true -> 1 < length rs ->
   external_contract w cfg rs) ->
  exists st assigned,
    classify_all w cfg cb column = Classified st assigned /\
    length assigned = length column /\
    (forall i s, nth_error column i = Some (Str s) ->
       truthy (strip s) = true ->
       exists v, nth_error assigned i = Some (Some v) /\
                 dict_get String.eqb (results_cache st) s = Some v) /\
    (forall i s, nth_error column i = Some (Str s) ->
       truthy (strip s) = false -> nth_error assigned i = Some None) /\
    (forall i, nth_error column i = Some NaN ->
       nth_error assigned i = Some None).
Proof.
  intros rs Hcb Hnd Hc.
  destruct (run_summary _ w cfg cb column Hcb Hnd Hc)
    as (st & order & Hrun & Hperm & Hk & _).
  do 2 eexists. split; [exact Hrun |].
  cbn [report results_cache]. split; [apply length_map |].
  split; [| split].
  - intros i s Hi Ht.
    pose proof (text_cell_member column s (nth_error_In _ _ Hi) Ht) as Hm.
    apply (Permutation_in _ (Permutation_sym Hperm)) in Hm.
    destruct (written_once _ s Hk Hm) as (v & Hv & _).
    exists v. split; [| exact Hv].
    rewrite nth_error_map, Hi. cbn. now rewrite Hv.
  - intros i s Hi Ht. rewrite nth_error_map, Hi. cbn. f_equal.
    apply (dict_get_none _ _ _ String.eqb_spec).
    intros Hin. apply (Permutation_in _ Hperm) in Hin.
    unfold rs, unique_responses_of in Hin. apply filter_In in Hin as [_ H].
    congruence.
  - intros i Hi. rewrite nth_error_map, Hi. reflexivity.
Qed.

Lemma text_rows_assigned_witness :
  exists st assigned,
    classify_all sample_run_world (sample_config false true) sample_codebook
      sample_column = Classified st assigned /\
    assigned =
      [Some "Price"; Some "Price"; None; Some "API_ERROR"; None;
       Some "Price"].
Proof.
  destruct (text_rows_assigned _ sample_run_world (sample_config false true)
              sample_codebook sample_column sample_codebook_text
              sample_nodup (fun _ _ => sample_contract))
    as (st & assigned & Hrun & _).
  exists st, assigned. split; [exact Hrun |].
  vm_compute in Hrun. injection Hrun as _ <-. reflexivity.
Defined.

(** C6, where the code departs from the claim: the number 5 is classified
    under its spelling ["5"], which the cache then holds, but the row is
    looked up as the number and stays without a code. *)
Lemma numeric_row_left_unassigned :
  let column := [Int 5; Str "good price"] in
  unique_responses_of column = ["5"; "good price"] /\
  exists st assigned,
    classify_all sample_run_world (sample_config false false) sample_codebook
      column = Classified st assigned /\
    dict_get String.eqb (results_cache st) "5" = Some "Price" /\
    assigned = [None; Some "API_ERROR"].
Proof.
  split; [reflexivity |]. do 2 eexists.
  split; [vm_compute; reflexivity |]. split; reflexivity.
Qed.

(* ================================================================== *)
(** ** The order of the cluster ids in CPython *)

Section SetOrder.
Local Open Scope Z_scope.

Lemma py_hash_small (j : Z) :
  0 <= j < PySet.PyHASH_MODULUS -> PySet.py_hash j = j.
Proof.
  intros H. unfold PySet.py_hash.
  rewrite Z.abs_eq, Z.mod_small by lia.
  destruct (Z.eq_dec j 0) as [-> | Hne]; [reflexivity |].
  rewrite Z.sgn_pos by lia. rewrite Z.mul_1_l.
  destruct (Z.eqb_spec j (-1)); [lia | reflexivity].
Qed.

Lemma home_small (n j : Z) :
  0 <= n -> 0 <= j < 2 ^ n -> j < PySet.PyHASH_MODULUS ->
  PySet.home j (2 ^ n - 1) = Z.to_nat j.
Proof.
  intros Hn Hj Hm. unfold PySet.home. rewrite py_hash_small by lia.
  replace (2 ^ n - 1) with (Z.ones n) by (rewrite Z.ones_equiv; lia).
  rewrite Z.land_ones by exact Hn. now rewrite Z.mod_small.
Qed.

Lemma home_outlier (n : Z) :
  2 <= n -> PySet.home (-1) (2 ^ n - 1) = Z.to_nat (2 ^ n - 2).
Proof.
  intros Hn. unfold PySet.home.
  change (PySet.py_hash (-1)) with (-2).
  replace (2 ^ n - 1) with (Z.ones n) by (rewrite Z.ones_equiv; lia).
  rewrite Z.land_ones by lia. f_equal.
  assert (Hp : 4 <= 2 ^ n).
  { change 4 with (2 ^ 2). apply Z.pow_le_mono_r; lia. }
  symmetry. apply Z.mod_unique with (q := -1); lia.
Qed.

Lemma nth_canon (size m : nat) (neg : bool) (i : nat) :
  (i < size)%nat ->
  nth i (canon size m neg) None = canon_entry size m neg i.
Proof.
  intros H. unfold canon.
  rewrite (nth_indep _ None (canon_entry size m neg 0%nat))
    by (now rewrite length_map, length_seq).
  rewrite map_nth, seq_nth by exact H. reflexivity.
Qed.

Lemma put_map_seq (f : nat -> option Z) (key : Z) (len : nat) :
  forall (a i : nat),
    (i < len)%nat ->
    PySet.put i key (map f (seq a len)) =
    map (fun j => if (j =? a + i)%nat then Some key else f j) (seq a len).
Proof.
  induction len as [|len IH]; intros a i H; [lia |].
  destruct i as [|i]; cbn [seq map PySet.put].
  - rewrite Nat.add_0_r, Nat.eqb_refl. f_equal.
    apply map_ext_in. intros j Hj. apply in_seq in Hj.
    destruct (Nat.eqb_spec j a); [lia | reflexivity].
  - destruct (Nat.eqb_spec a (a + S i)); [lia |]. f_equal.
    rewrite IH by lia. apply map_ext. intros j.
    now replace (S a + i)%nat with (a + S i)%nat by lia.
Qed.

Lemma put_cluster (size m : nat) (neg : bool) :
  (m < size)%nat ->
  PySet.put m (Z.of_nat m) (canon size m neg) = canon size (S m) neg.
Proof.
  intros H. unfold canon. rewrite put_map_seq by exact H.
  apply map_ext_in. intros j Hj. cbn [Nat.add]. unfold canon_entry.
  destruct (Nat.eqb_spec j m) as [-> | Hne].
  - destruct (Nat.ltb_spec m (S m)); [reflexivity | lia].
  - destruct (Nat.ltb_spec j m), (Nat.ltb_spec j (S m)); try lia;
      reflexivity.
Qed.

Lemma put_outlier (size m : nat) :
  (m + 2 <= size)%nat ->
  PySet.put (size - 2) (-1) (canon size m false) = canon size m true.
Proof.
  intros H. unfold canon. rewrite put_map_seq by lia.
  apply map_ext_in. intros j Hj. cbn [Nat.add]. unfold canon_entry.
  cbn [andb].
  destruct (Nat.eqb_spec j (size - 2)) as [-> | Hne].
  - destruct (Nat.ltb_spec (size - 2) m); [lia |].
    destruct (Nat.eqb_spec (S (S (size - 2))) size); [reflexivity | lia].
  - destruct (Nat.ltb_spec j m); [reflexivity |].
    destruct (Nat.eqb_spec (S (S j)) size); [lia | reflexivity].
Qed.


Lemma canon_empty (size : nat) : canon size 0 false = repeat None size.
Proof.
  unfold canon.
  assert (H : forall a, map (canon_entry size 0 false) (seq a size)
                        = repeat None size).
  { induction size as [|k IH] using nat_ind at 2 3; intros a;
      [reflexivity |].
    cbn [seq map repeat]. f_equal. apply IH. }
  apply H.
Qed.

Lemma flat_map_none (A B : Type) (g : A -> list B) (l : list A) :
  (forall x, In x l -> g x = []) -> flat_map g l = [].
Proof.
  induction l as [|a l IH]; intros H; simpl; [reflexivity |].
  rewrite (H a (or_introl eq_refl)). apply IH. intros x Hx. apply H.
  now right.
Qed.

Lemma flat_map_one (A B : Type) (g : A -> list B) (f : A -> B)
  (l : list A) :
  (forall x, In x l -> g x = [f x]) -> flat_map g l = map f l.
Proof.
  induction l as [|a l IH]; intros H; simpl; [reflexivity |].
  rewrite (H a (or_introl eq_refl)). simpl. f_equal. apply IH.
  intros x Hx. apply H. now right.
Qed.

(** The keys of a canonical table come out in the order of the ids, the
    outlier mark last. *)
Lemma iterate_canon (size m : nat) (neg : bool) :
  (m <= size)%nat -> (neg = true -> (m + 2 <= size)%nat) ->
  flat_map (fun e : option Z => match e with Some k => [k] | None => [] end)
    (canon size m neg) = canon_keys m neg.
Proof.
  intros Hm Hneg. unfold canon, canon_keys. rewrite flat_map_concat_map.
  rewrite map_map, <- flat_map_concat_map.
  assert (Hs : seq 0 size = seq 0 m ++ seq m (size - m)).
  { rewrite <- seq_app. f_equal. lia. }
  rewrite Hs, flat_map_app. f_equal.
  - apply flat_map_one. intros i Hi. apply in_seq in Hi.
    unfold canon_entry. destruct (Nat.ltb_spec i m); [reflexivity | lia].
  - destruct neg.
    + specialize (Hneg eq_refl).
      assert (Hs2 : seq m (size - m)
                    = seq m (size - 2 - m) ++ seq (size - 2) 2).
      { replace (size - 2)%nat with (m + (size - 2 - m))%nat at 2 by lia.
        rewrite <- seq_app. f_equal. lia. }
      rewrite Hs2, flat_map_app.
      rewrite flat_map_none.
      * cbn [seq flat_map app]. unfold canon_entry. cbn [andb].
        destruct (Nat.ltb_spec (size - 2) m); [lia |].
        destruct (Nat.ltb_spec (S (size - 2)) m); [lia |].
        destruct (Nat.eqb_spec (S (S (size - 2))) size); [| lia].
        destruct (Nat.eqb_spec (S (S (S (size - 2)))) size); [lia |].
        reflexivity.
      * intros i Hi. apply in_seq in Hi. unfold canon_entry. cbn [andb].
        destruct (Nat.ltb_spec i m); [lia |].
        destruct (Nat.eqb_spec (S (S i)) size); [lia | reflexivity].
    + apply flat_map_none. intros i Hi. apply in_seq in Hi.
      unfold canon_entry. cbn [andb].
      destruct (Nat.ltb_spec i m); [lia | reflexivity].
Qed.

Lemma fold_entries (A : Type) (ins : A -> Z -> A) (t : list (option Z)) :
  forall init,
    fold_left (fun acc e => match e with Some k => ins acc k | None => acc end)
      t init =
    fold_left ins
      (flat_map (fun e : option Z =>
                   match e with Some k => [k] | None => [] end) t)
      init.
Proof.
  induction t as [|[k |] t IH]; intros init; simpl; [reflexivity | |];
    apply IH.
Qed.

Lemma grow_spec (minused : Z) (fuel : nat) : forall k,
  3 <= k -> minused < 2 ^ k * 2 ^ Z.of_nat fuel ->
  exists k', k <= k' /\ PySet.grow fuel (2 ^ k) minused = 2 ^ k' /\
             minused < 2 ^ k'.
Proof.
  induction fuel as [|fuel IH]; intros k Hk H.
  - exists k. cbn [PySet.grow]. change (2 ^ Z.of_nat 0) with 1 in H.
    repeat split; lia.
  - cbn [PySet.grow]. destruct (Z.leb_spec (2 ^ k) minused) as [Hle | Hgt].
    + replace (2 * 2 ^ k) with (2 ^ (k + 1)) by (rewrite Z.pow_add_r; lia).
      destruct (IH (k + 1)) as (k' & Hk' & E & Hlt); [lia | |].
      * rewrite Nat2Z.inj_succ, Z.pow_succ_r in H by lia.
        rewrite Z.pow_add_r by lia. lia.
      * exists k'. repeat split; [lia | exact E | exact Hlt].
    + exists k. repeat split; lia.
Qed.

Lemma grow_size (minused : Z) :
  0 <= minused ->
  exists k, 3 <= k /\
    PySet.grow (Z.to_nat minused) PySet.PySet_MINSIZE minused = 2 ^ k /\
    minused < 2 ^ k.
Proof.
  intros H. destruct (grow_spec minused (Z.to_nat minused) 3) as
    (k & Hk & E & Hlt); [lia | |].
  - rewrite Z2Nat.id by exact H.
    pose proof (Z.pow_gt_lin_r 2 minused ltac:(lia) H). lia.
  - exists k. repeat split; [exact Hk | exact E | exact Hlt].
Qed.

Section Probing.
Variable probe : list (option Z) -> Z -> Z -> nat.

Lemma insert_cluster (n : Z) (size j : nat) :
  0 <= n -> Z.of_nat size = 2 ^ n -> (j < size)%nat ->
  Z.of_nat j < PySet.PyHASH_MODULUS ->
  PySet.set_insert_clean probe (canon size j false) (2 ^ n - 1) (Z.of_nat j)
  = canon size (S j) false.
Proof.
  intros Hn Hsize Hj Hm. unfold PySet.set_insert_clean. cbv zeta.
  rewrite home_small by (rewrite <- ?Hsize; lia). rewrite Nat2Z.id.
  rewrite nth_canon by exact Hj. unfold canon_entry at 1.
  rewrite Nat.ltb_irrefl. cbn [andb]. now apply put_cluster.
Qed.

Lemma insert_outlier (n : Z) (size m : nat) :
  2 <= n -> Z.of_nat size = 2 ^ n -> (m + 2 <= size)%nat ->
  PySet.set_insert_clean probe (canon size m false) (2 ^ n - 1) (-1)
  = canon size m true.
Proof.
  intros Hn Hsize Hm. unfold PySet.set_insert_clean. cbv zeta.
  rewrite home_outlier by exact Hn.
  replace (Z.to_nat (2 ^ n - 2)) with (size - 2)%nat
    by (rewrite <- Hsize; lia).
  rewrite nth_canon by lia. unfold canon_entry at 1.
  destruct (Nat.ltb_spec (size - 2) m); [lia |]. cbn [andb].
  now apply put_outlier.
Qed.

Lemma insert_clusters (n : Z) (size : nat) :
  0 <= n -> Z.of_nat size = 2 ^ n ->
  forall j, (j <= size)%nat -> Z.of_nat j <= PySet.PyHASH_MODULUS ->
    fold_left (fun t k => PySet.set_insert_clean probe t (2 ^ n - 1) k)
      (map Z.of_nat (seq 0 j)) (canon size 0 false)
    = canon size j false.
Proof.
  intros Hn Hsize. induction j as [|j IH]; intros Hj Hm; [reflexivity |].
  rewrite seq_S, map_app, fold_left_app, IH by lia.
  cbn [Nat.add map fold_left]. apply insert_cluster; try assumption; lia.
Qed.

(** Rebuilding a canonical table gives the canonical table of the new
    size. *)
Lemma resize_canonical (so : PySet.set_object) (size m : nat) (neg : bool)
  (minused : Z) :
  PySet.table so = canon size m neg ->
  PySet.fill so = Z.of_nat m + (if neg then 1 else 0) ->
  1 <= PySet.fill so -> 2 * PySet.fill so <= minused ->
  (m <= size)%nat -> (neg = true -> (m + 2 <= size)%nat) ->
  Z.of_nat m < PySet.PyHASH_MODULUS ->
  canonical (PySet.set_table_resize probe so minused) m neg.
Proof.
  intros Ht Hf Hf1 Hmin Hm Hneg Hmod.
  assert (Hmf : Z.of_nat m + (if neg then 1 else 0) <= PySet.fill so)
    by (rewrite Hf; lia).
  assert (Hneg1 : 0 <= (if neg then 1 else 0) <= 1) by (destruct neg; lia).
  destruct (grow_size minused ltac:(lia)) as (k & Hk & Egrow & Hlt).
  unfold PySet.set_table_resize. rewrite Egrow.
  exists k, (Z.to_nat (2 ^ k)).
  assert (Hpow : 8 <= 2 ^ k).
  { change 8 with (2 ^ 3). apply Z.pow_le_mono_r; lia. }
  cbn [PySet.table PySet.mask PySet.fill].
  split; [exact Hk |]. split; [lia |]. split; [reflexivity |].
  split; [| split; [exact Hf | lia]].
  rewrite Ht, fold_entries, iterate_canon by assumption.
  unfold PySet.new_table. rewrite <- canon_empty.
  unfold canon_keys. rewrite fold_left_app.
  rewrite (insert_clusters k) by lia.
  destruct neg; cbn [fold_left]; [| reflexivity].
  apply insert_outlier; lia.
Qed.


Ltac open_canonical H :=
  let n := fresh "n" in
  let size := fresh "size" in
  let Hn := fresh "Hn" in
  let Hsize := fresh "Hsize" in
  let Hmask := fresh "Hmask" in
  let Htable := fresh "Htable" in
  let Hfill := fresh "Hfill" in
  let Hload := fresh "Hload" in
  let Hpow := fresh "Hpow" in
  destruct H as (n & size & Hn & Hsize & Hmask & Htable & Hfill & Hload);
  assert (Hpow : 8 <= 2 ^ n)
    by (change 8 with (2 ^ 3); apply Z.pow_le_mono_r; lia);
  rewrite Hmask, Hfill in Hload;
  rewrite <- Hsize in Hload, Hpow.

Lemma add_known_cluster (so : PySet.set_object) (m : nat) (neg : bool)
  (l : Z) :
  canonical so m neg -> 0 <= l < Z.of_nat m ->
  Z.of_nat m < PySet.PyHASH_MODULUS ->
  PySet.set_add_entry probe so l = so.
Proof.
  intros H Hl Hmod. open_canonical H.
  assert (Hb : 0 <= (if neg then 1 else 0) <= 1) by (destruct neg; lia).
  assert (He : nth (Z.to_nat l) (canon size m neg) None = Some l).
  { rewrite nth_canon by lia. unfold canon_entry.
    destruct (Nat.ltb_spec (Z.to_nat l) m); [| lia].
    now rewrite Z2Nat.id by lia. }
  unfold PySet.set_add_entry, PySet.slot_for. rewrite Hmask, Htable.
  rewrite home_small by (rewrite <- ?Hsize; lia).
  rewrite He, Z.eqb_refl, He. reflexivity.
Qed.

Lemma add_known_outlier (so : PySet.set_object) (m : nat) :
  canonical so m true -> PySet.set_add_entry probe so (-1) = so.
Proof.
  intros H. open_canonical H.
  assert (He : nth (size - 2) (canon size m true) None = Some (-1)).
  { rewrite nth_canon by lia. unfold canon_entry. cbn [andb].
    destruct (Nat.ltb_spec (size - 2) m); [lia |].
    destruct (Nat.eqb_spec (S (S (size - 2))) size); [reflexivity | lia]. }
  unfold PySet.set_add_entry, PySet.slot_for. rewrite Hmask, Htable.
  rewrite home_outlier by lia.
  replace (Z.to_nat (2 ^ n - 2)) with (size - 2)%nat
    by (rewrite <- Hsize; lia).
  rewrite He, Z.eqb_refl, He. reflexivity.
Qed.

Lemma after_put_canonical (so : PySet.set_object) (n : Z) (size m : nat)
  (neg : bool) :
  3 <= n -> Z.of_nat size = 2 ^ n -> PySet.mask so = 2 ^ n - 1 ->
  PySet.table so = canon size m neg ->
  PySet.fill so = Z.of_nat m + (if neg then 1 else 0) ->
  1 <= PySet.fill so ->
  (m <= size)%nat -> (neg = true -> (m + 2 <= size)%nat) ->
  Z.of_nat m < PySet.PyHASH_MODULUS ->
  canonical
    (if PySet.fill so * 5 <? PySet.mask so * 3 then so
     else PySet.set_table_resize probe so
            (if 50000 <? PySet.fill so then PySet.fill so * 2
             else PySet.fill so * 4))
    m neg.
Proof.
  intros Hn Hsize Hmask Htable Hfill Hf1 Hm Hneg Hmod.
  destruct (Z.ltb_spec (PySet.fill so * 5) (PySet.mask so * 3)) as [Hl | _].
  - exists n, size. repeat split; assumption.
  - apply resize_canonical with size; try assumption.
    destruct (50000 <? PySet.fill so); lia.
Qed.

Lemma add_new_cluster (so : PySet.set_object) (m : nat) (neg : bool) :
  canonical so m neg -> Z.of_nat m + 1 < PySet.PyHASH_MODULUS ->
  canonical (PySet.set_add_entry probe so (Z.of_nat m)) (S m) neg.
Proof.
  intros H Hmod. open_canonical H.
  assert (Hb : 0 <= (if neg then 1 else 0) <= 1) by (destruct neg; lia).
  assert (He : nth m (canon size m neg) None = None).
  { rewrite nth_canon by lia. unfold canon_entry.
    rewrite Nat.ltb_irrefl. destruct neg; [| reflexivity]. cbn [andb].
    destruct (Nat.eqb_spec (S (S m)) size); [lia | reflexivity]. }
  unfold PySet.set_add_entry, PySet.slot_for. rewrite Hmask, Htable.
  rewrite home_small by (rewrite <- ?Hsize; lia). rewrite Nat2Z.id.
  rewrite He, He.
  rewrite put_cluster by lia.
  apply (after_put_canonical
           {| PySet.table := canon size (S m) neg;
              PySet.mask := 2 ^ n - 1; PySet.fill := PySet.fill so + 1 |}
           n size (S m) neg); cbn [PySet.table PySet.mask PySet.fill];
    try assumption; try reflexivity; try lia.
Qed.

Lemma add_new_outlier (so : PySet.set_object) (m : nat) :
  canonical so m false -> Z.of_nat m < PySet.PyHASH_MODULUS ->
  canonical (PySet.set_add_entry probe so (-1)) m true.
Proof.
  intros H Hmod. open_canonical H.
  assert (He : nth (size - 2) (canon size m false) None = None).
  { rewrite nth_canon by lia. unfold canon_entry.
    destruct (Nat.ltb_spec (size - 2) m); [lia | reflexivity]. }
  unfold PySet.set_add_entry, PySet.slot_for. rewrite Hmask, Htable.
  rewrite home_outlier by lia.
  replace (Z.to_nat (2 ^ n - 2)) with (size - 2)%nat
    by (rewrite <- Hsize; lia).
  rewrite He, He.
  rewrite put_outlier by lia.
  apply (after_put_canonical
           {| PySet.table := canon size m true;
              PySet.mask := 2 ^ n - 1; PySet.fill := PySet.fill so + 1 |}
           n size m true); cbn [PySet.table PySet.mask PySet.fill];
    try assumption; try reflexivity; try lia.
Qed.

Lemma canon_keys_In (m : nat) (neg : bool) (c : Z) :
  In c (canon_keys m neg) <->
  0 <= c < Z.of_nat m \/ (neg = true /\ c = -1).
Proof.
  unfold canon_keys. rewrite in_app_iff, in_map_iff. split.
  - intros [(i & <- & Hi) | H].
    + apply in_seq in Hi. left. lia.
    + destruct neg; [| destruct H]. destruct H as [<- | []]. now right.
  - intros [H | [-> ->]]; [left | right; now left].
    exists (Z.to_nat c). split; [lia |]. apply in_seq. lia.
Qed.

(** Adding numbered labels keeps the table canonical. *)
Lemma set_of_numbered (labels : list Z) :
  forall so m neg,
    canonical so m neg -> numbered m labels = true ->
    Z.of_nat (m + length labels) < PySet.PyHASH_MODULUS ->
    exists m' neg',
      canonical (fold_left (PySet.set_add_entry probe) labels so) m' neg' /\
      forall c, In c (canon_keys m' neg') <->
                In c (canon_keys m neg) \/ In c labels.
Proof.
  induction labels as [|l labels IH]; intros so m neg Hcan Hnum Hmod.
  - exists m, neg. split; [exact Hcan |]. intros c. simpl. tauto.
  - cbn [numbered] in Hnum. cbn [fold_left length] in *.
    destruct (is_outlier l) eqn:Ho.
    + apply Z.eqb_eq in Ho. subst l. destruct neg.
      * rewrite add_known_outlier with (m := m) by exact Hcan.
        destruct (IH so m true Hcan Hnum ltac:(lia)) as (m' & neg' & Hc & Hk).
        exists m', neg'. split; [exact Hc |]. intros c. rewrite Hk.
        rewrite !canon_keys_In. simpl. intuition.
      * destruct (IH _ m true (add_new_outlier so m Hcan ltac:(lia)) Hnum
                    ltac:(lia)) as (m' & neg' & Hc & Hk).
        exists m', neg'. split; [exact Hc |]. intros c. rewrite Hk.
        rewrite !canon_keys_In. simpl. intuition.
    + destruct (Z.leb_spec 0 l) as [H0 | H0]; cbn [andb] in Hnum.
      * destruct (Z.ltb_spec l (Z.of_nat m)) as [Hlt | Hge].
        -- rewrite add_known_cluster with (m := m) (neg := neg)
             by (try assumption; lia).
           destruct (IH so m neg Hcan Hnum ltac:(lia))
             as (m' & neg' & Hc & Hk).
           exists m', neg'. split; [exact Hc |]. intros c. rewrite Hk.
           rewrite !canon_keys_In. simpl. intuition (subst; auto).
        -- destruct (Z.eqb_spec l (Z.of_nat m)) as [-> | _];
             [| discriminate].
           destruct (IH _ (S m) neg (add_new_cluster so m neg Hcan ltac:(lia))
                       Hnum ltac:(lia)) as (m' & neg' & Hc & Hk).
           exists m', neg'. split; [exact Hc |]. intros c. rewrite Hk.
           rewrite !canon_keys_In. simpl. intuition lia.
      * destruct (Z.eqb_spec l (Z.of_nat m)); [lia | discriminate].
Qed.

End Probing.
End SetOrder.

Lemma ids_ascending (a m : nat) :
  StronglySorted Z.lt (map Z.of_nat (seq a m)).
Proof.
  revert a. induction m as [|m IH]; intros a; cbn [seq map]; constructor.
  - apply IH.
  - apply Forall_forall. intros c Hc. apply in_map_iff in Hc.
    destruct Hc as (i & <- & Hi). apply in_seq in Hi. lia.
Qed.

Lemma cluster_ids_canon (m : nat) (neg : bool) :
  cluster_ids_of (canon_keys m neg) = map Z.of_nat (seq 0 m).
Proof.
  unfold cluster_ids_of, canon_keys. rewrite filter_app.
  replace (filter (fun c => negb (is_outlier c)) (if neg then [(-1)%Z] else []))
    with (@nil Z) by (now destruct neg).
  rewrite app_nil_r. apply forallb_filter_id, forallb_forall.
  intros c Hc. apply in_map_iff in Hc. destruct Hc as (i & <- & _).
  unfold is_outlier. destruct (Z.eqb_spec (Z.of_nat i) (-1)); [lia |].
  reflexivity.
Qed.

Lemma canon_keys_nodup (m : nat) (neg : bool) : NoDup (canon_keys m neg).
Proof.
  unfold canon_keys.
  assert (Hids : NoDup (map Z.of_nat (seq 0 m)))
    by (apply Finite.Injective_map_NoDup; [| apply seq_NoDup];
        intros i j; apply Nat2Z.inj).
  destruct neg; [| now rewrite app_nil_r].
  apply NoDup_rev in Hids.
  rewrite <- (rev_involutive (_ ++ _)). apply NoDup_rev.
  rewrite rev_app_distr. cbn [rev app]. constructor; [| exact Hids].
  rewrite <- in_rev, in_map_iff. intros (i & Hi & _). lia.
Qed.

Lemma empty_canonical : canonical PySet.empty_set 0 false.
Proof.
  exists 3%Z, 8%nat. repeat split; try reflexivity; vm_compute; congruence.
Qed.

(** X6. In CPython, iterating [set(labels)] over labels numbered as DBSCAN
    numbers them (here with fewer labels than the hash modulus) meets every
    label once, the cluster ids in ascending order and the outlier mark
    last: the ids sit in the hash table at the slots of their numbers, and
    no insertion ever needs a second probe. *)
Theorem cpython_set_order (probe : list (option Z) -> Z -> Z -> nat)
  (labels : list Z) :
  numbered 0 labels = true ->
  (Z.of_nat (length labels) < PySet.PyHASH_MODULUS)%Z ->
  let ids := PySet.set_iteration probe labels in
  enumerates ids labels /\
  StronglySorted Z.lt (cluster_ids_of ids) /\
  exists m neg, ids = canon_keys m neg.
Proof.
  intros Hnum Hlen.
  destruct (set_of_numbered probe labels PySet.empty_set 0 false
              empty_canonical Hnum Hlen) as (m & neg & Hcan & Hkeys).
  assert (Hids : PySet.set_iteration probe labels = canon_keys m neg).
  { unfold PySet.set_iteration, PySet.iterate, PySet.set_of.
    destruct Hcan as (n & size & Hn & Hsize & Hmask & Htable & Hfill & Hload).
    rewrite Htable. rewrite Hmask, Hfill, <- Hsize in Hload.
    apply iterate_canon; [destruct neg; lia |]. intros ->. lia. }
  cbv zeta. rewrite Hids. split; [| split].
  - split; [apply canon_keys_nodup |]. intros c. rewrite Hkeys.
    rewrite canon_keys_In. simpl. intuition lia.
  - rewrite cluster_ids_canon. apply ids_ascending.
  - now exists m, neg.
Qed.

(** Seven labels, enough for the table to be resized once. *)
Lemma cpython_set_order_witness :
  let labels := [0; 1; -1; 1; 2; 3; 4; 0]%Z in
  let ids := PySet.set_iteration (fun _ _ _ => 0%nat) labels in
  enumerates ids labels /\
  StronglySorted Z.lt (cluster_ids_of ids) /\
  exists m neg, ids = canon_keys m neg.
Proof.
  exact (cpython_set_order (fun _ _ _ => 0%nat)
           [0; 1; -1; 1; 2; 3; 4; 0]%Z eq_refl eq_refl).
Defined.
(* ================================================================== *)
(** ** The JSON block of a reply *)

Lemma find_char_app (c : ascii) (a b : string) :
  contains_char c a = false ->
  find_char c (a ++ String c b) = Some (String.length a).
Proof.
  induction a as [|x a IH]; simpl; intros H.
  - now rewrite Ascii.eqb_refl.
  - apply orb_false_iff in H as [Hx Ha]. rewrite Hx, IH by exact Ha.
    reflexivity.
Qed.

Lemma rfind_char_none (c : ascii) (s : string) :
  contains_char c s = false -> rfind_char c s = None.
Proof.
  induction s as [|x s IH]; simpl; intros H; [reflexivity |].
  apply orb_false_iff in H as [Hx Hs]. now rewrite IH, Hx.
Qed.

Lemma rfind_char_app (c : ascii) (a b : string) :
  contains_char c b = false ->
  rfind_char c (a ++ String c b) = Some (String.length a).
Proof.
  intros H. induction a as [|x a IH]; simpl.
  - now rewrite rfind_char_none, Ascii.eqb_refl.
  - now rewrite IH.
Qed.

Lemma find_char_split (c : ascii) (t : string) : forall i,
  find_char c t = Some i ->
  exists a b, t = (a ++ String c b)%string /\ String.length a = i /\
              contains_char c a = false.
Proof.
  induction t as [|x t IH]; simpl; intros i H; [discriminate |].
  destruct (Ascii.eqb_spec x c) as [-> | Hne].
  - injection H as <-. now exists "", t.
  - destruct (find_char c t) as [j|]; [| discriminate]. injection H as <-.
    destruct (IH j eq_refl) as (a & b & -> & <- & Ha).
    exists (String x a), b. simpl. repeat split.
    rewrite Ha. now destruct (Ascii.eqb_spec x c).
Qed.

Lemma rfind_char_split (c : ascii) (t : string) : forall i,
  rfind_char c t = Some i ->
  exists a b, t = (a ++ String c b)%string /\ String.length a = i /\
              contains_char c b = false.
Proof.
  induction t as [|x t IH]; simpl; intros i H; [discriminate |].
  destruct (rfind_char c t) as [j|] eqn:E.
  - injection H as <-. destruct (IH j eq_refl) as (a & b & -> & <- & Hb).
    now exists (String x a), b.
  - destruct (Ascii.eqb_spec x c) as [-> | _]; [| discriminate].
    injection H as <-. exists "", t. repeat split.
    clear IH. induction t as [|y t IHt]; [reflexivity |].
    simpl in E |- *. destruct (rfind_char c t); [discriminate |].
    destruct (Ascii.eqb y c); [discriminate |]. now apply IHt.
Qed.

Lemma find_char_none (c : ascii) (t : string) :
  find_char c t = None -> contains_char c t = false.
Proof.
  induction t as [|x t IH]; simpl; [reflexivity |].
  destruct (Ascii.eqb x c); [discriminate |].
  destruct (find_char c t); [discriminate |]. intros _. now apply IH.
Qed.

Lemma substring_skip (a b : string) (n m : nat) :
  substring (String.length a + n) m (a ++ b) = substring n m b.
Proof. induction a as [|x a IH]; simpl; [reflexivity | exact IH]. Qed.

Lemma substring_prefix (a b : string) :
  substring 0 (String.length a) (a ++ b) = a.
Proof.
  induction a as [|x a IH]; simpl; [now destruct b | now rewrite IH].
Qed.

Lemma substring_none (s : string) : forall n, substring n 0 s = "".
Proof.
  induction s as [|x s IH]; intros [|n]; simpl; try reflexivity. apply IH.
Qed.

Lemma length_app_string (a b : string) :
  String.length (a ++ b) = String.length a + String.length b.
Proof. induction a as [|x a IH]; simpl; [reflexivity | now rewrite IH]. Qed.

Lemma length_braced (body : string) :
  String.length (braced body) = S (S (String.length body)).
Proof.
  unfold braced. cbn [String.length]. rewrite length_app_string.
  cbn [String.length]. lia.
Qed.

(** The span from the first opening brace to the last closing one. *)
Lemma slice_block (pre body post : string) :
  slice (String.length pre)
    (S (String.length pre + S (String.length body)))
    (pre ++ braced body ++ post) = braced body.
Proof.
  unfold slice.
  replace (S (String.length pre + S (String.length body)) - String.length pre)
    with (String.length (braced body))
    by (rewrite length_braced; lia).
  rewrite <- (Nat.add_0_r (String.length pre)) at 1.
  rewrite substring_skip. apply substring_prefix.
Qed.

Lemma block_positions (pre body post : string) :
  contains_char lbrace pre = false -> contains_char rbrace post = false ->
  find_char lbrace (pre ++ braced body ++ post) = Some (String.length pre) /\
  rfind_char rbrace (pre ++ braced body ++ post) =
    Some (String.length pre + S (String.length body)).
Proof.
  intros Hpre Hpost. split.
  - unfold braced. cbn [append]. now apply find_char_app.
  - replace (pre ++ braced body ++ post)%string
      with ((pre ++ String lbrace body) ++ String rbrace post)%string
      by (unfold braced; cbn [append];
          rewrite !string_app_assoc; reflexivity).
    rewrite rfind_char_app by exact Hpost.
    rewrite length_app_string. reflexivity.
Qed.

(** A text either has an opening brace before its last closing brace, and
    is then cut in three around the span between them, or it has not. *)
Lemma brace_cases (text : string) :
  (exists pre body post,
     text = (pre ++ braced body ++ post)%string /\
     contains_char lbrace pre = false /\ contains_char rbrace post = false)
  \/
  (forall start stop,
     find_char lbrace text = Some start ->
     rfind_char rbrace text = Some stop -> stop <= start).
Proof.
  destruct (find_char lbrace text) as [i|] eqn:Ef;
    [| right; intros ? ? [=]].
  destruct (rfind_char rbrace text) as [j|] eqn:Er;
    [| right; intros ? ? _ [=]].
  destruct (Nat.ltb_spec i j) as [Hlt | Hge];
    [left | right; intros ? ? [= <-] [= <-]; exact Hge].
  destruct (find_char_split _ _ _ Ef) as (a & b & Ht & Ha & Hna).
  destruct (rfind_char_split _ _ _ Er) as (a' & b' & Ht' & Ha' & Hnb).
  assert (Hm : exists m, b = (m ++ String rbrace b')%string).
  { subst i j. rewrite Ht in Ht'. clear Ef Er Ht Hna Hnb.
    revert a' Ht' Hlt. induction a as [|x a IH]; intros a' E Hlt.
    - destruct a' as [|y a']; [simpl in Hlt; lia |].
      simpl in E. injection E as _ E. now exists a'.
    - destruct a' as [|y a']; [simpl in Hlt; lia |].
      simpl in E. injection E as _ E. apply (IH a' E). simpl in Hlt. lia. }
  destruct Hm as (m & ->).
  exists a, m, b'. repeat split; try assumption.
  rewrite Ht. unfold braced. cbn [append]. now rewrite string_app_assoc.
Qed.

Lemma find_char_before (c : ascii) (a b : string) :
  exists i, find_char c (a ++ String c b) = Some i /\ i <= String.length a.
Proof.
  induction a as [|x a IH]; simpl.
  - rewrite Ascii.eqb_refl. exists 0. split; [reflexivity | lia].
  - destruct (Ascii.eqb x c); [exists 0; split; [reflexivity | lia] |].
    destruct IH as (i & -> & Hi). exists (S i). split; [reflexivity | lia].
Qed.

Lemma rfind_char_after (c : ascii) (a b : string) :
  exists j, rfind_char c (a ++ String c b) = Some j /\ String.length a <= j.
Proof.
  induction a as [|x a IH]; simpl.
  - destruct (rfind_char c b) as [j|].
    + exists (S j). split; [reflexivity | lia].
    + rewrite Ascii.eqb_refl. exists 0. split; [reflexivity | lia].
  - destruct IH as (j & -> & Hj). exists (S j). split; [reflexivity | lia].
Qed.

(** An opening brace somewhere before a closing one puts the first opening
    brace before the last closing one. *)
Lemma braces_in_order (pre body post : string) :
  exists start stop,
    find_char lbrace (pre ++ braced body ++ post) = Some start /\
    rfind_char rbrace (pre ++ braced body ++ post) = Some stop /\
    start < stop.
Proof.
  destruct (find_char_before lbrace pre ((body ++ String rbrace "") ++ post))
    as (i & Hi & Hle).
  destruct (rfind_char_after rbrace (pre ++ String lbrace body) post)
    as (j & Hj & Hge).
  exists i, j. split; [exact Hi |]. split.
  - rewrite <- Hj. f_equal. unfold braced. cbn [append].
    now rewrite !string_app_assoc.
  - rewrite length_app_string in Hge. cbn [String.length] in Hge. lia.
Qed.

Lemma block_unchanged (text : string) :
  ~ (exists pre body post, text = (pre ++ braced body ++ post)%string) ->
  _extract_json_block text = text.
Proof.
  intros Hno. unfold _extract_json_block.
  destruct (find_char lbrace text) as [i|] eqn:Ef; [| reflexivity].
  destruct (rfind_char rbrace text) as [j|] eqn:Er; [| reflexivity].
  destruct (Nat.ltb_spec i j) as [Hlt | _]; [| reflexivity].
  exfalso. apply Hno.
  destruct (brace_cases text) as [(pre & body & post & E & _) | H].
  - now exists pre, body, post.
  - specialize (H i j Ef Er). lia.
Qed.

Lemma block_recovered (pre body post : string) :
  contains_char lbrace pre = false -> contains_char rbrace post = false ->
  _extract_json_block (pre ++ braced body ++ post) = braced body.
Proof.
  intros Hpre Hpost. unfold _extract_json_block.
  destruct (block_positions pre body post Hpre Hpost) as [-> ->].
  destruct (Nat.ltb_spec (String.length pre)
              (String.length pre + S (String.length body))); [| lia].
  apply slice_block.
Qed.

(** X7.  [_extract_json_block] returns the span from the first opening
    brace of the text to its last closing brace, and the text itself when
    no opening brace stands before a closing one: a reply [pre{body}post]
    without opening brace in [pre] and without closing brace in [post]
    gives [{body}].  Cutting a second time changes nothing. *)
Theorem json_block_extraction (text : string) :
  (forall pre body post,
     text = (pre ++ braced body ++ post)%string ->
     contains_char lbrace pre = false -> contains_char rbrace post = false ->
     _extract_json_block text = braced body) /\
  (~ (exists pre body post, text = (pre ++ braced body ++ post)%string) ->
   _extract_json_block text = text) /\
  ((exists body, _extract_json_block text = braced body) \/
   _extract_json_block text = text) /\
  _extract_json_block (_extract_json_block text) = _extract_json_block text.
Proof.
  split; [intros pre body post ->; apply block_recovered |].
  split; [apply block_unchanged |].
  assert (H : (exists body, _extract_json_block text = braced body) \/
              _extract_json_block text = text).
  { destruct (brace_cases text)
      as [(pre & body & post & -> & Hpre & Hpost) | H].
    - left. exists body. now apply block_recovered.
    - right. apply block_unchanged.
      intros (pre & body & post & ->).
      destruct (braces_in_order pre body post) as (i & j & Hi & Hj & Hlt).
      specialize (H i j Hi Hj). lia. }
  split; [exact H |].
  destruct H as [(body & ->) | E]; [| rewrite E; exact E].
  rewrite <- (string_app_nil_r (braced body)) at 1.
  apply (block_recovered "" body ""); reflexivity.
Qed.

(** *** The cut inside [call_claude_api] *)

Lemma find_rfind_apart (c d : ascii) (s : string) : forall i,
  c <> d -> find_char c s = Some i -> rfind_char d s <> Some i.
Proof.
  induction s as [|x s IH]; simpl; intros i Hcd Hf Hr; [discriminate |].
  destruct (Ascii.eqb_spec x c) as [-> | Hxc].
  - injection Hf as <-.
    destruct (rfind_char d s); [discriminate |].
    destruct (Ascii.eqb_spec c d); [contradiction | discriminate].
  - destruct (find_char c s) as [k|]; [| discriminate]. injection Hf as <-.
    destruct (rfind_char d s) as [k'|] eqn:Er.
    + injection Hr as ->. now apply (IH k Hcd).
    + destruct (Ascii.eqb x d); discriminate.
Qed.

Lemma lstrip_app (a b : string) (c : ascii) :
  py_isspace c = false ->
  lstrip (a ++ String c b) = (lstrip a ++ String c b)%string.
Proof.
  intros Hc. induction a as [|x a IH]; simpl; [now rewrite Hc |].
  destruct (py_isspace x); [exact IH | reflexivity].
Qed.

Lemma rstrip_app (a b : string) (c : ascii) :
  py_isspace c = false ->
  rstrip (a ++ String c b) = (a ++ String c (rstrip b))%string.
Proof.
  intros Hc. induction a as [|x a IH]; simpl.
  - now rewrite Hc.
  - rewrite IH. destruct a; simpl; now rewrite andb_false_r.
Qed.

Lemma contains_char_lstrip (c : ascii) (s : string) :
  contains_char c s = false -> contains_char c (lstrip s) = false.
Proof.
  induction s as [|x s IH]; simpl; intros H; [reflexivity |].
  apply orb_false_iff in H as [Hx Hs].
  destruct (py_isspace x); [now apply IH | simpl; now rewrite Hx, Hs].
Qed.

Lemma contains_char_rstrip (c : ascii) (s : string) :
  contains_char c s = false -> contains_char c (rstrip s) = false.
Proof.
  induction s as [|x s IH]; simpl; intros H; [reflexivity |].
  apply orb_false_iff in H as [Hx Hs].
  destruct (py_isspace x && is_empty (rstrip s)); [reflexivity |].
  simpl. now rewrite Hx, IH.
Qed.

Lemma strip_block (pre body post : string) :
  strip (pre ++ braced body ++ post) =
  (lstrip pre ++ braced body ++ rstrip post)%string.
Proof.
  unfold strip, braced. cbn [append].
  rewrite lstrip_app by reflexivity.
  replace (lstrip pre
           ++ String lbrace ((body ++ String rbrace "") ++ post))%string
    with ((lstrip pre ++ String lbrace body) ++ String rbrace post)%string
    by (rewrite !string_app_assoc; reflexivity).
  rewrite rstrip_app by reflexivity.
  rewrite !string_app_assoc. reflexivity.
Qed.

Lemma extract_json_stripped (text : string) :
  extract_json text =
  if contains_char lbrace (strip text) then
    match find_char lbrace (strip text), rfind_char rbrace (strip text) with
    | Some start, Some stop => slice start (S stop) (strip text)
    | Some start, None => slice start 0 (strip text)
    | None, _ => strip text
    end
  else strip text.
Proof.
  unfold extract_json. cbv zeta.
  destruct (contains_char lbrace (strip text)); [| reflexivity].
  destruct (find_char lbrace (strip text)); [| reflexivity].
  now destruct (rfind_char rbrace (strip text)).
Qed.

Lemma contains_char_find (c : ascii) (s : string) :
  contains_char c s = true -> exists i, find_char c s = Some i.
Proof.
  induction s as [|x s IH]; simpl; [discriminate |].
  destruct (Ascii.eqb x c); [now exists 0 |]. simpl. intros H.
  destruct (IH H) as (i & ->). now exists (S i).
Qed.

Lemma cuts_agree (text : string) :
  (exists pre body post, strip text = (pre ++ braced body ++ post)%string)
  \/ contains_char lbrace (strip text) = false ->
  extract_json text = _extract_json_block (strip text).
Proof.
  rewrite extract_json_stripped. unfold _extract_json_block.
  intros [(pre & body & post & E) | Hno].
  - rewrite E.
    destruct (braces_in_order pre body post) as (i & j & Hi & Hj & Hlt).
    rewrite Hi, Hj.
    assert (Hhas : contains_char lbrace (pre ++ braced body ++ post) = true).
    { destruct (find_char_split _ _ _ Hi) as (a & b & Ea & _).
      rewrite Ea, contains_char_app. cbn [contains_char].
      now rewrite Ascii.eqb_refl, orb_true_r. }
    rewrite Hhas.
    destruct (Nat.ltb_spec i j); [reflexivity | lia].
  - rewrite Hno.
    destruct (find_char lbrace (strip text)) as [i|] eqn:Ef;
      [| reflexivity].
    destruct (find_char_split _ _ _ Ef) as (a & b & E & _).
    rewrite E, contains_char_app in Hno. cbn [contains_char] in Hno.
    now rewrite Ascii.eqb_refl, orb_true_r in Hno.
Qed.

(** X8.  The cut that [call_claude_api] makes in a structured reply and
    [_extract_json_block] agree on the trimmed reply wherever an opening
    brace stands before a closing one (both return the span between the
    first and the last), and where the reply has no opening brace at all
    (both return it trimmed).  They part on a reply that has an opening
    brace but no closing brace after the first one: there the helper keeps
    the text and [call_claude_api] is left with the empty string. *)
Theorem structured_cut_and_helper (text : string) :
  ((exists pre body post, strip text = (pre ++ braced body ++ post)%string)
   \/ contains_char lbrace (strip text) = false ->
   extract_json text = _extract_json_block (strip text)) /\
  (contains_char lbrace (strip text) = true ->
   ~ (exists pre body post, strip text = (pre ++ braced body ++ post)%string) ->
   extract_json text = "" /\
   _extract_json_block (strip text) = strip text) /\
  (forall pre body post,
     text = (pre ++ braced body ++ post)%string ->
     contains_char lbrace pre = false -> contains_char rbrace post = false ->
     extract_json text = braced body).
Proof.
  pose proof (cuts_agree text) as Hagree.
  split; [exact Hagree |]. split.
  - intros Hhas Hno. split; [| now apply block_unchanged].
    rewrite extract_json_stripped, Hhas.
    destruct (contains_char_find _ _ Hhas) as (i & Ei). rewrite Ei.
    destruct (rfind_char rbrace (strip text)) as [j|] eqn:Er;
      [| apply substring_none].
    destruct (Nat.ltb_spec i j) as [Hlt | Hge].
    + exfalso. apply Hno.
      destruct (brace_cases (strip text))
        as [(pre & body & post & E & _) | H];
        [now exists pre, body, post | specialize (H i j Ei Er); lia].
    + assert (Hne : j <> i).
      { intros ->. revert Er. apply find_rfind_apart with lbrace;
          [discriminate | exact Ei]. }
      unfold slice. replace (S j - i) with 0 by lia.
      apply substring_none.
  - intros pre body post -> Hpre Hpost.
    rewrite Hagree
      by (left; exists (lstrip pre), body, (rstrip post); apply strip_block).
    rewrite strip_block.
    apply block_recovered;
      [now apply contains_char_lstrip | now apply contains_char_rstrip].
Qed.
(* ================================================================== *)
(** ** The codebook text of the prompts *)

Lemma join_In (sep x : string) (l : list string) :
  In x l -> exists a b, join sep l = (a ++ x ++ b)%string.
Proof.
  induction l as [|y l IH]; intros Hin; [destruct Hin |].
  destruct Hin as [-> | Hin].
  - destruct l as [|z l].
    + exists "", "". cbn. now rewrite string_app_nil_r.
    + exists "", (sep ++ join sep (z :: l))%string.
      now rewrite join_cons by discriminate.
  - destruct l as [|z l]; [destruct Hin |].
    destruct (IH Hin) as (a & b & E).
    exists (y ++ sep ++ a)%string, b.
    rewrite join_cons, E, !string_app_assoc by discriminate. reflexivity.
Qed.

Lemma code_line_split (item : Code) :
  ("- Code: " ++ code item ++ nl ++ "  Description: " ++ description item)%string
  = (code_header item ++ String " " (description item))%string.
Proof.
  unfold code_header. rewrite !string_app_assoc. reflexivity.
Qed.

Lemma strip_keeps (a h t : string) (c0 c1 : ascii) :
  py_isspace c0 = false -> py_isspace c1 = false ->
  strip (a ++ String c0 (h ++ String c1 t)) =
  (lstrip a ++ String c0 (h ++ String c1 (rstrip t)))%string.
Proof.
  intros H0 H1. unfold strip. rewrite lstrip_app by exact H0.
  replace (lstrip a ++ String c0 (h ++ String c1 t))%string
    with ((lstrip a ++ String c0 h) ++ String c1 t)%string
    by (rewrite !string_app_assoc; reflexivity).
  rewrite rstrip_app by exact H1.
  rewrite !string_app_assoc. reflexivity.
Qed.

Lemma codebook_text_cons (c : Codebook) (item : Code) (rest : list Code) :
  codes c = item :: rest ->
  reconstruct_codebook_text (Some c) <> "" /\
  forall it, In it (codes c) ->
    contains (code_header it) (reconstruct_codebook_text (Some c)) = true.
Proof.
  intros E. unfold reconstruct_codebook_text. rewrite E.
  set (line := fun it : Code =>
    ("- Code: " ++ code it ++ nl ++ "  Description: " ++ description it)%string).
  set (head := fun it : Code =>
    (" Code: " ++ code it ++ nl ++ "  Description")%string).
  assert (Hline : forall it t,
    (line it ++ t)%string =
    String "-" (head it ++ String ":" (String " " (description it) ++ t))).
  { intros it t. unfold line, head. rewrite !string_app_assoc.
    reflexivity. }
  assert (Hhead : forall it,
    code_header it = (String "-" (head it ++ ":") ++ "")%string).
  { intros it. unfold code_header, head.
    rewrite !string_app_assoc. cbn [append].
    now rewrite string_app_nil_r. }
  assert (Hin : forall it, In it (item :: rest) ->
    exists a t,
      strip (join nl (map line (item :: rest))) =
      (lstrip a ++ String "-" (head it ++ String ":" (rstrip t)))%string).
  { intros it Hin.
    destruct (join_In nl (line it) (map line (item :: rest)))
      as (a & b & Ej); [apply in_map_iff; now exists it |].
    rewrite Ej, Hline. exists a. eexists.
    apply strip_keeps; reflexivity. }
  split.
  - destruct (Hin item (or_introl eq_refl)) as (a & t & ->).
    destruct (lstrip a); discriminate.
  - intros it Hit. destruct (Hin it Hit) as (a & t & ->).
    replace (lstrip a ++ String "-" (head it ++ String ":" (rstrip t)))%string
      with (lstrip a ++ code_header it ++ rstrip t)%string.
    + apply contains_here.
    + rewrite Hhead, !string_app_assoc. cbn [append].
      now rewrite !string_app_assoc.
Qed.

(** X9.  The codebook text is empty exactly when there is no codebook or it
    has no code, and that is exactly when the handler reports an empty
    codebook instead of classifying.  Otherwise the text shows every code:
    the line of its label, up to the colon before the description, is
    there for each of them (the trimming of the text can only take
    whitespace off the last description). *)
Theorem codebook_text_complete (cb : option Codebook) :
  (reconstruct_codebook_text cb = "" <->
   cb = None \/ exists c, cb = Some c /\ codes c = []) /\
  (forall c item, cb = Some c -> In item (codes c) ->
     contains (code_header item) (reconstruct_codebook_text cb) = true) /\
  (forall (Vec : Type) (w : World Vec) (cfg : Config) (column : list cell),
     classify_all w cfg cb column = EmptyCodebook <->
     reconstruct_codebook_text cb = "").
Proof.
  split; [| split].
  - split.
    + destruct cb as [c|]; [| now left]. intros H. right. exists c.
      split; [reflexivity |].
      destruct (codes c) as [|item rest] eqn:E; [reflexivity |].
      now destruct (codebook_text_cons c item rest E) as (Hne & _).
    + intros [-> | (c & -> & E)]; [reflexivity |].
      unfold reconstruct_codebook_text. now rewrite E.
  - intros c item -> Hin.
    destruct (codes c) as [|it rest] eqn:E; [destruct Hin |].
    destruct (codebook_text_cons c it rest E) as (_ & Hall).
    apply Hall. now rewrite E.
  - intros Vec w cfg column. unfold classify_all. cbv zeta.
    destruct (reconstruct_codebook_text cb) as [|x s]; cbn [is_empty].
    + tauto.
    + split; [| discriminate].
      destruct (fill_cache w cfg (String x s) (unique_responses_of column)
                  initial_state); discriminate.
Qed.
(* ================================================================== *)
(** ** The column offered for coding *)

(** The Response Set has at least as many members as the column has
    distinct trimmed values. *)
Lemma unique_count_le (column : list cell) :
  unique_count column <= length (unique_responses_of column).
Proof.
  unfold unique_count, nunique. cbv zeta.
  rewrite <- (length_map strip (unique_responses_of column)).
  apply NoDup_incl_length; [apply NoDup_nodup |].
  intros x Hx. apply nodup_In in Hx. apply filter_In in Hx as [Hx Hne].
  apply in_map_iff in Hx as (c & <- & Hc).
  apply in_map_iff. exists (py_str c). split; [reflexivity |].
  unfold unique_responses_of. apply filter_In. split.
  - apply in_map_iff. exists c. split; [reflexivity |].
    unfold unique. apply unique_from_In. split; [exact Hc | tauto].
  - unfold truthy. destruct (strip (py_str c)); [discriminate | reflexivity].
Qed.

(** X10.  A column that the selector offers has more than fifty members in
    its Response Set (as many, at least, as its distinct trimmed values),
    so for such a column the handler's test [len(unique_responses) > 1] is
    always met: with the clustering box ticked the clustering branch runs,
    and the Response Set is never empty. *)
Theorem offered_column_has_responses (is_text_dtype : list cell -> bool)
  (df : list (string * list cell)) (name : string) :
  In name (valid_columns is_text_dtype df) ->
  exists column,
    In (name, column) df /\
    unique_count column <= length (unique_responses_of column) /\
    50 < length (unique_responses_of column) /\
    forall (Vec : Type) (w : World Vec) (cfg : Config) (txt : string)
           (st : State),
      use_clustering cfg = true ->
      fill_cache w cfg txt (unique_responses_of column) st =
      classify_clustered w cfg txt (unique_responses_of column) st.
Proof.
  unfold valid_columns. intros Hin.
  apply in_map_iff in Hin as ([n column] & <- & Hin).
  apply filter_In in Hin as [Hin Hok]. cbn [fst snd] in *.
  apply andb_true_iff in Hok as [_ Hcount]. apply Nat.ltb_lt in Hcount.
  pose proof (unique_count_le column) as Hle.
  exists column. split; [exact Hin |]. split; [exact Hle |].
  split; [lia |].
  intros Vec w cfg txt st Hc. unfold fill_cache. rewrite Hc.
  destruct (Nat.ltb_spec 1 (length (unique_responses_of column)));
    [reflexivity | lia].
Qed.

Lemma offered_column_has_responses_witness :
  exists column,
    In ("Why did you choose us?", column) sample_frame /\
    unique_count column <= length (unique_responses_of column) /\
    50 < length (unique_responses_of column) /\
    forall (Vec : Type) (w : World Vec) (cfg : Config) (txt : string)
           (st : State),
      use_clustering cfg = true ->
      fill_cache w cfg txt (unique_responses_of column) st =
      classify_clustered w cfg txt (unique_responses_of column) st.
Proof.
  apply (offered_column_has_responses starts_with_text sample_frame).
  vm_compute. left. reflexivity.
Defined.
(* ================================================================== *)
(** ** What clustering saves, and what repetition costs *)

Section DictKeys.
Variables (K V : Type) (eqb : K -> K -> bool).
Hypothesis eqb_spec : forall a b : K, reflect (a = b) (eqb a b).

Lemma dict_set_known (d : dict K V) (k : K) (v : V) :
  In k (keys d) -> keys (dict_set eqb d k v) = keys d.
Proof.
  induction d as [|[k' v'] d IH]; simpl; intros H; [tauto |].
  destruct (eqb_spec k' k) as [-> | Hne]; [reflexivity |].
  simpl. rewrite IH; [reflexivity |]. destruct H; [congruence | assumption].
Qed.

Lemma store_all_keys (pairs : list (K * V)) : forall d : dict K V,
  NoDup (keys d) ->
  NoDup (keys (store_all eqb d pairs)) /\
  incl (keys (store_all eqb d pairs)) (keys d ++ map fst pairs).
Proof.
  induction pairs as [|[k v] pairs IH]; intros d Hnd.
  - split; [exact Hnd |]. rewrite app_nil_r. apply incl_refl.
  - unfold store_all in *. cbn [fold_left fst snd map].
    assert (Hset : NoDup (keys (dict_set eqb d k v)) /\
                   incl (keys (dict_set eqb d k v)) (keys d ++ [k])).
    { destruct (in_dec (fun a b => reflect_dec _ _ (eqb_spec a b)) k (keys d))
        as [Hin | Hout].
      - rewrite dict_set_known by exact Hin. split; [exact Hnd |].
        apply incl_appl, incl_refl.
      - rewrite (dict_set_fresh _ _ _ eqb_spec) by exact Hout.
        unfold keys. rewrite map_app. cbn [map fst].
        split; [| apply incl_refl].
        apply NoDup_rev in Hnd. rewrite <- (rev_involutive (_ ++ _)).
        apply NoDup_rev. rewrite rev_app_distr. cbn [rev app].
        constructor; [now rewrite <- in_rev | exact Hnd]. }
    destruct Hset as [Hnd' Hincl].
    destruct (IH _ Hnd') as [Hn Hi]. split; [exact Hn |].
    intros x Hx. apply Hi in Hx. apply in_app_iff in Hx as [Hx | Hx].
    + apply Hincl in Hx. apply in_app_iff in Hx as [Hx | [<- | []]];
        apply in_app_iff; [now left | right; now left].
    + apply in_app_iff. right. now right.
Qed.

End DictKeys.

Lemma first_member_In (rs : list string) (labels : list Z) (c : Z)
  (r : string) :
  first_member rs labels c r -> In r rs.
Proof. intros (i & Hi & _). now apply nth_error_In in Hi. Qed.

Lemma outliers_members (rs : list string) (labels : list Z) :
  incl (outliers_of rs labels) rs.
Proof.
  unfold outliers_of. intros r Hr.
  apply in_map_iff in Hr as ([r' l] & <- & Hf).
  apply filter_In in Hf as [Hin _]. now apply in_combine_l in Hin.
Qed.

Lemma outliers_labelled (rs : list string) (labels : list Z) (i : nat)
  (r : string) (c : Z) :
  NoDup rs -> nth_error rs i = Some r -> nth_error labels i = Some c ->
  In r (outliers_of rs labels) -> c = (-1)%Z.
Proof.
  intros Hnd Hr Hl Ho. unfold outliers_of in Ho.
  apply in_map_iff in Ho as ([r' l] & E & Hf). cbn [fst] in E. subst r'.
  apply filter_In in Hf as [Hin Hout]. cbn [snd] in Hout.
  apply Z.eqb_eq in Hout. subst l.
  apply In_nth_error in Hin as (j & Hj).
  apply nth_error_combine in Hj as [Hjr Hjl].
  assert (i = j).
  { apply (proj1 (NoDup_nth_error rs) Hnd);
      [apply nth_error_Some; congruence | congruence]. }
  subst j. congruence.
Qed.

Section Saving.
Variable Vec : Type.
Variable w : World Vec.
Variable cfg : Config.
Variable rs : list string.
Hypothesis Hnd : NoDup rs.
Hypothesis Hne : rs <> [].
Hypothesis Hc : external_contract w cfg rs.

Lemma representatives_have_first (r : string) :
  In r (representatives rs (labels_of w cfg rs)
          (set_order w (labels_of w cfg rs))) ->
  exists c, first_member rs (labels_of w cfg rs) c r.
Proof.
  pose proof (representatives_first _ w cfg rs Hc) as HF. revert HF.
  generalize (cluster_ids_of (set_order w (labels_of w cfg rs))).
  generalize (representatives rs (labels_of w cfg rs)
                (set_order w (labels_of w cfg rs))).
  intros reps ids HF Hin. induction HF as [|c r' ids reps Hcr _ IH].
  - destruct Hin.
  - destruct Hin as [-> | Hin]; [now exists c | now apply IH].
Qed.

Lemma call_order_members :
  incl (call_order rs (labels_of w cfg rs)
          (set_order w (labels_of w cfg rs))) rs.
Proof.
  unfold call_order. apply incl_app; [| apply outliers_members].
  intros r Hr. apply representatives_have_first in Hr as (c & Hr).
  now apply first_member_In in Hr.
Qed.

Lemma call_order_bound :
  length (call_order rs (labels_of w cfg rs)
            (set_order w (labels_of w cfg rs))) <= length rs.
Proof.
  apply NoDup_incl_length; [| apply call_order_members].
  apply (call_order_nodup _ w cfg rs Hnd Hc).
Qed.

(** A cluster of two members leaves one of them without a call of its
    own. *)
Lemma call_order_saves (i j : nat) (c : Z) :
  i < j ->
  nth_error (labels_of w cfg rs) i = Some c ->
  nth_error (labels_of w cfg rs) j = Some c ->
  c <> (-1)%Z ->
  length (call_order rs (labels_of w cfg rs)
            (set_order w (labels_of w cfg rs))) < length rs.
Proof.
  intros Hij Hi Hj Hout.
  set (order := call_order rs (labels_of w cfg rs)
                  (set_order w (labels_of w cfg rs))).
  destruct (Nat.lt_ge_cases (length order) (length rs)) as [H | H];
    [exact H | exfalso].
  assert (Hall : incl rs order).
  { apply NoDup_length_incl;
      [apply (call_order_nodup _ w cfg rs Hnd Hc) | exact H
      | apply call_order_members]. }
  assert (Hlen : length (labels_of w cfg rs) = length rs)
    by apply (labels_length _ w cfg rs Hc).
  destruct (nth_error rs j) as [r|] eqn:Hr.
  2:{ apply nth_error_None in Hr.
      assert (j < length (labels_of w cfg rs))
        by (apply nth_error_Some; congruence).
      lia. }
  assert (Hin : In r order) by (apply Hall; now apply nth_error_In in Hr).
  unfold order, call_order in Hin. apply in_app_iff in Hin as [Hin | Hin].
  - apply representatives_have_first in Hin
      as (c' & k & Hk & Hkl & Hfirst).
    assert (k = j).
    { apply (proj1 (NoDup_nth_error rs) Hnd);
        [apply nth_error_Some; congruence | congruence]. }
    subst k. assert (c' = c) by congruence. subst c'.
    now apply (Hfirst i Hij).
  - apply Hout.
    now apply (outliers_labelled rs (labels_of w cfg rs) j r c Hnd Hr Hj).
Qed.

End Saving.

Lemma plain_run (Vec : Type) (w : World Vec) (cfg : Config)
  (cb : option Codebook) (column : list cell) :
  let rs := unique_responses_of column in
  let txt := reconstruct_codebook_text cb in
  let n := Z.of_nat (length rs) in
  txt <> "" ->
  use_clustering cfg && (1 <? length rs)%nat = false ->
  exists st assigned,
    classify_all w cfg cb column = Classified st assigned /\
    results_cache st =
      store_all String.eqb [] (items_from w cfg txt 0 rs) /\
    api_log st = rev (map fst (calls_from w cfg txt 0 rs)) /\
    classified st = rev (items_from w cfg txt 0 rs) /\
    rev (progress st) =
      (0 :: ramp (fun i => pct_items w i n) 1 (length rs) ++ [95; 100])%Z.
Proof.
  intros rs txt n Hcb Hb.
  assert (Hfill : fill_cache w cfg txt rs initial_state =
                  Finished (classify_each w cfg txt n 1 rs initial_state)).
  { unfold fill_cache. now rewrite Hb. }
  do 2 eexists. split.
  { apply classify_all_finished; [exact Hcb | exact Hfill]. }
  fold rs txt n. rewrite classify_each_spec. cbv zeta.
  unfold after, report, initial_state.
  cbn [results_cache cache_writes api_log classified progress length].
  rewrite !app_nil_r. repeat split.
  cbn [rev]. rewrite !rev_app_distr, rev_involutive. cbn [rev app].
  rewrite <- app_assoc. reflexivity.
Qed.

(** X11.  Clustering never costs calls: under the conditions of a
    clustered run, the run with the box ticked sends at most as many
    requests as the Response Set has members, which is what the same run
    sends with the box cleared; and it sends fewer as soon as two
    responses share a cluster. *)
Theorem clustering_saves_calls (Vec : Type) (w : World Vec) (cfg : Config)
  (cb : option Codebook) (column : list cell) :
  let rs := unique_responses_of column in
  let labels := labels_of w cfg rs in
  reconstruct_codebook_text cb <> "" ->
  use_clustering cfg = true -> 1 < length rs -> NoDup rs ->
  external_contract w cfg rs ->
  exists st assigned st' assigned',
    classify_all w cfg cb column = Classified st assigned /\
    classify_all w (with_clustering false cfg) cb column =
      Classified st' assigned' /\
    length (api_log st') = length rs /\
    length (api_log st) <= length rs /\
    ((exists i j c, i < j /\ nth_error labels i = Some c /\
                    nth_error labels j = Some c /\ c <> (-1)%Z) ->
     length (api_log st) < length rs).
Proof.
  intros rs labels Hcb Hu Hlen Hnd Hc.
  set (txt := reconstruct_codebook_text cb).
  destruct (plain_run Vec w (with_clustering false cfg) cb column Hcb
              eq_refl) as (st' & assigned' & Hrun' & _ & Hlog' & _).
  exists (report 100 (report 95 (clustered_state w cfg txt rs))).
  eexists. exists st', assigned'. split.
  { apply classify_all_finished; [exact Hcb |].
    now apply fill_cache_clustered. }
  split; [exact Hrun' |]. split.
  { rewrite Hlog', length_rev, length_map. apply calls_from_length. }
  cbn [report clustered_state api_log].
  rewrite length_rev, length_map, calls_from_length.
  split; [now apply call_order_bound |].
  intros (i & j & c & Hij & Hi & Hj & Hout).
  now apply (call_order_saves Vec w cfg rs Hnd Hc i j c).
Qed.

Lemma clustering_saves_calls_witness :
  exists st assigned st' assigned',
    classify_all sample_run_world (sample_config false true) sample_codebook
      sample_column = Classified st assigned /\
    classify_all sample_run_world (sample_config false false)
      sample_codebook sample_column = Classified st' assigned' /\
    length (api_log st') = 3 /\ length (api_log st) = 2.
Proof.
  destruct (clustering_saves_calls _ sample_run_world
              (sample_config false true) sample_codebook sample_column
              sample_codebook_text eq_refl sample_size sample_nodup
              sample_contract)
    as (st & assigned & st' & assigned' & Hrun & Hrun' & Hn' & _).
  exists st, assigned, st', assigned'.
  split; [exact Hrun |]. split; [exact Hrun' |]. split; [exact Hn' |].
  vm_compute in Hrun. injection Hrun as <- _. reflexivity.
Defined.

(** *** A number beside its own text *)

Lemma int_text_not_blank (z : Z) : truthy (strip (py_str (Int z))) = true.
Proof.
  assert (H : exists c s, py_str (Int z) = String c s /\ py_isspace c = false).
  { unfold py_str, NilZero.string_of_int.
    destruct (Z.to_int z) as [u | u].
    - destruct u; cbn; eexists; eexists; split; reflexivity.
    - cbn. eexists; eexists; split; reflexivity. }
  destruct H as (c & s & -> & Hc). unfold strip. cbn [lstrip]. rewrite Hc.
  cbn [rstrip]. now rewrite Hc.
Qed.

Lemma filter_map_injective (A : Type) (f : A -> string)
  (p : string -> bool) (l : list A) (a b : A) :
  NoDup (filter p (map f l)) -> In a l -> In b l -> a <> b ->
  f a = f b -> p (f a) = true -> False.
Proof.
  intros Hnd Ha Hb Hab Hf Hp.
  induction l as [|x l IH]; [destruct Ha |].
  cbn [map filter] in Hnd.
  assert (Hcase : forall u v, u = x -> In v l -> f u = f v ->
                              p (f u) = true -> False).
  { intros u v -> Hv E Hpu. rewrite Hpu in Hnd.
    inversion Hnd as [|? ? Hnot _]; subst. apply Hnot.
    apply filter_In. split; [| exact Hpu].
    apply in_map_iff. exists v. split; [now symmetry | exact Hv]. }
  destruct Ha as [Ha | Ha], Hb as [Hb | Hb].
  - congruence.
  - now apply (Hcase a b).
  - apply (Hcase b a); [now symmetry | exact Ha | now symmetry |].
    now rewrite <- Hf.
  - apply IH; try assumption.
    destruct (p (f x)); [now inversion Hnd | exact Hnd].
Qed.

Lemma filter_map_twice (A : Type) (f : A -> string)
  (p : string -> bool) (l : list A) (a b : A) :
  In a l -> In b l -> a <> b -> f a = f b -> p (f a) = true ->
  2 <= count_occ string_dec (filter p (map f l)) (f a).
Proof.
  intros Ha Hb Hab Hf Hp.
  assert (Hone : forall l' x, In x l' -> f x = f a ->
            1 <= count_occ string_dec (filter p (map f l')) (f a)).
  { intros l' x Hx Ex. apply count_occ_In. apply filter_In.
    split; [| exact Hp]. apply in_map_iff. now exists x. }
  induction l as [|x l IH]; [destruct Ha |].
  cbn [map filter].
  destruct Ha as [Ha | Ha], Hb as [Hb | Hb].
  - congruence.
  - subst x. rewrite Hp. cbn [count_occ].
    destruct (string_dec (f a) (f a)); [| congruence].
    pose proof (Hone l b Hb (eq_sym Hf)). lia.
  - subst x. rewrite <- Hf, Hp. cbn [count_occ].
    destruct (string_dec (f a) (f a)); [| congruence].
    pose proof (Hone l a Ha eq_refl). lia.
  - specialize (IH Ha Hb). destruct (p (f x)); [| exact IH].
    cbn [count_occ]. destruct (string_dec (f x) (f a)); lia.
Qed.

(** X3.  A column that holds a number and, in another row, the text that
    spells it gives a Response Set with that text twice.  A run without
    clustering then sends one request per member of the Response Set, two
    of them for that text, and the cache ends with fewer keys than requests
    were paid for. *)
Theorem number_beside_its_text (column : list cell) (z : Z) :
  In (Int z) column -> In (Str (py_str (Int z))) column ->
  let rs := unique_responses_of column in
  2 <= count_occ string_dec rs (py_str (Int z)) /\
  ~ NoDup rs /\
  forall (Vec : Type) (w : World Vec) (cfg : Config) (cb : option Codebook),
    reconstruct_codebook_text cb <> "" -> use_clustering cfg = false ->
    exists st assigned,
      classify_all w cfg cb column = Classified st assigned /\
      length (api_log st) = length rs /\
      length (keys (results_cache st)) < length rs.
Proof.
  intros Hint Hstr rs.
  assert (Htwice : 2 <= count_occ string_dec rs (py_str (Int z))).
  { unfold rs, unique_responses_of. cbv zeta.
    apply (filter_map_twice cell py_str (fun text => truthy (strip text))
             (unique (dropna column)) (Int z) (Str (py_str (Int z)))).
    - unfold unique. apply unique_from_In. split; [| tauto].
      unfold dropna. apply filter_In. now split.
    - unfold unique. apply unique_from_In. split; [| tauto].
      unfold dropna. apply filter_In. now split.
    - discriminate.
    - reflexivity.
    - apply int_text_not_blank. }
  assert (Hdup : ~ NoDup rs).
  { intros Hnd.
    pose proof (proj1 (NoDup_count_occ string_dec rs) Hnd (py_str (Int z))).
    lia. }
  split; [exact Htwice |].
  split; [exact Hdup |].
  intros Vec w cfg cb Hcb Hu.
  destruct (plain_run Vec w cfg cb column Hcb) as
    (st & assigned & Hrun & Hcache & Hlog & _).
  { now rewrite Hu. }
  exists st, assigned. split; [exact Hrun |]. split.
  { rewrite Hlog, length_rev, length_map. apply calls_from_length. }
  rewrite Hcache. fold rs.
  destruct (store_all_keys _ _ _ String.eqb_spec
              (items_from w cfg (reconstruct_codebook_text cb) 0 rs) []
              (NoDup_nil _)) as [Hnd Hincl].
  rewrite items_from_keys in Hincl. cbn [keys map app] in Hincl.
  destruct (Nat.lt_ge_cases
              (length (keys (store_all String.eqb []
                 (items_from w cfg (reconstruct_codebook_text cb) 0 rs))))
              (length rs)) as [H | H]; [exact H | exfalso].
  apply Hdup. now apply (NoDup_incl_NoDup Hnd).
Qed.

Lemma number_beside_its_text_witness :
  count_occ string_dec (unique_responses_of [Int 5; Str "5"; Str "good"]) "5"
  = 2 /\
  exists st assigned,
    classify_all sample_run_world (sample_config false false) sample_codebook
      [Int 5; Str "5"; Str "good"] = Classified st assigned /\
    length (api_log st) = 3 /\ length (keys (results_cache st)) = 2.
Proof.
  destruct (number_beside_its_text [Int 5; Str "5"; Str "good"] 5)
    as (_ & _ & Hrun).
  - now left.
  - right. now left.
  - split; [reflexivity |].
    destruct (Hrun _ sample_run_world (sample_config false false)
                sample_codebook sample_codebook_text eq_refl)
      as (st & assigned & E & _).
    exists st, assigned. split; [exact E |].
    vm_compute in E. injection E as <- _. split; reflexivity.
Defined.

Lemma StronglySorted_suffix (l1 l2 : list Z) :
  StronglySorted Z.le (l1 ++ l2) -> StronglySorted Z.le l2.
Proof.
  induction l1 as [|a l1 IH]; cbn [app]; intros H; [exact H |].
  inversion H; subst. now apply IH.
Qed.

(** X4.  Without clustering the progress steps back at the end: it is
    reported once per response, [int(100 * (i + 1) / n)] after the
    response of index [i] among [n], which is 100 after the last one, and
    is then set to 95 before the final 100. *)
Theorem plain_progress_steps_back (Vec : Type) (w : World Vec)
  (cfg : Config) (cb : option Codebook) (column : list cell) :
  let rs := unique_responses_of column in
  let n := Z.of_nat (length rs) in
  reconstruct_codebook_text cb <> "" ->
  use_clustering cfg && (1 <? length rs)%nat = false ->
  rs <> [] -> pct_items w n n = 100%Z ->
  exists st assigned,
    classify_all w cfg cb column = Classified st assigned /\
    rev (progress st) =
      (0 :: ramp (fun i => pct_items w i n) 1 (length rs) ++ [95; 100])%Z /\
    (exists front, rev (progress st) = front ++ [100; 95; 100]%Z) /\
    ~ StronglySorted Z.le (rev (progress st)).
Proof.
  intros rs n Hcb Hb Hne Hfull.
  destruct (plain_run Vec w cfg cb column Hcb Hb)
    as (st & assigned & Hrun & _ & _ & _ & Hp).
  fold rs n in Hp.
  exists st, assigned. split; [exact Hrun |]. split; [exact Hp |].
  assert (Hlast : exists front,
    ramp (fun i => pct_items w i n) 1 (length rs) = front ++ [100%Z]).
  { assert (G : forall k from,
      k <> 0 -> pct_items w (from + Z.of_nat k - 1) n = 100%Z ->
      exists front,
        ramp (fun i => pct_items w i n) from k = front ++ [100%Z]).
    { induction k as [|k IH]; intros from Hk Hv; [congruence |].
      destruct k as [|k].
      - exists []. cbn. f_equal. rewrite <- Hv. f_equal. lia.
      - destruct (IH (from + 1)%Z ltac:(discriminate)) as (front & E).
        + rewrite <- Hv. f_equal. lia.
        + exists (pct_items w from n :: front).
          change (ramp (fun i => pct_items w i n) from (S (S k)))
            with (pct_items w from n ::
                  ramp (fun i => pct_items w i n) (from + 1) (S k)).
          now rewrite E. }
    apply G; [destruct rs; [congruence | discriminate] |].
    rewrite <- Hfull. f_equal. unfold n. lia. }
  destruct Hlast as (front & Efront).
  assert (Hshape : rev (progress st) = (0%Z :: front) ++ [100; 95; 100]%Z).
  { rewrite Hp, Efront. cbn [app]. now rewrite <- app_assoc. }
  split; [now exists (0%Z :: front) |].
  rewrite Hshape. intros Hs.
  apply StronglySorted_suffix in Hs.
  inversion Hs as [|? ? _ Hall]; subst.
  inversion Hall as [|? ? Hle _]; subst. lia.
Qed.

Lemma plain_progress_steps_back_witness :
  exists st assigned,
    classify_all sample_run_world (sample_config false false) sample_codebook
      sample_column = Classified st assigned /\
    rev (progress st) = [0; 33; 66; 100; 95; 100]%Z.
Proof.
  destruct (plain_progress_steps_back _ sample_run_world
              (sample_config false false) sample_codebook sample_column
              sample_codebook_text eq_refl)
    as (st & assigned & Hrun & _).
  - discriminate.
  - reflexivity.
  - exists st, assigned. split; [exact Hrun |].
    vm_compute in Hrun. injection Hrun as <- _. reflexivity.
Defined.
(* ================================================================== *)
(** ** The session state *)

Section SessionFacts.
Variables (V : Type).

Lemma dict_has_In (d : dict string V) (k : string) :
  dict_has String.eqb d k = true <-> In k (keys d).
Proof.
  unfold dict_has. rewrite existsb_exists. split.
  - intros (x & Hx & E). apply String.eqb_eq in E. now subst.
  - intros H. exists k. split; [exact H | apply String.eqb_refl].
Qed.

Lemma dict_get_set_same (d : dict string V) (k : string) (v : V) :
  dict_get String.eqb (dict_set String.eqb d k v) k = Some v.
Proof.
  induction d as [|[k' v'] d IH]; simpl.
  - now rewrite String.eqb_refl.
  - destruct (String.eqb_spec k' k) as [-> | Hne]; simpl.
    + now rewrite String.eqb_refl.
    + destruct (String.eqb_spec k' k); [contradiction | exact IH].
Qed.

Lemma dict_get_set_other (d : dict string V) (k k' : string) (v : V) :
  k' <> k ->
  dict_get String.eqb (dict_set String.eqb d k v) k' =
  dict_get String.eqb d k'.
Proof.
  intros Hne. induction d as [|[a b] d IH]; simpl.
  - destruct (String.eqb_spec k k'); [congruence | reflexivity].
  - destruct (String.eqb_spec a k) as [-> | Ha]; simpl.
    + destruct (String.eqb_spec k k'); [congruence | reflexivity].
    + destruct (String.eqb_spec a k'); [reflexivity | exact IH].
Qed.

Lemma dict_get_keys (d : dict string V) (k : string) :
  In k (keys d) <-> exists v, dict_get String.eqb d k = Some v.
Proof.
  induction d as [|[a b] d IH]; simpl.
  - split; [tauto | intros (v & E); discriminate].
  - destruct (String.eqb_spec a k) as [-> | Hne].
    + split; [intros _; now exists b | now left].
    + rewrite <- IH. split; [intros [E | H]; [contradiction | exact H] |].
      now right.
Qed.

(** Setting the defaults of [defaults] in turn, where absent. *)
Lemma defaults_spec (defaults : list (string * V)) :
  forall ss : dict string V,
    let ss' :=
      fold_left
        (fun ss kv =>
           if dict_has String.eqb ss (fst kv) then ss
           else dict_set String.eqb ss (fst kv) (snd kv))
        defaults ss in
    (forall k v, dict_get String.eqb ss k = Some v ->
                 dict_get String.eqb ss' k = Some v) /\
    (forall k, In k (map fst defaults) -> In k (keys ss')) /\
    (forall k, ~ In k (keys ss) -> ~ In k (map fst defaults) ->
               dict_get String.eqb ss' k = None) /\
    ((forall k, In k (map fst defaults) -> In k (keys ss)) -> ss' = ss).
Proof.
  induction defaults as [|[k0 v0] defaults IH]; intros ss; cbn [fold_left].
  - cbv zeta. repeat split; try tauto.
    + intros k [].
    + intros k Hk _. destruct (dict_get String.eqb ss k) eqn:E;
        [| reflexivity].
      exfalso. apply Hk. apply dict_get_keys. now exists v.
  - cbn [fst snd map]. cbv zeta.
    destruct (dict_has String.eqb ss k0) eqn:Hhas.
    + apply dict_has_In in Hhas.
      destruct (IH ss) as (Hkeep & Hall & Hnone & Hid). cbv zeta in *.
      repeat split.
      * exact Hkeep.
      * intros k [<- | Hk]; [| now apply Hall].
        apply dict_get_keys in Hhas as (v & Hv).
        apply dict_get_keys. exists v. now apply Hkeep.
      * intros k Hk Hd. apply Hnone; [exact Hk |]. simpl in Hd. tauto.
      * intros H. apply Hid. intros k Hk. apply H. now right.
    + assert (Hout : ~ In k0 (keys ss)).
      { intros H. apply dict_has_In in H. congruence. }
      destruct (IH (dict_set String.eqb ss k0 v0))
        as (Hkeep & Hall & Hnone & Hid). cbv zeta in *.
      repeat split.
      * intros k v Hv. apply Hkeep.
        rewrite dict_get_set_other; [exact Hv |].
        intros ->. apply Hout. apply dict_get_keys. now exists v.
      * intros k [<- | Hk]; [| now apply Hall].
        apply dict_get_keys. exists v0. apply Hkeep.
        apply dict_get_set_same.
      * intros k Hk Hd. simpl in Hd. apply Hnone; [| tauto].
        intros H. apply dict_get_keys in H as (v & Hv).
        rewrite dict_get_set_other in Hv by (intros ->; tauto).
        apply Hk. apply dict_get_keys. now exists v.
      * intros H. exfalso. apply Hout. apply H. now left.
Qed.

Lemma defaults_fresh (defaults : list (string * V)) :
  NoDup (map fst defaults) ->
  forall (ss : dict string V) k v,
    In (k, v) defaults -> ~ In k (keys ss) ->
    dict_get String.eqb
      (fold_left
         (fun ss kv =>
            if dict_has String.eqb ss (fst kv) then ss
            else dict_set String.eqb ss (fst kv) (snd kv))
         defaults ss) k = Some v.
Proof.
  induction defaults as [|[k0 v0] defaults IH]; intros Hnd ss k v Hin Hout;
    [destruct Hin |].
  cbn [map fst] in Hnd. inversion Hnd as [|? ? Hk0 Hnd']; subst.
  cbn [fold_left fst snd].
  destruct Hin as [E | Hin].
  - injection E as -> ->.
    destruct (dict_has String.eqb ss k) eqn:Hhas;
      [apply dict_has_In in Hhas; contradiction |].
    apply (defaults_spec defaults). apply dict_get_set_same.
  - assert (Hne : k <> k0).
    { intros ->. apply Hk0. apply in_map_iff. now exists (k0, v). }
    destruct (dict_has String.eqb ss k0); [now apply IH |].
    apply IH; try assumption.
    intros H. apply dict_get_keys in H as (v' & Hv').
    rewrite dict_get_set_other in Hv' by exact Hne.
    apply Hout. apply dict_get_keys. now exists v'.
Qed.

End SessionFacts.

(** X12.  [initialize_state] fills in what is absent and touches nothing
    else: every key already in the session keeps its value, each of the
    six keys of the script is there afterwards, and on a session that has
    the six keys (as every session has after the first call) a further
    call, such as the one made when a file is uploaded, changes nothing. *)
Theorem initialize_state_keeps (session_state : dict string session_value) :
  (forall k v, dict_get String.eqb session_state k = Some v ->
     dict_get String.eqb (initialize_state session_state) k = Some v) /\
  (forall k, In k (map fst session_defaults) ->
     exists v, dict_get String.eqb (initialize_state session_state) k
               = Some v) /\
  (forall k v, In (k, v) session_defaults ->
     ~ In k (keys session_state) ->
     dict_get String.eqb (initialize_state session_state) k = Some v) /\
  initialize_state (initialize_state session_state)
  = initialize_state session_state.
Proof.
  destruct (defaults_spec _ session_defaults session_state)
    as (Hkeep & Hall & _ & _).
  split; [exact Hkeep |]. split.
  { intros k Hk. apply dict_get_keys. now apply Hall. }
  split.
  - intros k v Hin Hout. apply defaults_fresh; try assumption.
    unfold session_defaults. cbn [map fst].
    apply (nodupb_sound _ String.eqb); [apply String.eqb_spec | reflexivity].
  - apply (defaults_spec _ session_defaults (initialize_state session_state)).
    exact Hall.
Qed.
(* ================================================================== *)
(** ** The frequency table *)

Lemma count_one_get (table : list (string * nat)) (y x : string) :
  dict_get String.eqb (count_one y table) x =
  if String.eqb y x
  then Some (S (match dict_get String.eqb table x with
                | Some n => n
                | None => 0
                end))
  else dict_get String.eqb table x.
Proof.
  induction table as [|[a n] table IH]; cbn [count_one dict_get].
  - destruct (String.eqb_spec y x); reflexivity.
  - destruct (String.eqb_spec a y) as [-> | Hay]; cbn [dict_get].
    + destruct (String.eqb_spec y x); reflexivity.
    + destruct (String.eqb_spec a x) as [-> | Hax].
      * destruct (String.eqb_spec y x); [congruence | reflexivity].
      * exact IH.
Qed.

Lemma count_one_keys (table : list (string * nat)) (y : string) :
  NoDup (keys table) -> NoDup (keys (count_one y table)).
Proof.
  intros Hnd.
  destruct (in_dec string_dec y (keys table)) as [Hin | Hout].
  - assert (E : keys (count_one y table) = keys table).
    { clear Hnd. induction table as [|[a n] table IH]; [destruct Hin |].
      cbn [count_one]. destruct (String.eqb_spec a y) as [-> | Hne];
        [reflexivity |].
      cbn [keys map fst] in *. f_equal. apply IH.
      destruct Hin; [contradiction | assumption]. }
    now rewrite E.
  - assert (E : count_one y table = table ++ [(y, 1)]).
    { clear Hnd. induction table as [|[a n] table IH]; [reflexivity |].
      cbn [count_one]. destruct (String.eqb_spec a y) as [-> | Hne].
      - exfalso. apply Hout. now left.
      - cbn [app]. f_equal. apply IH. intros H. apply Hout. now right. }
    rewrite E. unfold keys. rewrite map_app. cbn [map fst].
    apply NoDup_rev in Hnd. rewrite <- (rev_involutive (_ ++ _)).
    apply NoDup_rev. rewrite rev_app_distr. cbn [rev app].
    constructor; [now rewrite <- in_rev | exact Hnd].
Qed.

Lemma counts_spec (values : list string) : forall table,
  NoDup (keys table) ->
  let counted := fold_left (fun t x => count_one x t) values table in
  NoDup (keys counted) /\
  forall x,
    match dict_get String.eqb counted x with
    | Some n => n
    | None => 0
    end
    = count_occ string_dec values x
      + match dict_get String.eqb table x with
        | Some n => n
        | None => 0
        end.
Proof.
  induction values as [|y values IH]; intros table Hnd; cbn [fold_left].
  - split; [exact Hnd | reflexivity].
  - destruct (IH (count_one y table) (count_one_keys table y Hnd))
      as [Hk Hc].
    split; [exact Hk |]. intros x. rewrite Hc, count_one_get.
    cbn [count_occ].
    destruct (string_dec y x) as [-> | Hne].
    + rewrite String.eqb_refl. lia.
    + destruct (String.eqb_spec y x); [contradiction | reflexivity].
Qed.

Lemma counts_positive (values : list string) : forall table,
  (forall x n, In (x, n) table -> 0 < n) ->
  forall x n,
    In (x, n) (fold_left (fun t x => count_one x t) values table) -> 0 < n.
Proof.
  induction values as [|y values IH]; intros table Hpos; cbn [fold_left];
    [exact Hpos |].
  apply IH. clear IH. induction table as [|[a m] table IHt].
  - intros x n [E | []]. injection E as _ <-. lia.
  - cbn [count_one]. destruct (String.eqb a y).
    + intros x n [E | H]; [injection E as _ <-; lia |].
      apply (Hpos x n). now right.
    + intros x n [E | H]; [apply (Hpos x n); now left |].
      refine (IHt _ x n H). intros x' n' H'. apply (Hpos x' n'). now right.
Qed.

Lemma insert_by_count_perm (row : string * nat)
  (table : list (string * nat)) :
  Permutation (row :: table) (insert_by_count row table).
Proof.
  induction table as [|row' table IH]; cbn [insert_by_count];
    [apply Permutation_refl |].
  destruct (snd row' <=? snd row)%nat; [apply Permutation_refl |].
  eapply Permutation_trans; [apply perm_swap |]. now apply perm_skip.
Qed.

Lemma sorted_perm (table : list (string * nat)) :
  Permutation table (fold_right insert_by_count [] table).
Proof.
  induction table as [|row table IH]; cbn [fold_right];
    [apply Permutation_refl |].
  eapply Permutation_trans; [| apply insert_by_count_perm].
  now apply perm_skip.
Qed.

(** The table has one row for every value that occurs, with the number of
    its occurrences. *)
Lemma value_counts_spec (values : list string) (x : string) :
  frequency_of (value_counts values) x =
  match count_occ string_dec values x with
  | O => None
  | S n => Some (S n)
  end.
Proof.
  unfold frequency_of, value_counts.
  set (counted := fold_left (fun t x => count_one x t) values []).
  destruct (counts_spec values [] (NoDup_nil _)) as [Hk Hc].
  fold counted in Hk, Hc. specialize (Hc x). cbn [dict_get] in Hc.
  rewrite Nat.add_0_r in Hc.
  assert (Hpos : forall y n, In (y, n) counted -> 0 < n)
    by (apply counts_positive; intros ? ? []).
  assert (Hperm := sorted_perm counted).
  assert (Hk' : NoDup (keys (fold_right insert_by_count [] counted))).
  { unfold keys. eapply Permutation_NoDup; [| exact Hk].
    now apply Permutation_map. }
  destruct (dict_get String.eqb counted x) as [n|] eqn:E.
  - apply (dict_get_some _ _ _ String.eqb_spec) in E.
    pose proof (Hpos x n E) as Hn.
    rewrite <- Hc. destruct n as [|n]; [lia |].
    apply (dict_get_in _ _ _ String.eqb_spec); [exact Hk' |].
    eapply Permutation_in; [exact Hperm | exact E].
  - rewrite <- Hc. apply (dict_get_none _ _ _ String.eqb_spec).
    intros H. unfold keys in H. apply in_map_iff in H as ([y n] & Ey & Hin).
    cbn [fst] in Ey. subst y.
    apply Permutation_sym in Hperm.
    apply (Permutation_in _ Hperm) in Hin.
    apply (dict_get_in _ _ _ String.eqb_spec) in Hin; [congruence | exact Hk].
Qed.

Lemma dropna_codes_map (f : option string -> string)
  (series : list (option string)) :
  dropna_codes (map (fun v => Some (f v)) series) = map f series.
Proof.
  induction series as [|v series IH]; cbn; [reflexivity | now rewrite IH].
Qed.

Lemma count_occ_explode (f : string -> list string) (x : string)
  (values : list string) :
  count_occ string_dec (flat_map f values) x =
  list_sum (map (fun v => count_occ string_dec (f v) x) values).
Proof.
  induction values as [|v values IH]; cbn [flat_map map list_sum];
    [reflexivity |].
  now rewrite count_occ_app, IH.
Qed.

Lemma count_occ_map_sum (f : option string -> string) (x : string)
  (l : list (option string)) :
  count_occ string_dec (map f l) x =
  list_sum (map (fun v => if string_dec (f v) x then 1 else 0) l).
Proof.
  induction l as [|v l IH]; simpl; [reflexivity |].
  rewrite IH. now destruct (string_dec (f v) x).
Qed.

Lemma missing_le_blank (f : string -> nat) (series : list (option string)) :
  f "" = 1 ->
  missing series <= list_sum (map (fun v => f (fillna v)) series).
Proof.
  intros Hf. unfold missing.
  induction series as [|[s|] series IH]; simpl;
    [lia | simpl in IH; lia |].
  rewrite Hf. simpl in IH. lia.
Qed.

(** X13.  Once the results view has rewritten the separators (the column
    is of dtype object and some value held a comma), the missing codes are
    empty strings and no longer missing: the frequency table counts every
    row, and when a code was missing it has a row for the empty code,
    counting at least the rows that had none.  When the view rewrites
    nothing (no comma, or a column of another dtype) the table counts only
    the rows that have a code. *)
Theorem view_changes_frequencies (dt : dtype)
  (series : list (option string)) :
  (is_object_dtype dt = true ->
   (exists v, In (Some v) series /\ contains_char comma v = true) ->
   frequency_sum (code_frequencies false (normalize_separator dt series))
     = length series /\
   forall multilabel, 0 < missing series ->
     exists n,
       frequency_of
         (code_frequencies multilabel (normalize_separator dt series)) ""
         = Some n /\
       missing series <= n) /\
  (is_object_dtype dt = false \/
   (forall v, In (Some v) series -> contains_char comma v = false) ->
   frequency_sum (code_frequencies false (normalize_separator dt series))
     + missing series = length series /\
   ((forall v, In (Some v) series -> v <> "") ->
    frequency_of (code_frequencies false (normalize_separator dt series)) ""
      = None)).
Proof.
  split.
  - intros Hobj Hcomma.
    rewrite (normalize_rewrites dt series Hobj Hcomma).
    unfold code_frequencies.
    rewrite (dropna_codes_map (fun v => re_sub comma SEPARATOR (fillna v))).
    split; [now rewrite frequency_sum_value_counts, length_map |].
    intros multilabel Hmiss.
    set (values := map (fun v => re_sub comma SEPARATOR (fillna v)) series).
    set (shown := if multilabel then split_explode values else values).
    assert (Hcount : missing series <= count_occ string_dec shown "").
    { unfold shown. destruct multilabel.
      - unfold split_explode, values. rewrite count_occ_explode, map_map.
        apply (missing_le_blank
                 (fun s => count_occ string_dec
                             (re_split pipe (re_sub comma SEPARATOR s)) "")).
        reflexivity.
      - unfold values.
        rewrite (count_occ_map_sum
                   (fun v => re_sub comma SEPARATOR (fillna v))).
        apply (missing_le_blank
                 (fun s => if string_dec (re_sub comma SEPARATOR s) ""
                           then 1 else 0)).
        reflexivity. }
    rewrite value_counts_spec. fold values. fold shown.
    destruct (count_occ string_dec shown "") as [|n] eqn:Ec; [lia |].
    exists (S n). split; [reflexivity | lia].
  - intros Hkeep.
    rewrite (normalize_keeps dt series Hkeep).
    unfold code_frequencies. rewrite frequency_sum_value_counts.
    split.
    + unfold missing. clear. induction series as [|[s|] series IH];
        simpl in *; lia.
    + intros Hne. rewrite value_counts_spec.
      assert (H0 : count_occ string_dec (dropna_codes series) "" = 0).
      { apply count_occ_not_In. intros Hin. apply (Hne ""); [| reflexivity].
        clear - Hin. induction series as [|[s|] series IH];
          cbn [dropna_codes] in Hin; [destruct Hin | | right; now apply IH].
        destruct Hin as [-> | Hin]; [now left | right; now apply IH]. }
      now rewrite H0.
Qed.

(** The same column under the two dtypes: of dtype object it is rewritten
    and the table has a row for the empty code; of the string dtype it is
    not, and the table has the two codes only. *)
Example view_changes_frequencies_ex :
  let series := [Some "Price, too high"; None; Some "Other"] in
  code_frequencies false (normalize_separator dtype_object series) =
    [("Price | too high", 1); ("", 1); ("Other", 1)] /\
  code_frequencies false (normalize_separator dtype_string series) =
    [("Price, too high", 1); ("Other", 1)].
Proof. split; reflexivity. Qed.

Lemma split_shown (result : option (list string)) :
  Forall clean_label (labels_in result) ->
  re_split pipe (serialize_codes result) = labels_shown result.
Proof.
  destruct result as [[|c cs] |]; intros H; [reflexivity | | reflexivity].
  cbn [serialize_codes labels_shown]. apply re_split_join;
    [discriminate | exact H].
Qed.

(** A result whose labels hold no comma is written without comma. *)
Lemma serialize_codes_no_comma (result : option (list string)) :
  Forall (fun c => contains_char comma c = false) (labels_in result) ->
  contains_char comma (serialize_codes result) = false.
Proof.
  destruct result as [[|c cs] |]; intros H; [reflexivity | | reflexivity].
  cbn [serialize_codes labels_in] in *.
  apply contains_char_join; [reflexivity | exact H].
Qed.

Lemma table_of_results (assigned_code : list (option string))
  (results : list (option (list string))) (x : string) :
  dropna_codes assigned_code = map serialize_codes results ->
  Forall (fun r => Forall clean_label (labels_in r)) results ->
  frequency_of (code_frequencies true assigned_code) x =
  match count_occ string_dec (flat_map labels_shown results) x with
  | O => None
  | S n => Some (S n)
  end.
Proof.
  intros E Hclean. unfold code_frequencies. rewrite E, value_counts_spec.
  clear E.
  assert (Hx : split_explode (map serialize_codes results)
               = flat_map labels_shown results).
  { unfold split_explode. induction Hclean as [|r rs Hr _ IH];
      [reflexivity |].
    cbn [map flat_map]. rewrite IH, split_shown by exact Hr.
    reflexivity. }
  now rewrite Hx.
Qed.

(** The rows that have a code, as results. *)
Lemma rows_as_results (rows : list (option (option (list string)))) :
  exists results,
    dropna_codes (map row_code rows) = map serialize_codes results /\
    flat_map labels_shown results = flat_map row_labels rows /\
    (forall r, In r results <-> In (Some r) rows).
Proof.
  induction rows as [|[r|] rows (results & E & F & M)].
  - exists []. repeat split; intros [].
  - exists (r :: results). cbn [map row_code option_map dropna_codes flat_map
                                row_labels].
    rewrite <- E, <- F. repeat split.
    + intros [-> | H]; [now left | right; now apply M].
    + intros [H | H]; [left; congruence | right; now apply M].
  - exists results. cbn [map row_code option_map dropna_codes flat_map
                         row_labels app].
    split; [exact E |]. split; [exact F |].
    intros r. rewrite M. split; [now right |].
    intros [H | H]; [discriminate | exact H].
Qed.

(** X14.  The frequency table of a multi-label run counts labels, the
    results view having run before it.  The column holds, for every row
    with a code, the string [classify_item] makes of the row's result.
    When the labels returned are clean (no pipe and no comma inside, no
    whitespace around), the view leaves that column as it is under every
    dtype, the frequency of a code is the number of times the rows list
    it, and the two sentinels are counted as codes of their own, once for
    each row they stand for. *)
Theorem multilabel_table_counts (dt : dtype)
  (rows : list (option (option (list string)))) (x : string) :
  (forall r c, In (Some r) rows -> In c (labels_in r) ->
     clean_label c /\ contains_char comma c = false) ->
  normalize_separator dt (map row_code rows) = map row_code rows /\
  frequency_of
    (code_frequencies true (normalize_separator dt (map row_code rows))) x =
  match count_occ string_dec (flat_map row_labels rows) x with
  | O => None
  | S n => Some (S n)
  end.
Proof.
  intros Hclean.
  destruct (rows_as_results rows) as (results & E & F & M).
  assert (Hkeep : normalize_separator dt (map row_code rows)
                  = map row_code rows).
  { apply normalize_keeps. right. intros v Hv.
    apply in_map_iff in Hv as ([r|] & Ev & Hr); [| discriminate].
    cbn in Ev. injection Ev as <-.
    apply serialize_codes_no_comma. apply Forall_forall.
    intros c Hc. now apply (Hclean r c Hr Hc). }
  split; [exact Hkeep |].
  rewrite Hkeep, <- F. apply table_of_results; [exact E |].
  apply Forall_forall. intros r Hr. apply Forall_forall. intros c Hc.
  apply M in Hr. now apply (Hclean r c Hr Hc).
Qed.

Lemma multilabel_table_counts_witness :
  map row_code
    [Some (Some ["Price"; "Delivery"]); None; Some (Some []); Some None;
     Some (Some ["Price"])] =
    [Some "Price | Delivery"; None; Some "No Code Applied";
     Some "API_ERROR"; Some "Price"] /\
  frequency_of
    (code_frequencies true
       (normalize_separator dtype_object
          (map row_code
             [Some (Some ["Price"; "Delivery"]); None; Some (Some []);
              Some None; Some (Some ["Price"])]))) "Price" = Some 2.
Proof.
  split; [reflexivity |].
  refine (proj2 (multilabel_table_counts dtype_object
                   [Some (Some ["Price"; "Delivery"]); None; Some (Some []);
                    Some None; Some (Some ["Price"])] "Price" _)).
  intros r c [E | [E | [E | [E | [E | []]]]]] Hc; try discriminate;
    injection E as <-; cbn [labels_in In] in Hc;
    repeat match goal with
           | H : _ \/ _ |- _ => destruct H as [<- | H]
           | H : False |- _ => destruct H
           end;
    repeat split.
Defined.

(** A label with a comma of its own is outside that: in a column of dtype
    object the view cuts it, the table counts its two halves as codes, and
    the row without code is counted under the empty code. *)
Example comma_label_counted_in_halves :
  code_frequencies true
    (normalize_separator dtype_object [Some "Price, high"; None]) =
  [("Price", 1); ("high", 1); ("", 1)].
Proof. reflexivity. Qed.
(* ================================================================== *)
(** ** The codebook editor *)

Lemma list_index_first (x : string) (l : list string) : forall i,
  nth_error l i = Some x ->
  exists j, list_index x l = Some j /\ j <= i /\ nth_error l j = Some x /\
            forall k, k < j -> nth_error l k <> Some x.
Proof.
  induction l as [|y l IH]; intros i Hi; [destruct i; discriminate |].
  cbn [list_index]. destruct (String.eqb_spec y x) as [-> | Hne].
  - exists 0. repeat split; [lia | intros k Hk; lia].
  - destruct i as [|i]; [cbn in Hi; congruence |].
    destruct (IH i Hi) as (j & -> & Hle & Hj & Hmin).
    exists (S j). repeat split; [lia | exact Hj |].
    intros [|k] Hk; cbn; [congruence | apply Hmin; lia].
Qed.

Lemma pop_split (A : Type) (l : list A) : forall j,
  j < length l -> pop j l = firstn j l ++ skipn (S j) l.
Proof.
  induction l as [|a l IH]; intros j Hj; [simpl in Hj; lia |].
  destruct j as [|j]; [reflexivity |].
  cbn [pop firstn skipn app]. f_equal. apply IH. simpl in Hj. lia.
Qed.

Lemma pop_length (A : Type) (l : list A) : forall j,
  j < length l -> S (length (pop j l)) = length l.
Proof.
  induction l as [|a l IH]; intros j Hj; [simpl in Hj; lia |].
  destruct j as [|j]; [reflexivity |].
  cbn [pop length]. f_equal. apply IH. simpl in Hj. lia.
Qed.

(** X15.  The editor works on the first code that carries the selected
    label: the selectbox hands back a label, and the script looks for it
    from the start of the codebook.  With labels that all differ this is
    the code selected; when an earlier code has the same label, that
    earlier code is the one edited, and Delete This Code removes it and
    leaves the selected one in place. *)
Theorem editor_acts_on_first_label (codes : list Code) (chosen : nat)
  (item : Code) :
  nth_error codes chosen = Some item ->
  exists j,
    editor_index codes chosen = Some j /\ j <= chosen /\
    (exists it, nth_error codes j = Some it /\ code it = code item) /\
    (forall k it, k < j -> nth_error codes k = Some it ->
                  code it <> code item) /\
    (NoDup (map code codes) -> j = chosen) /\
    ((exists k it, k < chosen /\ nth_error codes k = Some it /\
                   code it = code item) -> j < chosen) /\
    delete_code codes chosen = firstn j codes ++ skipn (S j) codes /\
    S (length (delete_code codes chosen)) = length codes.
Proof.
  intros Hitem.
  assert (Hlabel : nth_error (map code codes) chosen = Some (code item))
    by (rewrite nth_error_map, Hitem; reflexivity).
  destruct (list_index_first _ _ _ Hlabel) as (j & Hidx & Hle & Hj & Hmin).
  assert (Hed : editor_index codes chosen = Some j).
  { unfold editor_index. cbv zeta. rewrite Hlabel. unfold selected_index.
    assert (Hin : existsb (String.eqb (code item)) (map code codes) = true).
    { apply existsb_exists. exists (code item).
      split; [now apply nth_error_In in Hlabel | apply String.eqb_refl]. }
    now rewrite Hin. }
  assert (Hlen : j < length codes).
  { rewrite <- (length_map code). apply nth_error_Some. congruence. }
  exists j. split; [exact Hed |]. split; [exact Hle |].
  split.
  { rewrite nth_error_map in Hj.
    destruct (nth_error codes j) as [it|]; [| discriminate].
    exists it. split; [reflexivity | now injection Hj]. }
  split.
  { intros k it Hk Hit E. apply (Hmin k Hk).
    rewrite nth_error_map, Hit. cbn. now rewrite E. }
  split.
  { intros Hnd. apply (proj1 (NoDup_nth_error (map code codes)) Hnd);
      [rewrite length_map; exact Hlen | congruence]. }
  split.
  { intros (k & it & Hk & Hit & E).
    destruct (Nat.lt_ge_cases j chosen) as [H | H]; [exact H | exfalso].
    assert (j = chosen) by lia. subst j.
    apply (Hmin k Hk). rewrite nth_error_map, Hit. cbn. now rewrite E. }
  unfold delete_code. rewrite Hed.
  split; [now apply pop_split | now apply pop_length].
Qed.

Lemma editor_acts_on_first_label_witness :
  let price := {| code := "Price"; description := "Mentions cost.";
                  examples := [] |} in
  let delivery := {| code := "Delivery"; description := "Mentions shipping.";
                     examples := [] |} in
  let fees := {| code := "Price"; description := "Unexpected fees.";
                 examples := ["a fee I did not expect"] |} in
  delete_code [price; delivery; fees] 2 = [delivery; fees].
Proof.
  intros price delivery fees.
  destruct (editor_acts_on_first_label [price; delivery; fees] 2 fees
              eq_refl) as (j & Hj & _ & _ & _ & _ & _ & Hdel & _).
  vm_compute in Hj. injection Hj as <-. exact Hdel.
Defined.

(** *** Saving the examples *)

Lemma lstrip_head (s : string) :
  lstrip s = "" \/
  exists c t, lstrip s = String c t /\ py_isspace c = false.
Proof.
  induction s as [|c s IH]; [now left |]. cbn [lstrip].
  destruct (py_isspace c) eqn:E; [exact IH |]. right. now exists c, s.
Qed.

Lemma rstrip_idem (s : string) : rstrip (rstrip s) = rstrip s.
Proof.
  induction s as [|c s IH]; [reflexivity |]. cbn [rstrip].
  destruct (py_isspace c && is_empty (rstrip s)) eqn:E; [reflexivity |].
  cbn [rstrip]. now rewrite IH, E.
Qed.

Lemma strip_idem (s : string) : strip (strip s) = strip s.
Proof.
  unfold strip. destruct (lstrip_head s) as [-> | (c & t & -> & Hc)];
    [reflexivity |].
  assert (R : rstrip (String c t) = String c (rstrip t))
    by (cbn [rstrip]; now rewrite Hc).
  assert (L : lstrip (String c (rstrip t)) = String c (rstrip t))
    by (cbn [lstrip]; now rewrite Hc).
  rewrite R, L, <- R. apply rstrip_idem.
Qed.

Lemma lstrip_chars (s : string) (c : ascii) :
  In c (list_ascii_of_string (lstrip s)) -> In c (list_ascii_of_string s).
Proof.
  induction s as [|a s IH]; cbn [lstrip]; [tauto |].
  destruct (py_isspace a); [| tauto]. intros H. right. now apply IH.
Qed.

Lemma rstrip_chars (s : string) (c : ascii) :
  In c (list_ascii_of_string (rstrip s)) -> In c (list_ascii_of_string s).
Proof.
  induction s as [|a s IH]; cbn [rstrip]; [tauto |].
  destruct (py_isspace a && is_empty (rstrip s)); [intros [] |].
  cbn [list_ascii_of_string]. intros [-> | H]; [now left | right; auto].
Qed.

Lemma strip_chars (s : string) (c : ascii) :
  In c (list_ascii_of_string (strip s)) -> In c (list_ascii_of_string s).
Proof. intros H. now apply lstrip_chars, rstrip_chars. Qed.

Lemma splitlines_unbroken (s : list ascii) : forall after_cr cur line c,
  (forall a, In a cur -> is_linebreak a = false) ->
  In line (splitlines_from after_cr cur s) ->
  In c (list_ascii_of_string line) -> is_linebreak c = false.
Proof.
  induction s as [|a s IH]; intros after_cr cur line c Hcur Hline Hc.
  - cbn [splitlines_from] in Hline. destruct cur as [|x cur];
      [destruct Hline |].
    destruct Hline as [<- | []].
    rewrite list_ascii_of_string_of_list_ascii in Hc.
    apply Hcur. now apply in_rev.
  - cbn [splitlines_from] in Hline.
    destruct (after_cr && Ascii.eqb a LF).
    + now apply (IH false cur line c).
    + destruct (is_linebreak a) eqn:Ea.
      * destruct Hline as [<- | Hline].
        -- rewrite list_ascii_of_string_of_list_ascii in Hc.
           apply Hcur. now apply in_rev.
        -- apply (IH (Ascii.eqb a CR) [] line c); [intros ? [] | | ];
             assumption.
      * apply (IH false (a :: cur) line c); try assumption.
        intros x [<- | Hx]; [exact Ea | now apply Hcur].
Qed.

Lemma splitlines_read (x : list ascii) : forall cur rest,
  (forall c, In c x -> is_linebreak c = false) ->
  splitlines_from false cur (x ++ rest) =
  splitlines_from false (rev x ++ cur) rest.
Proof.
  induction x as [|a x IH]; intros cur rest Hx; [reflexivity |].
  cbn [app splitlines_from andb]. rewrite (Hx a) by now left.
  rewrite IH by (intros c Hc; apply Hx; now right).
  cbn [rev]. now rewrite <- app_assoc.
Qed.

Lemma splitlines_last (after_cr : bool) (cur : list ascii) :
  cur <> [] ->
  splitlines_from after_cr cur [] = [string_of_list_ascii (rev cur)].
Proof. destruct cur; [congruence | reflexivity]. Qed.

Lemma splitlines_join (xs : list string) :
  Forall tidy_example xs ->
  splitlines_from false [] (list_ascii_of_string (examples_text xs)) = xs.
Proof.
  intros H. induction H as [|x xs (Hne & _ & Hx) Hxs IH]; [reflexivity |].
  assert (Hread : forall rest,
    splitlines_from false [] (list_ascii_of_string x ++ rest) =
    splitlines_from false (rev (list_ascii_of_string x)) rest).
  { intros rest. rewrite splitlines_read by exact Hx.
    now rewrite app_nil_r. }
  assert (Hcur : rev (list_ascii_of_string x) <> []).
  { destruct x as [|a x]; [congruence |]. cbn [list_ascii_of_string rev].
    intros E. now apply app_eq_nil in E as [_ E]. }
  assert (Hback : string_of_list_ascii (rev (rev (list_ascii_of_string x)))
                  = x).
  { now rewrite rev_involutive, string_of_list_ascii_of_string. }
  unfold examples_text in *. destruct xs as [|y xs].
  - cbn [join String.concat]. rewrite <- (app_nil_r (list_ascii_of_string x)).
    rewrite Hread, splitlines_last by exact Hcur. now rewrite Hback.
  - rewrite join_cons by discriminate. rewrite las_app. unfold nl.
    cbn [append list_ascii_of_string]. rewrite Hread.
    cbn [splitlines_from andb].
    change (is_linebreak (ascii_of_nat 10)) with true. cbn iota.
    rewrite Hback. f_equal. exact IH.
Qed.

(** X16.  Save Codebook stores the examples one per line, trimmed, and
    without the empty ones: whatever the text of the box, every example
    stored is a single trimmed line that is not empty.  Examples of that
    kind come back unchanged when the box is saved as it was shown; an
    example made of two of them with a line feed between is stored as the
    two; and once saved, saving again changes nothing. *)
Theorem saved_examples_are_tidy (edited_examples_text : string) :
  Forall tidy_example (new_list edited_examples_text) /\
  (forall current_examples,
     Forall tidy_example current_examples ->
     new_list (examples_text current_examples) = current_examples) /\
  (forall a b, tidy_example a -> tidy_example b ->
     new_list (examples_text [(a ++ nl ++ b)%string]) = [a; b]) /\
  new_list (examples_text (new_list edited_examples_text))
  = new_list edited_examples_text.
Proof.
  assert (Htidy : forall text, Forall tidy_example (new_list text)).
  { intros text. apply Forall_forall. intros x Hx. unfold new_list in Hx.
    apply in_map_iff in Hx as (line & <- & Hline).
    apply filter_In in Hline as [Hline Hkeep].
    split; [| split].
    - intros E. rewrite E in Hkeep. discriminate.
    - apply strip_idem.
    - intros c Hc. apply strip_chars in Hc.
      apply (splitlines_unbroken (list_ascii_of_string text) false [] line c);
        [intros ? [] | exact Hline | exact Hc]. }
  assert (Hback : forall xs, Forall tidy_example xs ->
                             new_list (examples_text xs) = xs).
  { intros xs Hxs. unfold new_list, splitlines.
    rewrite splitlines_join by exact Hxs.
    induction Hxs as [|x xs (Hne & Hs & _) _ IH]; [reflexivity |].
    cbn [filter]. rewrite Hs.
    destruct x as [|a x]; [congruence |]. cbn [truthy is_empty negb map].
    rewrite Hs. f_equal. exact IH. }
  split; [apply Htidy |]. split; [exact Hback |].
  split; [| apply Hback, Htidy].
  intros a b Ha Hb.
  change (examples_text [(a ++ nl ++ b)%string])
    with (examples_text [a; b]).
  apply Hback. constructor; [exact Ha | constructor; [exact Hb | constructor]].
Qed.
(* ================================================================== *)
(** ** Codebook files *)

Section ImportFacts.
Variable Json : Type.
Variable json_loads : string -> option Json.
Variable json_list : Json -> option (list Json).
Variable json_str : Json -> string.

Lemma code_of_row_spec (df : Frame) (code_col : string)
  (desc_col examples_col : option string) (row : list cell) (item : Code) :
  code_of_row json_loads json_list json_str df code_col desc_col
    examples_col row = Some item ->
  isna (row_get df row code_col) = false /\
  code item = cell_text (row_get df row code_col) /\
  code item <> "" /\
  strip (code item) = code item /\
  strip (description item) = description item.
Proof.
  unfold code_of_row. cbv zeta.
  destruct (isna (row_get df row code_col)) eqn:Ena; [discriminate |].
  destruct (is_empty (cell_text (row_get df row code_col))) eqn:Eem;
    [discriminate |].
  intros E. injection E as <-. cbn [code description].
  assert (Hidem : forall v, strip (cell_text v) = cell_text v).
  { intros [c|]; cbn [cell_text]; [apply strip_idem | reflexivity]. }
  repeat split.
  - intros E. rewrite E in Eem. discriminate.
  - apply Hidem.
  - destruct desc_col as [col|]; [| reflexivity].
    destruct (truthy col && existsb (String.eqb col) (columns df));
      [| reflexivity].
    destruct (isna (row_get df row col)); [reflexivity | apply Hidem].
Qed.

Lemma codes_of_rows (f : list cell -> option Code) (rs : list (list cell))
  (item : Code) :
  In item (flat_map (fun row => match f row with
                                | Some c => [c]
                                | None => []
                                end) rs) ->
  exists row, In row rs /\ f row = Some item.
Proof.
  intros H. apply in_flat_map in H as (row & Hrow & Hin).
  exists row. split; [exact Hrow |].
  destruct (f row); [| destruct Hin]. destruct Hin as [-> | []]. reflexivity.
Qed.

Lemma codes_of_rows_length (f : list cell -> option Code)
  (rs : list (list cell)) :
  length (flat_map (fun row => match f row with
                               | Some c => [c]
                               | None => []
                               end) rs) <= length rs.
Proof.
  induction rs as [|row rs IH]; cbn [flat_map length]; [lia |].
  rewrite length_app. destruct (f row); cbn [length]; lia.
Qed.

End ImportFacts.

(** X17.  A codebook read from a CSV frame has no code without label:
    rows whose code cell is missing or blank are passed over, every label
    is the trimmed text of the code cell of a row and is not empty, every
    description is trimmed, and there are no more codes than rows. *)
Theorem imported_codes_have_labels (Json : Type)
  (json_loads : string -> option Json)
  (json_list : Json -> option (list Json)) (json_str : Json -> string)
  (df : Frame) (cb : Codebook) :
  codebook_of_frame json_loads json_list json_str df = Some cb ->
  exists code_col,
    code_column df = Some code_col /\
    length (codes cb) <= length (rows df) /\
    Forall
      (fun item =>
         code item <> "" /\ strip (code item) = code item /\
         strip (description item) = description item /\
         exists row,
           In row (rows df) /\ isna (row_get df row code_col) = false /\
           code item = cell_text (row_get df row code_col))
      (codes cb).
Proof.
  unfold codebook_of_frame.
  destruct (code_column df) as [code_col|]; [| discriminate].
  intros E. injection E as <-. cbn [codes]. exists code_col.
  split; [reflexivity |]. split; [apply codes_of_rows_length |].
  apply Forall_forall. intros item Hin.
  apply codes_of_rows in Hin as (row & Hrow & Hcode).
  apply code_of_row_spec in Hcode as (Hna & Hc & Hne & Hs & Hd).
  repeat split; try assumption. now exists row.
Qed.

Lemma dict_of_pairs_get_none (pairs : list (string * string)) (k : string) :
  ~ In k (map fst pairs) ->
  dict_get String.eqb (dict_of_pairs String.eqb pairs) k = None.
Proof.
  intros Hout. unfold dict_of_pairs.
  assert (G : forall d : dict string string,
    dict_get String.eqb d k = None ->
    dict_get String.eqb
      (fold_left (fun d kv => dict_set String.eqb d (fst kv) (snd kv))
         pairs d) k = None).
  { induction pairs as [|[a b] pairs IH]; intros d Hd; [exact Hd |].
    cbn [fold_left fst snd]. apply IH.
    - intros H. apply Hout. now right.
    - rewrite dict_get_set_other; [exact Hd |].
      intros ->. apply Hout. now left. }
  now apply G.
Qed.

(** X18.  A frame without a column named description takes the
    descriptions from its second column, whatever that column is called:
    the description of every code read is the trimmed text of the second
    cell of its row (empty when that cell is missing).  When the second
    column is the examples column, the same cell is also read as the
    examples. *)
Theorem description_from_second_column (Json : Type)
  (json_loads : string -> option Json)
  (json_list : Json -> option (list Json)) (json_str : Json -> string)
  (df : Frame) (c1 c2 : string) (rest : list string) :
  columns df = c1 :: c2 :: rest ->
  (forall col, In col (columns df) -> lower (strip col) <> "description") ->
  c2 <> "" ->
  desc_column df = Some c2 /\
  forall cb, codebook_of_frame json_loads json_list json_str df = Some cb ->
    Forall
      (fun item =>
         exists row,
           In row (rows df) /\
           description item =
             (if isna (row_get df row c2) then ""
              else cell_text (row_get df row c2)) /\
           (examples_column df = Some c2 ->
            examples item =
              examples_of_cell json_loads json_list json_str
                (row_get df row c2)))
      (codes cb).
Proof.
  intros Hcols Hno Hc2.
  assert (Hdesc : desc_column df = Some c2).
  { unfold desc_column, normalized_map.
    rewrite dict_of_pairs_get_none.
    - rewrite Hcols. reflexivity.
    - rewrite map_map. cbn [fst]. intros H.
      apply in_map_iff in H as (col & E & Hin). now apply (Hno col). }
  split; [exact Hdesc |].
  intros cb. unfold codebook_of_frame. rewrite Hdesc.
  destruct (code_column df) as [code_col|]; [| discriminate].
  intros E. injection E as <-. cbn [codes].
  apply Forall_forall. intros item Hin.
  apply codes_of_rows in Hin as (row & Hrow & Hcode).
  exists row. split; [exact Hrow |].
  unfold code_of_row in Hcode. cbv zeta in Hcode.
  destruct (isna (row_get df row code_col)); [discriminate |].
  destruct (is_empty (cell_text (row_get df row code_col)));
    [discriminate |].
  injection Hcode as <-. cbn [description examples].
  assert (Hin2 : truthy c2 && existsb (String.eqb c2) (columns df) = true).
  { apply andb_true_iff. split.
    - destruct c2; [congruence | reflexivity].
    - apply existsb_exists. exists c2. rewrite Hcols.
      split; [right; now left | apply String.eqb_refl]. }
  rewrite Hin2. split; [reflexivity |].
  intros ->. now rewrite Hin2.
Qed.

Lemma imported_codes_have_labels_witness :
  exists cb,
    codebook_of_frame (sample_loads []) sample_list sample_str
      sample_two_columns = Some cb /\
    map code (codes cb) = ["Price"; "Delivery"].
Proof.
  eexists. split; [reflexivity |].
  destruct (imported_codes_have_labels sample_json (sample_loads [])
              sample_list sample_str sample_two_columns _ eq_refl)
    as (code_col & _ & _ & _).
  reflexivity.
Defined.

Lemma description_from_second_column_witness :
  desc_column sample_two_columns = Some "Examples" /\
  exists cb,
    codebook_of_frame (sample_loads []) sample_list sample_str
      sample_two_columns = Some cb /\
    map description (codes cb) = ["too expensive | good value"; ""] /\
    map examples (codes cb) = [["too expensive"; "good value"]; []].
Proof.
  destruct (description_from_second_column sample_json (sample_loads [])
              sample_list sample_str sample_two_columns "Code" "Examples" []
              eq_refl) as [Hdesc _].
  - intros col [<- | [<- | []]]; discriminate.
  - discriminate.
  - split; [exact Hdesc |]. eexists. split; [reflexivity |].
    split; reflexivity.
Defined.

(** *** Writing a codebook and reading it back *)

Section RoundTrip.
Variable Json : Type.
Variable json_loads : string -> option Json.
Variable json_list : Json -> option (list Json).
Variable json_str : Json -> string.
Variable json_dumps : list string -> string.

Lemma export_columns (cb : Codebook) (blank : bool) :
  let df := if blank then blank_to_nan (codebook_rows json_dumps cb)
            else codebook_rows json_dumps cb in
  code_column df = Some "code" /\
  desc_column df = Some "description" /\
  examples_column df = Some "examples".
Proof. destruct blank; repeat split; reflexivity. Qed.

Lemma export_row (item : Code) (df : Frame) (blank : bool) :
  columns df = ["code"; "description"; "examples"] ->
  reads_back json_loads json_list json_str json_dumps (examples item) ->
  let keep := fun c => match c with Str "" => NaN | _ => c end in
  let row := [Str (code item); Str (description item);
              Str (json_dumps (examples item))] in
  code_of_row json_loads json_list json_str df "code"
    (Some "description") (Some "examples")
    (if blank then map keep row else row)
  = if is_empty (strip (code item)) then None
    else Some {| code := strip (code item);
                 description := strip (description item);
                 examples := examples item |}.
Proof.
  intros Hcols (Hne & parsed & items & Hl & Hi & Hs). cbv zeta.
  unfold code_of_row, row_get. rewrite Hcols. cbv zeta.
  assert (Hex : examples_of_text json_loads json_list json_str
                  (json_dumps (examples item)) = examples item).
  { unfold examples_of_text. now rewrite Hl, Hi. }
  assert (G1 : forall a b c : cell,
    dict_get String.eqb (combine ["code"; "description"; "examples"] [a; b; c])
      "code" = Some a) by reflexivity.
  assert (G2 : forall a b c : cell,
    dict_get String.eqb (combine ["code"; "description"; "examples"] [a; b; c])
      "description" = Some b) by reflexivity.
  assert (G3 : forall a b c : cell,
    dict_get String.eqb (combine ["code"; "description"; "examples"] [a; b; c])
      "examples" = Some c) by reflexivity.
  assert (T2 : truthy "description"
               && existsb (String.eqb "description")
                    ["code"; "description"; "examples"] = true)
    by reflexivity.
  assert (T3 : truthy "examples"
               && existsb (String.eqb "examples")
                    ["code"; "description"; "examples"] = true)
    by reflexivity.
  destruct blank; cbn [map]; rewrite G1, G2, G3, T2, T3.
  - destruct (code item) as [|a s] eqn:Ec; [reflexivity |].
    cbn [isna cell_text py_str].
    destruct (is_empty (strip (String a s))); [reflexivity |].
    f_equal. f_equal.
    + now destruct (description item).
    + destruct (json_dumps (examples item)) eqn:Ed; [congruence |].
      cbn [examples_of_cell]. exact Hex.
  - cbn [isna cell_text py_str examples_of_cell].
    destruct (is_empty (strip (code item))); [reflexivity |].
    now rewrite Hex.
Qed.

Lemma export_frame (cb : Codebook) (blank : bool) :
  Forall (fun item =>
            reads_back json_loads json_list json_str json_dumps
              (examples item)) (codes cb) ->
  codebook_of_frame json_loads json_list json_str
    (if blank then blank_to_nan (codebook_rows json_dumps cb)
     else codebook_rows json_dumps cb)
  = Some (trimmed_codebook cb).
Proof.
  intros Hall. unfold codebook_of_frame.
  destruct (export_columns cb blank) as (-> & -> & ->).
  unfold trimmed_codebook. do 2 f_equal.
  set (df := if blank then blank_to_nan (codebook_rows json_dumps cb)
             else codebook_rows json_dumps cb).
  assert (Hcols : columns df = ["code"; "description"; "examples"])
    by (unfold df; now destruct blank).
  set (G := fun item : Code =>
    let row := [Str (code item); Str (description item);
                Str (json_dumps (examples item))] in
    if blank
    then map (fun c => match c with Str "" => NaN | _ => c end) row
    else row).
  assert (Hrows : rows df = map G (codes cb)).
  { unfold df, G. destruct blank; cbn [blank_to_nan codebook_rows rows];
      [now rewrite map_map | reflexivity]. }
  rewrite Hrows. clear Hrows.
  assert (Hitem : forall item,
    reads_back json_loads json_list json_str json_dumps (examples item) ->
    code_of_row json_loads json_list json_str df "code"
      (Some "description") (Some "examples") (G item)
    = if is_empty (strip (code item)) then None
      else Some {| code := strip (code item);
                   description := strip (description item);
                   examples := examples item |}).
  { intros item Hr. apply (export_row item df blank Hcols Hr). }
  clearbody G df.
  induction Hall as [|item items Hr _ IH]; [reflexivity |].
  cbn [map flat_map]. rewrite IH, (Hitem item Hr). f_equal.
  now destruct (is_empty (strip (code item))).
Qed.

End RoundTrip.

(** X19.  A codebook written by [codebook_to_csv_bytes] and read by
    [parse_uploaded_codebook] comes back with its examples, with labels
    and descriptions trimmed and without the codes whose label is blank,
    provided the CSV layer hands the cells back as text (or as missing,
    where they were empty) and [json.loads] undoes [json.dumps]; so a
    codebook whose labels are not blank and whose labels and descriptions
    are trimmed comes back as it was. *)
Theorem export_import_round_trip (Json : Type)
  (json_loads : string -> option Json)
  (json_list : Json -> option (list Json)) (json_str : Json -> string)
  (json_dumps : list string -> string)
  (read_csv : string -> string -> option Frame) (to_csv : Frame -> string)
  (load_json_codebook : string -> option Codebook)
  (cb : Codebook) (file_name : string) :
  codes cb <> [] ->
  Forall (fun item =>
            reads_back json_loads json_list json_str json_dumps
              (examples item)) (codes cb) ->
  endswith (lower file_name) ".json" = false ->
  endswith (lower file_name) ".csv" = true ->
  (read_csv "utf-8" (to_csv (codebook_rows json_dumps cb))
     = Some (codebook_rows json_dumps cb) \/
   read_csv "utf-8" (to_csv (codebook_rows json_dumps cb))
     = Some (blank_to_nan (codebook_rows json_dumps cb))) ->
  parse_uploaded_codebook json_loads json_list json_str read_csv
    load_json_codebook file_name
    (codebook_to_csv_bytes json_dumps to_csv cb)
  = Some (trimmed_codebook cb) /\
  (Forall (fun item => code item <> "" /\ strip (code item) = code item /\
                       strip (description item) = description item)
     (codes cb) ->
   trimmed_codebook cb = cb).
Proof.
  intros Hne Hall Hjson Hcsv Hread. split.
  - unfold parse_uploaded_codebook, codebook_to_csv_bytes. cbv zeta.
    rewrite Hjson, Hcsv.
    destruct Hread as [-> | ->].
    + assert (E : frame_empty (codebook_rows json_dumps cb) = false).
      { unfold frame_empty. cbn [codebook_rows columns rows].
        destruct (codes cb); [congruence | reflexivity]. }
      rewrite E.
      apply (export_frame Json json_loads json_list json_str json_dumps
               cb false Hall).
    + assert (E : frame_empty (blank_to_nan (codebook_rows json_dumps cb))
                  = false).
      { unfold frame_empty. cbn [blank_to_nan codebook_rows columns rows].
        destruct (codes cb); [congruence | reflexivity]. }
      rewrite E.
      apply (export_frame Json json_loads json_list json_str json_dumps
               cb true Hall).
  - intros Htidy. destruct cb as [items]. unfold trimmed_codebook.
    cbn [codes] in *. f_equal. clear Hne Hall Hread.
    induction Htidy as [|item items (Hn & Hs & Hd) _ IH]; [reflexivity |].
    cbn [flat_map]. rewrite IH, Hs, Hd.
    destruct (code item) eqn:Ec; [congruence |]. cbn [is_empty app].
    f_equal. destruct item. cbn in *. now subst.
Qed.

Lemma export_import_round_trip_witness :
  parse_uploaded_codebook (sample_loads sample_known) sample_list sample_str
    (fun _ _ =>
       Some (blank_to_nan
               (codebook_rows sample_dumps sample_codebook_with_examples)))
    (fun _ => None) "Codebook.CSV"
    (codebook_to_csv_bytes sample_dumps (fun _ => "")
       sample_codebook_with_examples)
  = Some {| codes :=
      [ {| code := "Price"; description := "Mentions cost.";
           examples := ["too expensive"; "good value"] |};
        {| code := "Delivery"; description := ""; examples := [] |} ] |}.
Proof.
  refine (proj1 (export_import_round_trip sample_json
                   (sample_loads sample_known) sample_list sample_str
                   sample_dumps
                   (fun _ _ =>
                      Some (blank_to_nan
                              (codebook_rows sample_dumps
                                 sample_codebook_with_examples)))
                   (fun _ => "") (fun _ => None)
                   sample_codebook_with_examples "Codebook.CSV"
                   _ _ eq_refl eq_refl (or_intror eq_refl))).
  - discriminate.
  - repeat constructor; try discriminate;
      do 2 eexists; repeat split; reflexivity.
Defined.
(* ================================================================== *)
(** ** Merging and refining *)

Section MergeFacts.
Variable sv : Service.

Lemma structured_then_raw_spec (n : nat) (key system_msg prompt
  model : string) :
  let json_prompt :=
    (prompt ++ nl ++ nl
     ++ "Please respond with a valid JSON object that matches this schema: "
     ++ codebook_schema_text sv)%string in
  let rq1 := {| req_api_key := key; req_model := model;
                req_system := system_msg; req_user := json_prompt |} in
  let rq2 := {| req_api_key := key; req_model := model;
                req_system := system_msg; req_user := prompt |} in
  let rp1 := service_llm sv n rq1 in
  let rp2 := service_llm sv (S n) rq2 in
  structured_then_raw sv n key system_msg prompt model =
  match structured_result sv rp1 with
  | Some cb => ([(rq1, rp1)], Some cb)
  | None => ([(rq1, rp1); (rq2, rp2)], raw_result sv rp2)
  end.
Proof.
  cbv zeta. unfold structured_then_raw, call_claude_api_codebook,
    call_claude_api_text, structured_result, raw_result.
  cbv zeta.
  match goal with
  | |- context [service_llm sv n ?r] => destruct (service_llm sv n r)
  end.
  - destruct (service_llm sv (S n) _); reflexivity.
  - destruct (parse_codebook sv (extract_json text)); [reflexivity |].
    destruct (service_llm sv (S n) _); reflexivity.
Qed.

(** Where the structured cut finds nothing to validate, the cut of the
    fallback finds nothing either in the same text. *)
Lemma same_text_same_fate (text : string) :
  accepts_objects (parse_codebook sv) ->
  structured_result sv (ApiText text) = None ->
  raw_result sv (ApiText text) = None.
Proof.
  intros Hacc Hnone. unfold structured_result in Hnone. unfold raw_result.
  destruct (truthy (strip text)); [| reflexivity].
  destruct (brace_cases (strip text))
    as [(pre & body & post & E & _) | Hright].
  - rewrite <- cuts_agree; [exact Hnone |].
    left. now exists pre, body, post.
  - assert (Hno : ~ (exists pre body post,
                       strip text = (pre ++ braced body ++ post)%string)).
    { intros (pre & body & post & E). rewrite E in Hright.
      destruct (braces_in_order pre body post) as (i & j & Hi & Hj & Hlt).
      specialize (Hright i j Hi Hj). lia. }
    rewrite block_unchanged by exact Hno.
    destruct (parse_codebook sv (strip text)) as [cb|] eqn:Ep;
      [| reflexivity].
    exfalso. apply Hno. destruct (Hacc _ _ Ep) as (body & Eb).
    rewrite strip_idem in Eb. exists "", body, "".
    rewrite Eb. cbn [append]. now rewrite string_app_nil_r.
Qed.

End MergeFacts.

(** X20.  Merging and refining send one structured request and, only when
    it yields no codebook, one plain request for the same prompt, to the
    same model and with the same system message; the codebook returned is
    always one the validator accepted, from the first reply or else from
    the second.  When the model answers the plain request with the text it
    gave to the structured one, the second attempt cannot succeed where the
    first failed (a validator of codebooks accepts only a JSON object, and
    both cuts find the same object in a text). *)
Theorem merge_attempts (sv : Service) (n : nat) (api_key : string)
  (base_cb new_cb current_cb : Codebook)
  (model user_instructions instructions : string) :
  forall log result,
    merge_codebooks_via_llm sv n api_key base_cb new_cb model
      user_instructions = (log, result) \/
    refine_codebook_via_instructions sv n api_key current_cb instructions
      model = (log, result) ->
    exists rq1 rp1 rq2,
      req_user rq1 =
        (req_user rq2 ++ nl ++ nl
         ++ "Please respond with a valid JSON object that matches this schema: "
         ++ codebook_schema_text sv)%string /\
      req_api_key rq1 = api_key /\ req_api_key rq2 = api_key /\
      req_model rq1 = model /\ req_model rq2 = model /\
      req_system rq1 = "You are a master survey analyst." /\
      req_system rq2 = "You are a master survey analyst." /\
      rp1 = service_llm sv n rq1 /\
      ((log = [(rq1, rp1)] /\ result = structured_result sv rp1 /\
        result <> None) \/
       (structured_result sv rp1 = None /\
        log = [(rq1, rp1); (rq2, service_llm sv (S n) rq2)] /\
        result = raw_result sv (service_llm sv (S n) rq2) /\
        (accepts_objects (parse_codebook sv) ->
         service_llm sv (S n) rq2 = rp1 -> result = None))).
Proof.
  intros log result H.
  assert (G : exists prompt,
    structured_then_raw sv n api_key "You are a master survey analyst."
      prompt model = (log, result)).
  { destruct H as [H | H]; eexists; exact H. }
  destruct G as (prompt & G). clear H.
  rewrite structured_then_raw_spec in G. cbv zeta in G.
  pose (rq2 := {| req_api_key := api_key; req_model := model;
                  req_system := "You are a master survey analyst.";
                  req_user := prompt |}).
  pose (rq1 := {| req_api_key := api_key; req_model := model;
                  req_system := "You are a master survey analyst.";
                  req_user :=
                    (prompt ++ nl ++ nl
                     ++ "Please respond with a valid JSON object that matches this schema: "
                     ++ codebook_schema_text sv)%string |}).
  fold rq1 rq2 in G.
  exists rq1, (service_llm sv n rq1), rq2.
  repeat (split; [reflexivity |]).
  destruct (structured_result sv _) as [cb|] eqn:E.
  - left. injection G as <- <-.
    repeat split; first [reflexivity | discriminate | now rewrite E].
  - right. injection G as <- <-.
    split; [first [reflexivity | exact E] |].
    split; [reflexivity |]. split; [reflexivity |].
    intros Hacc Hsame. rewrite Hsame.
    destruct (service_llm sv n rq1) as [|text] eqn:Er; [reflexivity |].
    apply same_text_same_fate; [exact Hacc |].
    first [exact E | now rewrite <- Er].
Qed.

(** X21.  The button Refine & Merge sends at most three requests, all
    with the key and the model of the session, and never damages the
    codebook: the session keeps the codebook it had unless the last reply
    yields one that the validator accepted, which then replaces it.
    Without any response in the column nothing is sent. *)
Theorem refine_and_merge_is_safe (sv : Service)
  (api_key question_text generation_model : string) (column : list cell)
  (refine_sample_size : nat) (user_merge_instructions : string)
  (structured_codebook : Codebook) :
  forall log cb',
    refine_and_merge sv api_key question_text generation_model column
      refine_sample_size user_merge_instructions structured_codebook
    = (log, cb') ->
    length log <= 3 /\
    Forall (fun call => req_api_key (fst call) = api_key /\
                        req_model (fst call) = generation_model) log /\
    (unique (dropna column) = [] -> log = []) /\
    (cb' = structured_codebook \/
     exists rq rp,
       2 <= length log /\ last log (rq, rp) = (rq, rp) /\ In (rq, rp) log /\
       (structured_result sv rp = Some cb' \/ raw_result sv rp = Some cb')).
Proof.
  intros log cb'. unfold refine_and_merge. cbv zeta.
  destruct (unique (dropna column)) as [|v vs] eqn:Eu.
  { intros E. injection E as <- <-. repeat split; [cbn; lia | constructor |].
    now left. }
  set (new_prompt := generate_structured_codebook_prompt _ _).
  unfold call_claude_api_codebook at 1. cbv zeta.
  set (rq0 := {| req_api_key := api_key; req_model := generation_model;
                 req_system := "You are an expert survey analyst.";
                 req_user := _ |}).
  set (new_codebook := match service_llm sv 0 rq0 with
                       | ApiRaises => None
                       | ApiText text => parse_codebook sv (extract_json text)
                       end).
  destruct new_codebook as [new_cb|].
  2:{ intros E. injection E as <- <-.
      repeat split; [cbn; lia | repeat constructor | discriminate |].
      now left. }
  unfold merge_codebooks_via_llm. cbv zeta.
  rewrite structured_then_raw_spec. cbv zeta.
  set (rq1 := {| req_api_key := api_key; req_model := generation_model;
                 req_system := "You are a master survey analyst.";
                 req_user :=
                   (_ ++ nl ++ nl ++ _ ++ codebook_schema_text sv)%string |}).
  set (rq2 := {| req_api_key := api_key; req_model := generation_model;
                 req_system := "You are a master survey analyst.";
                 req_user := _ |}).
  destruct (structured_result sv (service_llm sv 1 rq1)) as [merged|] eqn:E1.
  - intros E. injection E as <- <-.
    repeat split; [cbn; lia | repeat constructor | discriminate |].
    right. exists rq1, (service_llm sv 1 rq1).
    repeat split; [cbn; lia | right; now left | now left].
  - destruct (raw_result sv (service_llm sv 2 rq2)) as [merged|] eqn:E2.
    + intros E. injection E as <- <-.
      repeat split; [cbn; lia | repeat constructor | discriminate |].
      right. exists rq2, (service_llm sv 2 rq2).
      repeat split; [cbn; lia | right; right; now left | now right].
    + intros E. injection E as <- <-.
      repeat split; [cbn; lia | repeat constructor | discriminate |].
      now left.
Qed.

Lemma merge_attempts_witness :
  let run :=
    merge_codebooks_via_llm sample_service 0 "key"
      sample_codebook_with_examples sample_codebook_with_examples
      "claude-3-5-sonnet-20241022" "" in
  length (fst run) = 2 /\ snd run = Some {| codes := [] |}.
Proof.
  intros run.
  destruct (merge_attempts sample_service 0 "key"
              sample_codebook_with_examples sample_codebook_with_examples
              sample_codebook_with_examples "claude-3-5-sonnet-20241022"
              "" "" (fst run) (snd run))
    as (rq1 & rp1 & rq2 & _ & _ & _ & _ & _ & _ & _ & _ & H).
  - left. apply surjective_pairing.
  - destruct H as [(Hlog & _) | (_ & Hlog & _)].
    + vm_compute in Hlog. discriminate.
    + split; [now rewrite Hlog | reflexivity].
Defined.

Lemma refine_and_merge_is_safe_witness :
  let run :=
    refine_and_merge sample_service "key" "Why did you choose us?"
      "claude-3-5-sonnet-20241022" sample_column 150 ""
      sample_codebook_with_examples in
  length (fst run) <= 3 /\ snd run = sample_codebook_with_examples.
Proof.
  intros run.
  destruct (refine_and_merge_is_safe sample_service "key"
              "Why did you choose us?" "claude-3-5-sonnet-20241022"
              sample_column 150 "" sample_codebook_with_examples
              (fst run) (snd run)) as (Hlen & _).
  - apply surjective_pairing.
  - split; [exact Hlen | reflexivity].
Defined.
(* ================================================================== *)
(** ** Editing and the classifier *)

Lemma update_at_map (A B : Type) (g : A -> B) (f : A -> A) (l : list A) :
  (forall a, g (f a) = g a) ->
  forall i, map g (update_at i f l) = map g l.
Proof.
  intros Hg. induction l as [|a l IH]; intros [|i]; cbn [update_at map];
    try reflexivity.
  - now rewrite Hg.
  - now rewrite IH.
Qed.

Lemma codebook_text_by_lines (cb cb' : Codebook) :
  map code (codes cb) = map code (codes cb') ->
  map description (codes cb) = map description (codes cb') ->
  reconstruct_codebook_text (Some cb) = reconstruct_codebook_text (Some cb').
Proof.
  intros Hc Hd. unfold reconstruct_codebook_text.
  assert (Hl : map (fun item =>
                 ("- Code: " ++ code item ++ nl ++ "  Description: "
                  ++ description item)%string) (codes cb)
             = map (fun item =>
                 ("- Code: " ++ code item ++ nl ++ "  Description: "
                  ++ description item)%string) (codes cb')).
  { revert Hc Hd. generalize (codes cb'). generalize (codes cb).
    induction l as [|a l IH]; intros [|b l'] Hc Hd; try discriminate;
      [reflexivity |].
    cbn [map] in *. injection Hc as Hc1 Hc2. injection Hd as Hd1 Hd2.
    now rewrite Hc1, Hd1, (IH l'). }
  rewrite Hl. destruct (codes cb), (codes cb'); try discriminate;
    reflexivity.
Qed.

(** X22.  The examples never reach the classifier: the codebook text of
    the prompts is made of the labels and the descriptions only, so Save
    Codebook, which replaces the examples of one code, leaves the codebook
    text and with it every classification run as they were.  Add a New
    Code refuses exactly the empty label; a code it adds goes last, and
    the codebook text then shows it. *)
Theorem examples_stay_out_of_prompts (codes0 : list Code) (chosen : nat)
  (edited_examples_text : string) :
  let saved := save_codebook codes0 chosen edited_examples_text in
  map code saved = map code codes0 /\
  map description saved = map description codes0 /\
  reconstruct_codebook_text (Some {| codes := saved |})
  = reconstruct_codebook_text (Some {| codes := codes0 |}) /\
  (forall (Vec : Type) (w : World Vec) (cfg : Config) (column : list cell),
     classify_all w cfg (Some {| codes := saved |}) column
     = classify_all w cfg (Some {| codes := codes0 |}) column) /\
  (forall label desc,
     (add_code codes0 label desc = None <-> label = "") /\
     (label <> "" ->
      exists item,
        add_code codes0 label desc = Some (codes0 ++ [item]) /\
        code item = label /\ description item = desc /\
        contains (code_header item)
          (reconstruct_codebook_text (Some {| codes := codes0 ++ [item] |}))
        = true)).
Proof.
  intros saved.
  assert (Hc : map code saved = map code codes0).
  { unfold saved, save_codebook. destruct (editor_index codes0 chosen);
      [| reflexivity]. now apply update_at_map. }
  assert (Hd : map description saved = map description codes0).
  { unfold saved, save_codebook. destruct (editor_index codes0 chosen);
      [| reflexivity]. now apply update_at_map. }
  assert (Ht : reconstruct_codebook_text (Some {| codes := saved |})
               = reconstruct_codebook_text (Some {| codes := codes0 |}))
    by now apply codebook_text_by_lines.
  split; [exact Hc |]. split; [exact Hd |]. split; [exact Ht |].
  split.
  { intros Vec w cfg column. unfold classify_all. now rewrite Ht. }
  intros label desc. unfold add_code. split.
  - destruct label; cbn [truthy is_empty negb];
      split; try reflexivity; discriminate.
  - intros Hne. destruct label as [|a label]; [congruence |].
    cbn [truthy is_empty negb]. eexists. split; [reflexivity |].
    split; [reflexivity |]. split; [reflexivity |].
    destruct (codes0 ++ [_]) as [|it rest] eqn:E.
    { now apply app_eq_nil in E as [_ E]. }
    destruct (codebook_text_cons {| codes := it :: rest |} it rest eq_refl)
      as (_ & Hall).
    apply Hall. cbn [codes]. rewrite <- E. apply in_or_app. right. now left.
Qed.

(* ================================================================== *)
(** ** The classified frame *)

(** X23.  The handler adds to the frame and takes nothing away: the
    classified frame holds every column of the data as it was, except a
    column that was already called Assigned Code, whose place the new
    codes take; the codes are as many as the rows of the coded column.
    New, the column Assigned Code comes last.  The view shows the coded
    column and the codes; when the coded column is itself called Assigned
    Code, its responses are replaced by their codes. *)
Theorem classified_frame_keeps_data (Vec : Type) (w : World Vec)
  (cfg : Config) (cb : option Codebook) (df : DataFrame)
  (column_to_code : string) (classified_df : DataFrame) :
  classify_frame w cfg cb df column_to_code = Some classified_df ->
  exists column st assigned_code,
    dict_get String.eqb df column_to_code = Some column /\
    classify_all w cfg cb column = Classified st assigned_code /\
    length assigned_code = length column /\
    dict_get String.eqb classified_df "Assigned Code"
      = Some (map assigned_cell assigned_code) /\
    (forall name, name <> "Assigned Code" ->
       dict_get String.eqb classified_df name = dict_get String.eqb df name) /\
    keys classified_df =
      (if dict_has String.eqb df "Assigned Code" then keys df
       else keys df ++ ["Assigned Code"]) /\
    (column_to_code <> "" ->
     display_columns classified_df (Some column_to_code)
       = [column_to_code; "Assigned Code"]).
Proof.
  unfold classify_frame.
  destruct (dict_get String.eqb df column_to_code) as [column|] eqn:Ecol;
    [| discriminate].
  destruct (classify_all w cfg cb column) as [st assigned | |] eqn:Erun;
    try discriminate.
  intros E. injection E as <-.
  exists column, st, assigned.
  split; [first [reflexivity | exact Ecol] |].
  split; [first [reflexivity | exact Erun] |].
  assert (Hlen : length assigned = length column).
  { unfold classify_all in Erun.
    destruct (is_empty (reconstruct_codebook_text cb)); [discriminate |].
    destruct (fill_cache _ _ _ _ _); try discriminate.
    injection Erun as _ <-. apply length_map. }
  split; [exact Hlen |].
  split; [apply dict_get_set_same |].
  split; [intros name Hne; now apply dict_get_set_other |].
  assert (Hkeys : keys (dict_set String.eqb df "Assigned Code"
                          (map assigned_cell assigned)) =
                  (if dict_has String.eqb df "Assigned Code" then keys df
                   else keys df ++ ["Assigned Code"])).
  { destruct (dict_has String.eqb df "Assigned Code") eqn:Eh.
    - apply dict_has_In in Eh.
      now apply (dict_set_known _ _ _ String.eqb_spec).
    - rewrite (dict_set_fresh _ _ _ String.eqb_spec).
      + unfold keys. now rewrite map_app.
      + intros H. apply dict_has_In in H. congruence. }
  split; [exact Hkeys |].
  intros Hne. unfold display_columns. cbv zeta.
  assert (Ha : dict_has String.eqb
                 (dict_set String.eqb df "Assigned Code"
                    (map assigned_cell assigned)) "Assigned Code" = true).
  { apply dict_has_In. apply dict_get_keys. eexists.
    apply dict_get_set_same. }
  assert (Hc : dict_has String.eqb
                 (dict_set String.eqb df "Assigned Code"
                    (map assigned_cell assigned)) column_to_code = true).
  { apply dict_has_In. apply dict_get_keys.
    destruct (String.eqb_spec column_to_code "Assigned Code") as [-> | Hn].
    - eexists. apply dict_get_set_same.
    - exists column. now rewrite dict_get_set_other. }
  rewrite Ha, Hc.
  destruct column_to_code; [congruence | reflexivity].
Qed.

Lemma classified_frame_keeps_data_witness :
  exists classified_df,
    classify_frame sample_run_world (sample_config false true)
      sample_codebook
      [("Assigned Code", sample_column); ("id", map Int [1; 2; 3; 4; 5; 6]%Z)]
      "Assigned Code" = Some classified_df /\
    classified_df =
      [("Assigned Code",
        [Str "Price"; Str "Price"; NaN; Str "API_ERROR"; NaN; Str "Price"]);
       ("id", map Int [1; 2; 3; 4; 5; 6]%Z)] /\
    display_columns classified_df (Some "Assigned Code")
      = ["Assigned Code"; "Assigned Code"].
Proof.
  eexists. split; [reflexivity |].
  destruct (classified_frame_keeps_data _ sample_run_world
              (sample_config false true) sample_codebook
              [("Assigned Code", sample_column);
               ("id", map Int [1; 2; 3; 4; 5; 6]%Z)]
              "Assigned Code" _ eq_refl)
    as (column & st & assigned & _ & _ & _ & _ & _ & _ & Hshow).
  split; [vm_compute; reflexivity |]. apply Hshow. discriminate.
Defined.
(* ================================================================== *)
(** ** Examples written by hand *)

Lemma split_from_read (sep : ascii) (x : list ascii) : forall cur rest,
  ~ In sep x ->
  split_from sep cur (x ++ rest) = split_from sep (rev x ++ cur) rest.
Proof.
  induction x as [|a x IH]; intros cur rest Hx; [reflexivity |].
  cbn [app split_from].
  destruct (Ascii.eqb_spec a sep) as [-> | _]; [exfalso; apply Hx; now left |].
  rewrite IH by (intros H; apply Hx; now right).
  cbn [rev]. now rewrite <- app_assoc.
Qed.

Lemma split_join (sep : ascii) (xs : list string) :
  xs <> [] ->
  Forall (fun x => contains_char sep x = false) xs ->
  split_char sep (join (String sep "") xs) = xs.
Proof.
  intros Hne H. unfold split_char.
  induction H as [|x xs Hx Hxs IH]; [congruence |].
  assert (Hnot : ~ In sep (list_ascii_of_string x))
    by now apply contains_char_In.
  assert (Hback : string_of_list_ascii (rev (rev (list_ascii_of_string x)))
                  = x)
    by now rewrite rev_involutive, string_of_list_ascii_of_string.
  destruct xs as [|y xs].
  - cbn [join String.concat].
    rewrite <- (app_nil_r (list_ascii_of_string x)).
    rewrite split_from_read by exact Hnot. cbn [split_from].
    now rewrite app_nil_r, Hback.
  - rewrite join_cons by discriminate. rewrite las_app.
    cbn [append list_ascii_of_string].
    rewrite split_from_read by exact Hnot. cbn [split_from].
    rewrite Ascii.eqb_refl, app_nil_r, Hback. f_equal.
    apply IH. discriminate.
Qed.

Lemma split_pieces (sep : ascii) (s : list ascii) : forall cur piece,
  ~ In sep cur -> In piece (split_from sep cur s) ->
  contains_char sep piece = false.
Proof.
  induction s as [|a s IH]; intros cur piece Hcur Hin; cbn [split_from] in Hin.
  - destruct Hin as [<- | []]. apply contains_char_sola.
    now rewrite <- in_rev.
  - destruct (Ascii.eqb_spec a sep) as [-> | Hne].
    + destruct Hin as [<- | Hin].
      * apply contains_char_sola. now rewrite <- in_rev.
      * apply (IH [] piece); [intros [] | exact Hin].
    + apply (IH (a :: cur) piece); [| exact Hin].
      intros [E | H]; [congruence | now apply Hcur].
Qed.

Lemma contains_char_strip (c : ascii) (s : string) :
  contains_char c s = false -> contains_char c (strip s) = false.
Proof.
  intros H. unfold strip.
  now apply contains_char_rstrip, contains_char_lstrip.
Qed.

Lemma keep_plain (xs : list string) :
  Forall (fun x => x <> "" /\ strip x = x) xs ->
  map strip (filter (fun s => truthy (strip s)) xs) = xs.
Proof.
  induction 1 as [|x xs (Hne & Hs) _ IH]; [reflexivity |].
  cbn [filter]. rewrite Hs. destruct x; [congruence |].
  cbn [truthy is_empty negb map]. now rewrite Hs, IH.
Qed.

Lemma join_has_sep (sep : ascii) (x y : string) (xs : list string) :
  contains_char sep (join (String sep "") (x :: y :: xs)) = true.
Proof.
  rewrite join_cons by discriminate. rewrite contains_char_app.
  cbn [append contains_char]. now rewrite Ascii.eqb_refl, orb_true_r.
Qed.

(** X24.  A cell of examples that is no JSON is cut at the first of the
    separators pipe, semicolon and line feed that occurs in it, and only
    at that one.  The examples read are never empty and are trimmed.
    Examples written with pipes between them are read back as they were,
    semicolons and line feeds inside them included; plain examples (free
    of the three separators) are read back whichever of the three stands
    between them; and a cell without any separator is one example,
    trimmed. *)
Theorem examples_written_by_hand (Json : Type)
  (json_loads : string -> option Json)
  (json_list : Json -> option (list Json)) (json_str : Json -> string)
  (cell : string) :
  json_loads cell = None ->
  let read := examples_of_text json_loads json_list json_str cell in
  Forall (fun x => x <> "" /\ strip x = x) read /\
  (contains_char pipe cell = false ->
   contains_char (ascii_of_nat 59) cell = false ->
   contains_char (ascii_of_nat 10) cell = false ->
   read = if truthy (strip cell) then [strip cell] else []) /\
  (forall x y xs,
     Forall (fun x => x <> "" /\ strip x = x /\ contains_char pipe x = false)
       (x :: y :: xs) ->
     cell = join (String pipe "") (x :: y :: xs) -> read = x :: y :: xs) /\
  (forall sep xs,
     In sep [pipe; ascii_of_nat 59; ascii_of_nat 10] ->
     xs <> [] -> Forall plain_example xs ->
     cell = join (String sep "") xs -> read = xs).
Proof.
  intros Hjson read. unfold read, examples_of_text. rewrite Hjson.
  cbv zeta.
  set (semi := ascii_of_nat 59). set (lf := ascii_of_nat 10).
  assert (Hcut : forall sep,
    Forall (fun x => x <> "" /\ strip x = x)
      (map strip (filter (fun s => truthy (strip s)) (split_char sep cell)))).
  { intros sep. apply Forall_forall. intros x Hx.
    apply in_map_iff in Hx as (piece & <- & Hp).
    apply filter_In in Hp as [Hp Hkeep]. split.
    - intros E. rewrite E in Hkeep. discriminate.
    - apply strip_idem. }
  assert (Hone : Forall (fun x => x <> "" /\ strip x = x)
                   (if truthy (strip cell) then [strip cell] else [])).
  { destruct (strip cell) as [|a s] eqn:E; cbn [truthy is_empty negb];
      constructor; [| constructor].
    split; [discriminate |]. rewrite <- E. apply strip_idem. }
  assert (Hread : forall sep xs,
    xs <> [] -> Forall (fun x => x <> "" /\ strip x = x) xs ->
    Forall (fun x => contains_char sep x = false) xs ->
    cell = join (String sep "") xs ->
    match map strip (filter (fun s => truthy (strip s))
                       (split_char sep cell)) with
    | [] => if truthy (strip cell) then [strip cell] else []
    | _ :: _ =>
        map strip (filter (fun s => truthy (strip s)) (split_char sep cell))
    end = xs).
  { intros sep xs Hne Hplain Hfree ->.
    rewrite split_join by assumption. rewrite keep_plain by exact Hplain.
    destruct xs; [congruence | reflexivity]. }
  cbn [examples_by_separator].
  split; [| split; [| split]].
  - destruct (contains_char pipe cell).
    { pose proof (Hcut pipe) as H.
      destruct (map strip _); [exact Hone | exact H]. }
    destruct (contains_char semi cell).
    { pose proof (Hcut semi) as H.
      destruct (map strip _); [exact Hone | exact H]. }
    destruct (contains_char lf cell).
    { pose proof (Hcut lf) as H.
      destruct (map strip _); [exact Hone | exact H]. }
    exact Hone.
  - intros Hp Hs Hl. now rewrite Hp, Hs, Hl.
  - intros x y xs Hxs E.
    assert (Hp : contains_char pipe cell = true)
      by (rewrite E; apply join_has_sep).
    rewrite Hp. apply Hread; [discriminate | | | exact E].
    + eapply Forall_impl; [| exact Hxs]. cbv beta. tauto.
    + eapply Forall_impl; [| exact Hxs]. cbv beta. tauto.
  - intros sep xs Hsep Hne Hxs E.
    assert (Hplain : Forall (fun x => x <> "" /\ strip x = x) xs).
    { eapply Forall_impl; [| exact Hxs]. unfold plain_example. cbv beta.
      tauto. }
    assert (Hfree : forall c, In c [pipe; semi; lf] ->
                      Forall (fun x => contains_char c x = false) xs).
    { intros c Hc. eapply Forall_impl; [| exact Hxs].
      intros x (_ & _ & H1 & H2 & H3).
      destruct Hc as [<- | [<- | [<- | []]]]; assumption. }
    destruct xs as [|x [|y xs]]; [congruence | |].
    + cbn [join String.concat] in E. subst cell.
      inversion Hxs as [|? ? (Hn & Hs & H1 & H2 & H3) _]; subst.
      fold semi in H2. fold lf in H3. rewrite H1, H2, H3, Hs.
      destruct x; [congruence | reflexivity].
    + assert (Hother : forall c, In c [pipe; semi; lf] -> c <> sep ->
                         contains_char c cell = false).
      { intros c Hc Hcs. rewrite E. apply contains_char_join.
        - cbn [contains_char]. destruct (Ascii.eqb_spec sep c);
            [congruence | reflexivity].
        - now apply Hfree. }
      assert (Hhas : contains_char sep cell = true)
        by (rewrite E; apply join_has_sep).
      assert (Hgoal := Hread sep (x :: y :: xs) Hne Hplain
                         (Hfree sep Hsep) E).
      destruct Hsep as [<- | [<- | [<- | []]]].
      * now rewrite Hhas.
      * rewrite (Hother pipe) by (try (now left); discriminate).
        fold semi. now rewrite Hhas.
      * rewrite (Hother pipe) by (try (now left); discriminate).
        rewrite (Hother semi) by (try (right; now left); discriminate).
        fold lf. now rewrite Hhas.
Qed.

Lemma examples_written_by_hand_witness :
  examples_of_text (sample_loads []) sample_list sample_str
    "too expensive|good value; mostly"
  = ["too expensive"; "good value; mostly"].
Proof.
  destruct (examples_written_by_hand sample_json (sample_loads [])
              sample_list sample_str "too expensive|good value; mostly"
              eq_refl) as (_ & _ & Hpipes & _).
  apply Hpipes; [| reflexivity].
  repeat constructor; discriminate.
Defined.
(* ================================================================== *)
(** ** The provider of the script *)

(** X25.  With the provider the script has, a run never stops for want of
    embeddings: [get_embeddings] returns a vector for every response, so
    the test [if not embeddings] of the clustering branch, which is entered
    with two responses at least, never fires. *)
Theorem provider_never_fails (w : World (list Q)) (cfg : Config)
  (cb : option Codebook) (column : list cell) :
  embed w = app_embed ->
  (forall rs, length (embed w rs (api_key cfg)) = length rs) /\
  forall st,
    classify_all w cfg cb column
    <> NotClassified (Stopped "Failed to generate embeddings." st).
Proof.
  intros Hembed.
  assert (Hlen : forall rs, length (embed w rs (api_key cfg)) = length rs).
  { intros rs. rewrite Hembed. unfold app_embed, get_embeddings.
    apply embeddings_from_length. }
  split; [exact Hlen |].
  intros st. unfold classify_all. cbv zeta.
  destruct (is_empty (reconstruct_codebook_text cb)); [discriminate |].
  set (rs := unique_responses_of column).
  set (txt := reconstruct_codebook_text cb).
  assert (Hfill : forall st',
    fill_cache w cfg txt rs initial_state
    <> Stopped "Failed to generate embeddings." st').
  { intros st'. unfold fill_cache.
    destruct (use_clustering cfg && (1 <? length rs)%nat) eqn:Eb;
      [| discriminate].
    apply andb_true_iff in Eb as [_ Eb]. apply Nat.ltb_lt in Eb.
    unfold classify_clustered. cbv zeta.
    specialize (Hlen rs).
    destruct (embed w rs (api_key cfg)) as [|v vs] eqn:Ev.
    { simpl in Hlen. lia. }
    destruct (Z.eqb _ 0); [intros E; discriminate E |].
    destruct (classify_clusters _ _ _ _ _ _ _ _ _)
      as [[[cc calls] st3] | st3]; [| discriminate].
    destruct (classify_outliers _ _ _ _ _ _ _) as [calls' st4].
    destruct (propagate _ _ _); discriminate. }
  destruct (fill_cache w cfg txt rs initial_state) as [s | m s | e s] eqn:E;
    try discriminate.
  intros H. injection H as Hm Hs. subst. now apply (Hfill st).
Qed.

Lemma provider_never_fails_witness :
  length (embed sample_run_world (unique_responses_of sample_column) "key")
  = 3.
Proof.
  exact (proj1 (provider_never_fails sample_run_world
                  (sample_config false true) sample_codebook sample_column
                  eq_refl) (unique_responses_of sample_column)).
Defined.

(* ================================================================== *)
(** ** Every member once, for a column of text *)

Lemma member_has_label (rs : list string) (labels : list Z) (r : string) :
  length labels = length rs -> In r rs ->
  exists c, In (r, c) (combine rs labels).
Proof.
  revert labels. induction rs as [|a rs IH]; intros labels Hlen Hin;
    [destruct Hin |].
  destruct labels as [|c labels]; [discriminate |].
  destruct Hin as [-> | Hin].
  - exists c. now left.
  - destruct (IH labels) as (c' & Hc'); [now injection Hlen | exact Hin |].
    exists c'. now right.
Qed.

Lemma key_has_item (items : list (string * string)) (r : string) :
  In r (map fst items) -> exists v, In (r, v) items.
Proof.
  intros H. apply in_map_iff in H as ([k v] & E & Hin). cbn in E. subst k.
  now exists v.
Qed.

(** X26.  A column of text and missing values: after a run, with or
    without clustering, the keys of the results cache are the members of
    the Response Set, each once; every member was written once, and what
    the cache holds for it is that one string, a string that
    [classify_item] returned in this run, for the member itself when the
    run does not cluster. *)
Theorem text_members_classified_once (Vec : Type) (w : World Vec)
  (cfg : Config) (cb : option Codebook) (column : list cell) :
  let rs := unique_responses_of column in
  Forall (fun c => c = NaN \/ exists s, c = Str s) column ->
  reconstruct_codebook_text cb <> "" ->
  (use_clustering cfg = true -> 1 < length rs ->
   external_contract w cfg rs) ->
  exists st assigned,
    classify_all w cfg cb column = Classified st assigned /\
    Permutation (keys (results_cache st)) rs /\
    NoDup (keys (results_cache st)) /\
    forall r, In r rs ->
      exists item v,
        In (item, v) (classified st) /\
        dict_get String.eqb (results_cache st) r = Some v /\
        filter (fun kv => String.eqb (fst kv) r) (cache_writes st)
          = [(r, v)] /\
        (use_clustering cfg = false -> item = r).
Proof.
  intros rs Htext Hcb Hc.
  assert (Hnd : NoDup rs).
  { apply NoDup_filter. now apply text_spellings_distinct. }
  set (txt := reconstruct_codebook_text cb).
  destruct (branch_cases cfg rs) as [[Hu Hlen] | Hb].
  - specialize (Hc Hu Hlen).
    exists (report 100 (report 95 (clustered_state w cfg txt rs))).
    eexists. split.
    { apply classify_all_finished; [exact Hcb |].
      now apply fill_cache_clustered. }
    cbn [report clustered_state results_cache cache_writes classified].
    assert (Hne : rs <> [])
      by (intros E; rewrite E in Hlen; simpl in Hlen; lia).
    assert (Hperm : Permutation (keys (clustered_cache w cfg txt rs)) rs)
      by now apply clustered_cache_perm.
    assert (Hk : NoDup (keys (clustered_cache w cfg txt rs)))
      by now apply clustered_cache_nodup.
    assert (Hll : length (labels_of w cfg rs) = length rs)
      by now apply labels_length.
    split; [exact Hperm |]. split; [exact Hk |].
    intros r Hr.
    destruct (written_once (clustered_cache w cfg txt rs) r Hk
                (Permutation_in _ (Permutation_sym Hperm) Hr))
      as (v & Hv & Hw).
    destruct (member_has_label rs (labels_of w cfg rs) r Hll Hr)
      as (c & Hin).
    destruct (is_outlier c) eqn:Hout.
    + assert (Hcall : In r (call_order rs (labels_of w cfg rs)
                              (set_order w (labels_of w cfg rs)))).
      { unfold call_order. apply in_or_app. right. unfold outliers_of.
        apply in_map_iff. exists (r, c). split; [reflexivity |].
        apply filter_In. now split. }
      rewrite <- (items_from_keys _ w cfg txt _ 0) in Hcall.
      apply key_has_item in Hcall as (v' & Hitem).
      assert (Hget : dict_get String.eqb (clustered_cache w cfg txt rs) r
                     = Some v') by now apply clustered_items_cached.
      assert (v' = v) by congruence. subst v'.
      exists r, v. split; [now apply -> in_rev |].
      split; [exact Hv |]. split; [exact Hw | reflexivity].
    + destruct (member_code _ w cfg txt rs Hnd Hc r c Hin Hout)
        as (rep & code & _ & Hitem & _ & Hget).
      assert (code = v) by congruence. subst code.
      exists rep, v. split; [now apply -> in_rev |].
      split; [exact Hv |]. split; [exact Hw |].
      intros Hoff. congruence.
  - exists (report 100 (report 95 (plain_state w cfg txt rs))).
    eexists. split.
    { apply classify_all_finished; [exact Hcb |].
      now apply fill_cache_plain. }
    cbn [report plain_state results_cache cache_writes classified].
    assert (Hkeys : keys (items_from w cfg txt 0 rs) = rs)
      by apply items_from_keys.
    rewrite Hkeys. split; [apply Permutation_refl |]. split; [exact Hnd |].
    intros r Hr.
    assert (Hk : NoDup (keys (items_from w cfg txt 0 rs)))
      by now rewrite Hkeys.
    destruct (written_once (items_from w cfg txt 0 rs) r Hk
                ltac:(now rewrite Hkeys)) as (v & Hv & Hw).
    exists r, v. split.
    { apply -> in_rev.
      apply (dict_get_some _ _ _ String.eqb_spec). exact Hv. }
    split; [exact Hv |]. split; [exact Hw | reflexivity].
Qed.

Lemma text_members_classified_once_witness :
  exists st assigned,
    classify_all sample_run_world (sample_config true false) sample_codebook
      sample_column = Classified st assigned /\
    keys (results_cache st) = ["Great price"; "great price"; "Too slow"].
Proof.
  destruct (text_members_classified_once _ sample_run_world
              (sample_config true false) sample_codebook sample_column)
    as (st & assigned & Hrun & _).
  - unfold sample_column.
    repeat (constructor; [first [now left | right; eexists; reflexivity] |]).
    constructor.
  - exact sample_codebook_text.
  - discriminate.
  - exists st, assigned. split; [exact Hrun |].
    vm_compute in Hrun. injection Hrun as <- _. reflexivity.
Defined.
